(** * golw: a size-based log-rotation writer

    A shallow embedding of the two LogWriter implementations of the
    repository:

    - [LogWriterGo]: src/logWriter.go with the wrappers of src/os.go
      (one pending buffer, [indexOfFinalNewline], [flushThreshold]);
    - [FileGo]: src/file.go (a pending buffer cut into write extents,
      [waitingForNewline], [fileSizeNow]).

    Both run in a small state monad over the writer structure and a model of
    the operating system: a file table, a clock, a script of responses the
    operating system gives to the calls it receives, and the trace of those
    calls.

    Integers.  The [int64] counters ([writtenBytes], [fileSizeNow],
    [maxBytes]) are integers of [Z] and every addition made on them is
    wrapped to 64 bits by [int64].  Values of Go type [int] are lengths of
    slices, indices into them and differences of those (a count returned by
    the operating system is range-checked before it is used), so they stay
    far inside the machine range and are plain [Z]. *)

From Stdlib Require Import ZArith Lia Strings.Byte DecimalString.
From stdpp Require Import gmap strings list.

Local Open Scope Z_scope.

(** ** Bytes *)

Abbreviation bytes := (list byte).

(** The line terminator ['\n']. *)
Definition LF : byte := x0a.

(** [len(s)] as a Go [int]. *)
Definition len {A} (s : list A) : Z := Z.of_nat (length s).

(** [bytes.LastIndexByte(s, c)]: the index of the last [c] in [s], or -1. *)
Fixpoint LastIndexByte (s : bytes) (c : byte) : Z :=
  match s with
  | [] => -1
  | b :: s' =>
      let r := LastIndexByte s' c in
      if 0 <=? r then r + 1 else if Byte.eqb b c then 0 else -1
  end.

(** [s[:n]]: [None] stands for the run-time panic "slice bounds out of
    range".  Go allows [n] up to the capacity of [s]; the model tracks
    lengths only and refuses what lies beyond the length. *)
Definition slice_to (s : bytes) (n : Z) : option bytes :=
  if (0 <=? n) && (n <=? len s) then Some (take (Z.to_nat n) s) else None.

(** [s[n:]]. *)
Definition slice_from (s : bytes) (n : Z) : option bytes :=
  if (0 <=? n) && (n <=? len s) then Some (drop (Z.to_nat n) s) else None.

(** Conversion to [int64], and with it the wrap-around of every [int64]
    addition. *)
Definition int64 (z : Z) : Z := (z + 2 ^ 63) mod 2 ^ 64 - 2 ^ 63.

(** ** Errors *)

(** Go [error] values; [None] of [option error] is [nil]. *)
Inductive error :=
| ErrInvalid                              (* os.ErrInvalid *)
| ErrShortWrite                           (* io.ErrShortWrite *)
| ErrInvalidWrite (nw : Z)                (* "invalid write result" *)
| ErrConfig (n : Z)                       (* "cannot use negative flush threshold" *)
| ErrGetwd (e : error)                    (* "cannot determine working directory" *)
| Errno (code : Z)                        (* any other error of the system *)
| PathError (op path : string) (e : error)          (* os.PathError *)
| LinkError (op old new : string) (e : error).      (* os.LinkError *)

(** ** The operating system *)

(** What the system answers to one call.  [Good] is the call done in full
    without error; [Reply n err] is the error [err] (if any), and for a write
    the count [n] the call reports. *)
Inductive response :=
| Good
| Reply (n : Z) (err : option error).

(** The calls made to the system, with their results. *)
Inductive event :=
| EvOpen (path : string) (trunc : bool) (err : option error)
| EvStat (path : string) (err : option error)
| EvClose (fp : option string) (err : option error)
| EvRename (old new : string) (err : option error)
| EvWrite (fp : option string) (p : bytes) (n : Z) (err : option error).

(** An open [os.File] is named by the path it was opened at: both writers
    close their file before they rename it, so an open file never moves.
    The [nil] pointer is [None]. *)
Abbreviation file := (option string).

Record World := mkWorld {
  files : gmap string bytes;       (* the contents of the files that exist *)
  now : Z;                         (* what time.Now() returns next *)
  cwd : string + error;            (* what os.Getwd() returns *)
  progname : string;               (* filepath.Base(os.Args[0]) *)
  time_Format : string → Z → string;  (* time.Time.Format, in UTC *)
  script : list response;          (* the answers to the calls to come *)
  trace : list event               (* the calls made so far, oldest first *)
}.

Definition set_files (f : gmap string bytes) (w : World) : World :=
  mkWorld f (now w) (cwd w) (progname w) (time_Format w) (script w) (trace w).
Definition set_now (t : Z) (w : World) : World :=
  mkWorld (files w) t (cwd w) (progname w) (time_Format w) (script w) (trace w).
Definition set_script (s : list response) (w : World) : World :=
  mkWorld (files w) (now w) (cwd w) (progname w) (time_Format w) s (trace w).
Definition log (e : event) (w : World) : World :=
  mkWorld (files w) (now w) (cwd w) (progname w) (time_Format w) (script w)
    (trace w ++ [e]).

(** The answer to the next call. *)
Definition next_response (w : World) : response * World :=
  match script w with
  | [] => (Good, w)
  | r :: rs => (r, set_script rs w)
  end.

Definition response_err (r : response) : option error :=
  match r with Good => None | Reply _ err => err end.

(** The contents of a file; a file that does not exist has none. *)
Definition contents (w : World) (path : string) : bytes :=
  default [] (files w !! path).

(** How many of the bytes of [p] reach the file when the call reports [n]. *)
Definition accepted (p : bytes) (n : Z) : bytes := take (Z.to_nat n) p.

(** [os.File.Write]: on the [nil] file it returns [ErrInvalid] and makes
    no system call. *)
Definition os_File_Write (fp : file) (p : bytes) (w : World)
  : (Z * option error) * World :=
  match fp with
  | None => ((0, Some ErrInvalid), log (EvWrite None p 0 (Some ErrInvalid)) w)
  | Some path =>
      let '(r, w) := next_response w in
      let '(n, err) := match r with
                       | Good => (len p, None)
                       | Reply n err => (n, err)
                       end in
      let w := set_files (<[path := contents w path ++ accepted p n]> (files w)) w in
      ((n, err), log (EvWrite fp p n err) w)
  end.

(** [os.File.Close]. *)
Definition os_File_Close (fp : file) (w : World) : option error * World :=
  match fp with
  | None => (Some ErrInvalid, log (EvClose None (Some ErrInvalid)) w)
  | Some path =>
      let '(r, w) := next_response w in
      (response_err r, log (EvClose fp (response_err r)) w)
  end.

(** [os.OpenFile] with [O_WRONLY|O_CREATE|O_APPEND], and [O_TRUNC] when
    [trunc]. *)
Definition os_OpenFile (path : string) (trunc : bool) (w : World)
  : (file * option error) * World :=
  let '(r, w) := next_response w in
  match response_err r with
  | Some e => ((None, Some e), log (EvOpen path trunc (Some e)) w)
  | None =>
      let c := if trunc then [] else contents w path in
      ((Some path, None),
       log (EvOpen path trunc None) (set_files (<[path := c]> (files w)) w))
  end.

(** [os.File.Stat] then [Size()]. *)
Definition os_File_Stat (fp : file) (w : World) : (Z * option error) * World :=
  match fp with
  | None => ((0, Some ErrInvalid), log (EvStat "" (Some ErrInvalid)) w)
  | Some path =>
      let '(r, w) := next_response w in
      match response_err r with
      | Some e => ((0, Some e), log (EvStat path (Some e)) w)
      | None => ((len (contents w path), None), log (EvStat path None) w)
      end
  end.

(** [os.Rename]: a file that does not exist cannot be renamed. *)
Definition os_Rename (old new : string) (w : World) : option error * World :=
  let '(r, w) := next_response w in
  match response_err r, files w !! old with
  | Some e, _ => (Some e, log (EvRename old new (Some e)) w)
  | None, None =>
      let e := LinkError "rename" old new (Errno 2) in
      (Some e, log (EvRename old new (Some e)) w)
  | None, Some c =>
      (None, log (EvRename old new None)
               (set_files (<[new := c]> (delete old (files w))) w))
  end.

(** [time.Now()]: the clock moves on at every reading. *)
Definition time_Now (w : World) : Z * World := (now w, set_now (now w + 1) w).

(** [filepath.Join] of a directory and a base name (the cleaning of the
    result is left out). *)
Definition filepath_Join (dir name : string) : string :=
  (dir ++ "/" ++ name)%string.

(** [strconv.FormatInt(n, 10)]. *)
Definition FormatInt (n : Z) : string := NilZero.string_of_int (Z.to_int n).

(** ** The monad of a writer

    A computation runs on the writer structure [L] and the system; it ends
    with a value and a new state, or it panics, or a loop of it has used up
    the steps it was given. *)

Inductive outcome (L A : Type) :=
| Done (a : A) (l : L) (w : World)
| Panic (msg : string)
| OutOfFuel.
Arguments Done {L A} a l w.
Arguments Panic {L A} msg.
Arguments OutOfFuel {L A}.

Definition M (L A : Type) : Type := L → World → outcome L A.

Definition ret {L A} (a : A) : M L A := λ l w, Done a l w.

Definition bind {L A B} (m : M L A) (k : A → M L B) : M L B :=
  λ l w, match m l w with
         | Done a l' w' => k a l' w'
         | Panic msg => Panic msg
         | OutOfFuel => OutOfFuel
         end.

Definition panic {L A} (msg : string) : M L A := λ _ _, Panic msg.

(** Read the writer structure, change it, call the system. *)
Definition get {L} : M L L := λ l w, Done l l w.
Definition modify {L} (f : L → L) : M L unit := λ l w, Done tt (f l) w.
Definition sys {L A} (f : World → A * World) : M L A :=
  λ l w, Done (fst (f w)) l (snd (f w)).

Declare Scope go_scope.
Delimit Scope go_scope with go.
Notation "x <~ m ;; k" := (bind m (λ x, k))
  (at level 100, m at next level, right associativity) : go_scope.
Notation "m ;;; k" := (bind m (λ _, k))
  (at level 100, right associativity) : go_scope.

(** An index expression [s[i]] on a slice of integers. *)
Definition index {L} (s : list Z) (i : Z) : M L Z :=
  match (if 0 <=? i then s !! Z.to_nat i else None) with
  | Some a => ret a
  | None => panic "index out of range"
  end.

(** A slice expression that may panic. *)
Definition slice {L A} (o : option A) : M L A :=
  match o with
  | Some a => ret a
  | None => panic "slice bounds out of range"
  end.

(** Run a computation on a writer of its own. *)
Definition on {L A} (l : L) (m : M L A) : M unit (A * L) :=
  λ _ w, match m l w with
         | Done a l' w' => Done (a, l') tt w'
         | Panic msg => Panic msg
         | OutOfFuel => OutOfFuel
         end.

Local Open Scope go_scope.

(** * src/logWriter.go and src/os.go *)

Module LogWriterGo.

Definition defaultMaxBytes : Z := 100 * 2 ^ 20.
Definition defaultFileMode : Z := 420.   (* 0644 *)

Record Config := mkConfig {
  BaseNamePrefix : string;
  BufferBytes : Z;
  Directory : string;
  FileMode : Z;
  MaxBytes : Z;
  TimeFormatter : option (Z → string);
  TimeFormat : string
}.

Record LogWriter := mkLogWriter {
  buf : bytes;
  baseNamePrefix : string;
  directory : string;
  filePath : string;
  timeFormat : string;
  maxBytes : Z;
  writtenBytes : Z;
  timeFormatter : option (Z → string);
  filePointer : file;
  flushThreshold : Z;
  indexOfFinalNewline : Z;
  fileMode : Z
}.

Definition set_buf (b : bytes) (lw : LogWriter) : LogWriter :=
  mkLogWriter b (baseNamePrefix lw) (directory lw) (filePath lw) (timeFormat lw)
    (maxBytes lw) (writtenBytes lw) (timeFormatter lw) (filePointer lw)
    (flushThreshold lw) (indexOfFinalNewline lw) (fileMode lw).
Definition set_writtenBytes (n : Z) (lw : LogWriter) : LogWriter :=
  mkLogWriter (buf lw) (baseNamePrefix lw) (directory lw) (filePath lw)
    (timeFormat lw) (maxBytes lw) n (timeFormatter lw) (filePointer lw)
    (flushThreshold lw) (indexOfFinalNewline lw) (fileMode lw).
Definition set_filePointer (fp : file) (lw : LogWriter) : LogWriter :=
  mkLogWriter (buf lw) (baseNamePrefix lw) (directory lw) (filePath lw)
    (timeFormat lw) (maxBytes lw) (writtenBytes lw) (timeFormatter lw) fp
    (flushThreshold lw) (indexOfFinalNewline lw) (fileMode lw).
Definition set_indexOfFinalNewline (i : Z) (lw : LogWriter) : LogWriter :=
  mkLogWriter (buf lw) (baseNamePrefix lw) (directory lw) (filePath lw)
    (timeFormat lw) (maxBytes lw) (writtenBytes lw) (timeFormatter lw)
    (filePointer lw) (flushThreshold lw) i (fileMode lw).

(** ** src/os.go *)

(** The type switch of the three wrappers: [nil] stays [nil], an error that
    is an [os.PathError] already is returned as it is, any other is wrapped. *)
Definition asPathError (op pathname : string) (err : option error) : option error :=
  match err with
  | None => None
  | Some (PathError _ _ _) => err
  | Some e => Some (PathError op pathname e)
  end.

Definition asLinkError (op oldPath newPath : string) (err : option error)
  : option error :=
  match err with
  | None => None
  | Some (LinkError _ _ _ _) => err
  | Some e => Some (LinkError op oldPath newPath e)
  end.

Definition fileClose (pathname : string) (fp : file) : M LogWriter (option error) :=
  err <~ sys (os_File_Close fp) ;;
  ret (asPathError "close" pathname err).

Definition fileOpen (pathname : string) (trunc : bool)
  : M LogWriter (file * option error) :=
  r <~ sys (os_OpenFile pathname trunc) ;;
  match snd r with
  | None => ret (fst r, None)
  | Some _ => ret (None, asPathError "open" pathname (snd r))
  end.

Definition fileRename (oldPath newPath : string) : M LogWriter (option error) :=
  err <~ sys (os_Rename oldPath newPath) ;;
  ret (asLinkError "rename" oldPath newPath err).

(** ** src/logWriter.go *)

(** [fileFlags] has [O_TRUNC]. *)
Definition createLogFile : M LogWriter (option error) :=
  rot <~ get ;;
  r <~ fileOpen (filePath rot) true ;;
  modify (set_filePointer (fst r)) ;;;
  ret (snd r).

Definition closeLogFile : M LogWriter (option error) :=
  rot <~ get ;;
  err <~ fileClose (filePath rot) (filePointer rot) ;;
  modify (set_filePointer None) ;;;
  modify (set_writtenBytes 0) ;;;
  ret err.

Definition renameLogFile : M LogWriter (option error) :=
  rot <~ get ;;
  t <~ sys time_Now ;;
  match timeFormatter rot with
  | None => panic "invalid memory address or nil pointer dereference"
  | Some format =>
      let timeStamp := format t in
      let fileNameStamp := (baseNamePrefix rot ++ "." ++ timeStamp ++ ".log")%string in
      let filePathStamp := filepath_Join (directory rot) fileNameStamp in
      fileRename (filePath rot) filePathStamp
  end.

Definition rotate : M LogWriter (option error) :=
  err <~ closeLogFile ;;
  match err with
  | Some _ => ret err
  | None =>
      err <~ renameLogFile ;;
      match err with
      | Some _ => ret err
      | None => createLogFile
      end
  end.

Definition flush (olen dlen index : Z) : M LogWriter (Z * option error) :=
  lw <~ get ;;
  let count := int64 index in
  let potentialSize := int64 (writtenBytes lw + count) in
  err <~ (if (potentialSize >? maxBytes lw) || (count >? maxBytes lw)
          then rotate else ret None) ;;
  match err with
  | Some _ => ret (0, err)
  | None =>
      lw <~ get ;;
      chunk <~ slice (slice_to (buf lw) index) ;;
      r <~ sys (os_File_Write (filePointer lw) chunk) ;;
      r <~ (if (fst r <? 0) || (fst r >? index) then
              ret (0, match snd r with
                      | None => Some (ErrInvalidWrite (fst r))
                      | Some e => Some e
                      end)
            else if fst r >? 0 then
              lw <~ get ;;
              rest <~ slice (slice_from (buf lw) (fst r)) ;;
              modify (set_writtenBytes (int64 (writtenBytes lw + int64 (fst r)))) ;;;
              modify (set_buf rest) ;;;
              ret r
            else ret r) ;;
      let nw := fst r in
      match snd r with
      | None =>
          modify (λ lw, set_indexOfFinalNewline (indexOfFinalNewline lw - nw) lw) ;;;
          ret (dlen, None)
      | Some e =>
          let nb := nw - olen in
          nb <~ (if nb <? 0 then
                   lw <~ get ;;
                   kept <~ slice (slice_to (buf lw) (- nb)) ;;
                   modify (set_buf kept) ;;;
                   ret 0
                 else
                   modify (set_buf []) ;;;
                   ret nb) ;;
          modify (λ lw, set_indexOfFinalNewline (LastIndexByte (buf lw) LF) lw) ;;;
          ret (nb, Some e)
      end
  end.

Definition Write (p : bytes) : M LogWriter (Z * option error) :=
  lw <~ get ;;
  if flushThreshold lw =? 0 then
    let total := int64 (writtenBytes lw + int64 (len p)) in
    err <~ (if total >? maxBytes lw then rotate else ret None) ;;
    match err with
    | Some _ => ret (0, err)
    | None =>
        lw <~ get ;;
        r <~ sys (os_File_Write (filePointer lw) p) ;;
        modify (set_writtenBytes (int64 (writtenBytes lw + int64 (fst r)))) ;;;
        ret r
    end
  else
    let origBufLen := len (buf lw) in
    modify (set_buf (buf lw ++ p)) ;;;
    (let index := LastIndexByte p LF in
     if 0 <=? index
     then modify (set_indexOfFinalNewline (origBufLen + index))
     else ret tt) ;;;
    lw <~ get ;;
    if (len (buf lw) <=? flushThreshold lw) || (indexOfFinalNewline lw <? 0)
    then ret (len p, None)
    else flush origBufLen (len p) (indexOfFinalNewline lw + 1).

Definition Close : M LogWriter (option error) :=
  lw <~ get ;;
  writeErr <~ (if 0 <? len (buf lw) then
                 r <~ sys (os_File_Write (filePointer lw) (buf lw)) ;;
                 modify (set_buf []) ;;;
                 ret (snd r)
               else ret None) ;;
  modify (set_indexOfFinalNewline (-1)) ;;;
  closeErr <~ closeLogFile ;;
  match writeErr with
  | Some _ => ret writeErr
  | None => ret closeErr
  end.

Definition makeDateTimeFormatter (w : World) (format : string) : Z → string :=
  λ t, time_Format w format t.

Definition nanoDateTimeFormatter (t : Z) : string := FormatInt t.

Definition NewLogWriter (cfg : Config) : M unit (LogWriter + error) :=
  if BufferBytes cfg <? 0 then ret (inr (ErrConfig (BufferBytes cfg))) else
  w <~ (λ l w, Done w l w) ;;
  match (if String.eqb (Directory cfg) "" then cwd w else inl (Directory cfg)) with
  | inr e => ret (inr (ErrGetwd e))
  | inl dir =>
      let prefix := if String.eqb (BaseNamePrefix cfg) "" then progname w
                    else BaseNamePrefix cfg in
      let mode := if FileMode cfg =? 0 then defaultFileMode else FileMode cfg in
      let maxb := if MaxBytes cfg <? 1 then defaultMaxBytes else MaxBytes cfg in
      let formatter :=
        match TimeFormatter cfg with
        | Some f => f
        | None => if String.eqb (TimeFormat cfg) "" then nanoDateTimeFormatter
                  else makeDateTimeFormatter w (TimeFormat cfg)
        end in
      let lw := mkLogWriter [] "" "" (filepath_Join dir (prefix ++ ".log")) ""
                  0 0 None None 0 0 mode in
      r <~ on lw createLogFile ;;
      match fst r with
      | Some e => ret (inr e)
      | None =>
          let lw := snd r in
          let lw := mkLogWriter (buf lw) prefix dir (filePath lw) (timeFormat lw)
                      maxb (writtenBytes lw) (Some formatter) (filePointer lw)
                      (if 0 <? BufferBytes cfg then BufferBytes cfg else 0)
                      (-1) (fileMode lw) in
          ret (inl lw)
      end
  end.

End LogWriterGo.

(** * src/file.go *)

Module FileGo.

Definition defaultBufferSizeMax : Z := 128.
Definition defaultMaxBytes : Z := 100 * 2 ^ 20.
Definition defaultFileMode : Z := 420.   (* 0644 *)

Definition Megabytes (megabytes : Z) : Z := int64 (int64 megabytes * 2 ^ 20).

Record Config := mkConfig {
  BaseNamePrefix : string;
  BufferSizeMax : Z;
  Directory : string;
  FileMode : Z;
  MaxBytes : Z;
  TimeFormatter : option (Z → string);
  TimeFormat : string
}.

(** The field [writeTimes] is never read nor written and is left out. *)
Record LogWriter := mkLogWriter {
  cfg : Config;
  buf : bytes;
  extents : list Z;
  timeOfFirstWrite : string;
  filePath : string;
  fileSizeNow : Z;
  filePointer : file;
  waitingForNewline : bool
}.

Definition set_buf (b : bytes) (lw : LogWriter) : LogWriter :=
  mkLogWriter (cfg lw) b (extents lw) (timeOfFirstWrite lw) (filePath lw)
    (fileSizeNow lw) (filePointer lw) (waitingForNewline lw).
Definition set_extents (e : list Z) (lw : LogWriter) : LogWriter :=
  mkLogWriter (cfg lw) (buf lw) e (timeOfFirstWrite lw) (filePath lw)
    (fileSizeNow lw) (filePointer lw) (waitingForNewline lw).
Definition set_timeOfFirstWrite (t : string) (lw : LogWriter) : LogWriter :=
  mkLogWriter (cfg lw) (buf lw) (extents lw) t (filePath lw)
    (fileSizeNow lw) (filePointer lw) (waitingForNewline lw).
Definition set_fileSizeNow (n : Z) (lw : LogWriter) : LogWriter :=
  mkLogWriter (cfg lw) (buf lw) (extents lw) (timeOfFirstWrite lw) (filePath lw)
    n (filePointer lw) (waitingForNewline lw).
Definition set_filePointer (fp : file) (lw : LogWriter) : LogWriter :=
  mkLogWriter (cfg lw) (buf lw) (extents lw) (timeOfFirstWrite lw) (filePath lw)
    (fileSizeNow lw) fp (waitingForNewline lw).
Definition set_waitingForNewline (b : bool) (lw : LogWriter) : LogWriter :=
  mkLogWriter (cfg lw) (buf lw) (extents lw) (timeOfFirstWrite lw) (filePath lw)
    (fileSizeNow lw) (filePointer lw) b.

(** [lw.cfg.TimeFormatter(time.Now())]. *)
Definition formatNow : M LogWriter string :=
  lw <~ get ;;
  t <~ sys time_Now ;;
  match TimeFormatter (cfg lw) with
  | None => panic "invalid memory address or nil pointer dereference"
  | Some format => ret (format t)
  end.

Definition closeLog : M LogWriter (option error) :=
  lw <~ get ;;
  err <~ sys (os_File_Close (filePointer lw)) ;;
  modify (set_filePointer None) ;;;
  modify (set_fileSizeNow 0) ;;;
  ret err.

(** The file is opened without [O_TRUNC]. *)
Definition openLog : M LogWriter (option error) :=
  lw <~ get ;;
  r <~ sys (os_OpenFile (filePath lw) false) ;;
  modify (set_filePointer (fst r)) ;;;
  match snd r with
  | Some _ => ret (snd r)
  | None =>
      st <~ sys (os_File_Stat (fst r)) ;;
      match snd st with
      | Some _ =>
          sys (os_File_Close (fst r)) ;;;
          modify (set_filePointer None) ;;;
          ret (snd st)
      | None =>
          modify (set_fileSizeNow (fst st)) ;;;
          ret None
      end
  end.

Definition renameLog : M LogWriter (option error) :=
  timeStamp <~ formatNow ;;
  modify (set_timeOfFirstWrite "") ;;;
  lw <~ get ;;
  let fileNameStamp :=
    (BaseNamePrefix (cfg lw) ++ "." ++ timeStamp ++ ".log")%string in
  let filePathStamp := filepath_Join (Directory (cfg lw)) fileNameStamp in
  sys (os_Rename (filePath lw) filePathStamp).

Definition rotateLog : M LogWriter (option error) :=
  err <~ closeLog ;;
  match err with
  | Some _ => ret err
  | None =>
      err <~ renameLog ;;
      match err with
      | Some _ => ret err
      | None => openLog
      end
  end.

Definition writeBytes (p : bytes) : M LogWriter (Z * option error) :=
  lw <~ get ;;
  r <~ sys (os_File_Write (filePointer lw) p) ;;
  let nw := fst r in
  if (nw <? 0) || (nw >? len p) then
    match snd r with
    | Some _ => ret (nw, snd r)
    | None => ret (nw, Some (ErrInvalidWrite nw))
    end
  else
    let err := if (nw <? len p) && bool_decide (snd r = None)
               then Some ErrShortWrite else snd r in
    modify (set_fileSizeNow (int64 (fileSizeNow lw + int64 nw))) ;;;
    ret (nw, err).

(** The loop of [writeExtents] that finds the extents written in full and
    shortens the one written in part; [todo] is
    [extentCountMax - extentCount]. *)
Fixpoint writtenExtents (todo : nat) (nw extentCount : Z)
  : M LogWriter (Z * Z) :=
  match todo with
  | O => ret (nw, extentCount)
  | S todo =>
      if 0 <? nw then
        lw <~ get ;;
        e <~ index (extents lw) extentCount ;;
        let nw := nw - e in
        if nw <? 0 then
          modify (set_extents (<[Z.to_nat extentCount := e + nw]> (extents lw))) ;;;
          ret (nw, extentCount)
        else writtenExtents todo nw (extentCount + 1)
      else ret (nw, extentCount)
  end.

Definition writeExtents (extentCount byteCount : Z) : M LogWriter (Z * option error) :=
  lw <~ get ;;
  chunk <~ slice (slice_to (buf lw) byteCount) ;;
  r <~ sys (os_File_Write (filePointer lw) chunk) ;;
  let nw := fst r in
  if (nw <? 0) || (nw >? byteCount) then
    match snd r with
    | Some _ => ret (0, snd r)
    | None => ret (0, Some (ErrInvalidWrite nw))
    end
  else
    let err := if (nw <? byteCount) && bool_decide (snd r = None)
               then Some ErrShortWrite else snd r in
    modify (set_fileSizeNow (int64 (fileSizeNow lw + int64 nw))) ;;;
    rest <~ slice (slice_from (buf lw) nw) ;;
    modify (set_buf rest) ;;;
    c <~ match err with
         | Some _ => writtenExtents (Z.to_nat extentCount) nw 0
         | None => ret (nw, extentCount)
         end ;;
    lw <~ get ;;
    (if (0 <=? snd c) && (snd c <=? len (extents lw))
     then modify (set_extents (drop (Z.to_nat (snd c)) (extents lw)))
     else panic "slice bounds out of range") ;;;
    ret (fst c, err).

(** The loop of [flushAsMuchAsPossible] over the first [flushExtentCountMax]
    extents: the count of extents that fit, and their bytes. *)
Fixpoint fittingExtents (es : list Z) (bytesRemaining flushByteCount : Z)
    (flushExtentCount : Z) : Z * Z :=
  match es with
  | [] => (flushExtentCount, flushByteCount)
  | e :: es =>
      let fbc := int64 (flushByteCount + int64 e) in
      if fbc >? bytesRemaining then (flushExtentCount, flushByteCount)
      else fittingExtents es bytesRemaining fbc (flushExtentCount + 1)
  end.

Definition flushAsMuchAsPossible : M LogWriter (option error) :=
  lw <~ get ;;
  let flushExtentCountMax :=
    if waitingForNewline lw then len (extents lw) - 1 else len (extents lw) in
  if flushExtentCountMax =? 0 then ret None else
  let bytesRemaining := int64 (MaxBytes (cfg lw) - fileSizeNow lw) in
  let fit := fittingExtents (take (Z.to_nat flushExtentCountMax) (extents lw))
               bytesRemaining 0 0 in
  if fst fit =? 0 then ret None else
  r <~ writeExtents (fst fit) (snd fit) ;;
  ret (snd r).

(** One turn of the loop of [flushCompletedExtents]: [inl err] leaves the
    function with [err], [inr tt] goes round again. *)
Definition flushCompletedExtents_turn : M LogWriter (option error + unit) :=
  lw <~ get ;;
  if len (extents lw) <=? 0 then ret (inl None) else
  if (len (extents lw) =? 1) && waitingForNewline lw then ret (inl None) else
  e0 <~ index (extents lw) 0 ;;
  if int64 (int64 e0 + fileSizeNow lw) >? MaxBytes (cfg lw) then
    err <~ (if 0 <? fileSizeNow lw then rotateLog else ret None) ;;
    match err with
    | Some _ => ret (inl err)
    | None =>
        lw <~ get ;;
        e0 <~ index (extents lw) 0 ;;
        if int64 e0 >? MaxBytes (cfg lw) then
          r <~ writeExtents 1 e0 ;;
          match snd r with
          | Some _ => ret (inl (snd r))
          | None => ret (inr tt)
          end
        else
          err <~ flushAsMuchAsPossible ;;
          match err with
          | Some _ => ret (inl err)
          | None => ret (inr tt)
          end
    end
  else
    err <~ flushAsMuchAsPossible ;;
    match err with
    | Some _ => ret (inl err)
    | None => ret (inr tt)
    end.

Fixpoint flushCompletedExtents_loop (fuel : nat) : M LogWriter (option error) :=
  match fuel with
  | O => λ _ _, OutOfFuel
  | S fuel =>
      r <~ flushCompletedExtents_turn ;;
      match r with
      | inl err => ret err
      | inr _ => flushCompletedExtents_loop fuel
      end
  end.

(** Every turn that goes round again has written an extent, so the loop
    makes no more turns than there are extents, and one to leave. *)
Definition flushCompletedExtents : M LogWriter (option error) :=
  lw <~ get ;;
  flushCompletedExtents_loop (S (length (extents lw))).

Definition Write (p : bytes) : M LogWriter (Z * option error) :=
  lw <~ get ;;
  (if String.eqb (timeOfFirstWrite lw) "" then
     t <~ formatNow ;;
     modify (set_timeOfFirstWrite t)
   else ret tt) ;;;
  lw <~ get ;;
  if 0 <? BufferSizeMax (cfg lw) then
    err <~ (if (0 <? len (buf lw)) &&
               (len (buf lw) + len p >? BufferSizeMax (cfg lw)) &&
               ((1 <? len (extents lw)) || negb (waitingForNewline lw))
            then flushCompletedExtents else ret None) ;;
    match err with
    | Some _ => ret (0, err)
    | None =>
        lw <~ get ;;
        (if waitingForNewline lw then
           e <~ index (extents lw) (len (extents lw) - 1) ;;
           modify (set_extents
                     (<[Z.to_nat (len (extents lw) - 1) := e + len p]> (extents lw)))
         else modify (set_extents (extents lw ++ [len p]))) ;;;
        modify (λ lw, set_buf (buf lw ++ p) lw) ;;;
        match last p with
        | None => panic "index out of range [-1]"
        | Some b => modify (set_waitingForNewline (negb (Byte.eqb b LF)))
        end ;;;
        ret (len p, None)
    end
  else
    err <~ (if (0 <? fileSizeNow lw) &&
               (int64 (fileSizeNow lw + int64 (len p)) >? MaxBytes (cfg lw))
            then rotateLog else ret None) ;;
    match err with
    | Some _ => ret (0, err)
    | None => writeBytes p
    end.

Definition Close : M LogWriter (option error) :=
  lw <~ get ;;
  if 0 <? len (buf lw) then
    (if waitingForNewline lw then
       modify (set_buf (buf lw ++ [LF])) ;;;
       e <~ index (extents lw) (len (extents lw) - 1) ;;
       modify (set_extents
                 (<[Z.to_nat (len (extents lw) - 1) := e + 1]> (extents lw))) ;;;
       modify (set_waitingForNewline false)
     else ret tt) ;;;
    err <~ flushCompletedExtents ;;
    match err with
    | Some _ => closeLog ;;; ret err
    | None => closeLog
    end
  else closeLog.

Definition makeDateTimeFormatter (w : World) (format : string) : Z → string :=
  λ t, time_Format w format t.

Definition nanoDateTimeFormatter (t : Z) : string := FormatInt t.

Definition NewLogWriter (cfg : option Config) : M unit (LogWriter + error) :=
  let cfg := default (mkConfig "" 0 "" 0 0 None "") cfg in
  match (if BufferSizeMax cfg =? -1 then inl 0
         else if BufferSizeMax cfg =? 0 then inl defaultBufferSizeMax
         else if BufferSizeMax cfg <? 0 then inr (ErrConfig (BufferSizeMax cfg))
         else inl (BufferSizeMax cfg)) with
  | inr e => ret (inr e)
  | inl bufferSizeMax =>
      w <~ (λ l w, Done w l w) ;;
      match (if String.eqb (Directory cfg) "" then cwd w else inl (Directory cfg)) with
      | inr e => ret (inr (ErrGetwd e))
      | inl dir =>
          let prefix := if String.eqb (BaseNamePrefix cfg) "" then progname w
                        else BaseNamePrefix cfg in
          let mode := if FileMode cfg =? 0 then defaultFileMode else FileMode cfg in
          let maxb := if MaxBytes cfg =? 0 then defaultMaxBytes else MaxBytes cfg in
          let formatter :=
            match TimeFormatter cfg with
            | Some f => f
            | None => if String.eqb (TimeFormat cfg) "" then nanoDateTimeFormatter
                      else makeDateTimeFormatter w (TimeFormat cfg)
            end in
          let cfg := mkConfig prefix bufferSizeMax dir mode maxb (Some formatter)
                       (TimeFormat cfg) in
          let lw := mkLogWriter cfg [] [] "" (filepath_Join dir (prefix ++ ".log"))
                      0 None false in
          r <~ on lw openLog ;;
          match fst r with
          | Some e => ret (inr e)
          | None => ret (inl (snd r))
          end
      end
  end.

End FileGo.

(** * The vocabulary of the statements *)

(** The system reports every short write with an error, as [os.File.Write]
    promises: it never answers a bare count. *)
Definition reports_errors (s : list response) : Prop :=
  Forall (λ r, ∀ n, r ≠ Reply n None) s.

(** The count a caller of [Write] keeps: a count outside [0..requested] is
    taken as no byte written. *)
Definition validated (requested n : Z) : Z :=
  if (n <? 0) || (n >? requested) then 0 else n.



(** The chunks handed to the file primitive in a run of calls. *)
Fixpoint written_chunks (t : list event) : list bytes :=
  match t with
  | [] => []
  | EvWrite _ p _ _ :: t => p :: written_chunks t
  | _ :: t => written_chunks t
  end.

Definition ends_with_LF (p : bytes) : bool :=
  match last p with
  | Some b => Byte.eqb b LF
  | None => false
  end.

(** The calls so far end with a whole rotation and one write after it, of a
    chunk longer than [max] of which [size] bytes were taken; with
    [terminated] the chunk has to end in a line terminator. *)
Definition oversized_alone (terminated : bool) (max size : Z) (t : list event)
  : bool :=
  match rev t with
  | EvWrite (Some path) p n _ :: EvOpen path' _ None
      :: EvRename _ _ None :: EvClose _ None :: _ =>
      String.eqb path path' && (max <? len p) && (size =? n)
      && (if terminated then ends_with_LF p else true)
  | _ => false
  end.

(** The file primitive reports counts between 0 and the length it was
    asked to write, as [os.File.Write] does. *)
Definition honest_counts (t : list event) : Prop :=
  Forall (λ e, match e with
               | EvWrite _ p n _ => 0 ≤ n ≤ len p
               | _ => True
               end) t.

(** The calls of a [Write] that stopped in a rotation: some calls, and no
    write among them. *)
Definition rotation_failed (evs : list event) : Prop :=
  evs ≠ [] ∧ written_chunks evs = [].

Module LogWriterTerms.
Import LogWriterGo.

(** The name a rotation at time [t] gives to the file it puts aside. *)
Definition stampedPath (rot : LogWriter) (format : Z → string) (t : Z) : string :=
  filepath_Join (directory rot)
    (baseNamePrefix rot ++ "." ++ format t ++ ".log")%string.

(** The calls of one [rotate] and its result: close, then rename, then
    create, and nothing after the first that fails. *)
Definition rotation_steps (rot : LogWriter) (stamp : string)
    (err : option error) (evs : list event) : Prop :=
  match evs with
  | [EvClose fp (Some e)] =>
      fp = filePointer rot ∧ err = asPathError "close" (filePath rot) (Some e)
  | [EvClose fp None; EvRename old new (Some e)] =>
      fp = filePointer rot ∧ old = filePath rot ∧ new = stamp ∧
      err = asLinkError "rename" old new (Some e)
  | [EvClose fp None; EvRename old new None; EvOpen path true e] =>
      fp = filePointer rot ∧ old = filePath rot ∧ new = stamp ∧
      path = filePath rot ∧ err = asPathError "open" path e
  | _ => False
  end.

(** The books [flush] keeps once the file primitive has answered the count
    [n] and the error [err] to the write of the first [index] bytes of the
    buffer: the result of [flush] and the writer it leaves. *)
Definition flushed (olen dlen index : Z) (lw : LogWriter) (n : Z)
    (err : option error) : (Z * option error) * LogWriter :=
  let nw := validated index n in
  let err := if (n <? 0) || (n >? index)
             then Some (default (ErrInvalidWrite n) err) else err in
  let lw := if 0 <? nw
            then set_buf (drop (Z.to_nat nw) (buf lw))
                   (set_writtenBytes (int64 (writtenBytes lw + int64 nw)) lw)
            else lw in
  match err with
  | None =>
      ((dlen, None), set_indexOfFinalNewline (indexOfFinalNewline lw - nw) lw)
  | Some e =>
      let kept := if nw - olen <? 0
                  then take (Z.to_nat (olen - nw)) (buf lw) else [] in
      ((if nw - olen <? 0 then 0 else nw - olen, Some e),
       set_indexOfFinalNewline (LastIndexByte kept LF) (set_buf kept lw))
  end.

(** The write of [flush], after the rotation if there was one. *)
Definition write_out (olen dlen index : Z) : M LogWriter (Z * option error) :=
  λ lw w,
    let r := os_File_Write (filePointer lw) (take (Z.to_nat index) (buf lw)) w in
    Done (flushed olen dlen index lw r.1.1 r.1.2).1
      (flushed olen dlen index lw r.1.1 r.1.2).2 r.2.

(** The writer once [Write] has put [p] at the end of the buffer and noted
    the last terminator of [p]. *)
Definition appended (p : bytes) (lw : LogWriter) : LogWriter :=
  set_indexOfFinalNewline
    (if 0 <=? LastIndexByte p LF then len (buf lw) + LastIndexByte p LF
     else indexOfFinalNewline lw)
    (set_buf (buf lw ++ p) lw).

(** The error of a [Close] of a writer that is closed already. *)
Definition closedError (lw : LogWriter) : error :=
  PathError "close" (filePath lw) ErrInvalid.

(** The flush of [count] bytes does not fit the active file. *)
Definition needs_rotation (lw : LogWriter) (count : Z) : Prop :=
  writtenBytes lw + count > maxBytes lw ∨ count > maxBytes lw.

(** What [flush] and the [Write] of a writer that does not buffer have in
    common: rotate if [need] be, then hand [chunk] to the file and keep the
    books with [books]. *)
Definition rotating (need : bool) (chunk : bytes)
    (books : LogWriter → Z → option error → (Z * option error) * LogWriter)
  : M LogWriter (Z * option error) :=
  bind (if need then rotate else ret None)
    (λ err, match err with
            | Some _ => ret (0, err)
            | None => λ lw w,
                let r := os_File_Write (filePointer lw) chunk w in
                Done (books lw r.1.1 r.1.2).1 (books lw r.1.1 r.1.2).2 r.2
            end).

(** The books of a [Write] that does not buffer. *)
Definition counted (lw : LogWriter) (n : Z) (err : option error)
  : (Z * option error) * LogWriter :=
  ((n, err), set_writtenBytes (int64 (writtenBytes lw + int64 n)) lw).

(** The states a writer is built to keep. *)
Record wf (lw : LogWriter) : Prop := mk_wf {
  wf_formatter : is_Some (timeFormatter lw);
  wf_index : indexOfFinalNewline lw = LastIndexByte (buf lw) LF;
  wf_maxBytes : 1 ≤ maxBytes lw ≤ 2 ^ 62;
  wf_written : 0 ≤ writtenBytes lw ≤ 2 ^ 62;
  wf_threshold : 0 ≤ flushThreshold lw;
  wf_unbuffered : flushThreshold lw = 0 → buf lw = []
}.

(** The tracked size of the active file is within the limit, or the file
    holds one oversized chunk written alone after a rotation: a flushed
    extent, which ends in a terminator, of a buffering writer, or the slice
    of one [Write] of a writer that does not buffer. *)
Definition size_bounded (lw : LogWriter) (w : World) : Prop :=
  writtenBytes lw ≤ maxBytes lw ∨
  oversized_alone (negb (flushThreshold lw =? 0))
    (maxBytes lw) (writtenBytes lw) (trace w) = true.


(** What no call of [Write] or [Close] undoes, whatever the system
    answers: a formatter is there, the recorded index is the index of the
    last terminator of the buffer, and a writer that does not buffer has an
    empty buffer. *)
Definition consistent (lw : LogWriter) : Prop :=
  is_Some (timeFormatter lw) ∧
  indexOfFinalNewline lw = LastIndexByte (buf lw) LF ∧
  (flushThreshold lw = 0 → buf lw = []).



(** A run of [Write] calls, one after the other. *)
Fixpoint writes (ps : list bytes) : M LogWriter (list (Z * option error)) :=
  match ps with
  | [] => ret []
  | p :: ps =>
      r <~ Write p ;;
      rs <~ writes ps ;;
      ret (r :: rs)
  end.

(** The life of a writer: made, written to, closed. *)
Definition session (cfg : Config) (ps : list bytes)
  : M unit ((list (Z * option error) * option error) * LogWriter + error) :=
  r <~ NewLogWriter cfg ;;
  match r with
  | inr e => ret (inr e)
  | inl lw =>
      x <~ on lw (rs <~ writes ps ;; e <~ Close ;; ret (rs, e)) ;;
      ret (inl x)
  end.

(** The limit a configuration sets. *)
Definition effectiveMaxBytes (cfg : Config) : Z :=
  if MaxBytes cfg <? 1 then defaultMaxBytes else MaxBytes cfg.

(** The states a writer made for [cfg] in the system [w0] comes to, by
    [Write] and [Close]; the buffer with the slice of a [Write] is short
    enough to be held in memory, and the counts the file primitive reports
    are honest. *)
Inductive reachable (cfg : Config) (w0 : World) : LogWriter → World → Prop :=
| reach_New lw w :
    NewLogWriter cfg tt w0 = Done (inl lw) tt w →
    reachable cfg w0 lw w
| reach_Write lw w p r lw' w' :
    reachable cfg w0 lw w →
    len (buf lw) + len p < 2 ^ 62 →
    Write p lw w = Done r lw' w' →
    (∀ evs, trace w' = trace w ++ evs → honest_counts evs) →
    reachable cfg w0 lw' w'
| reach_Close lw w e lw' w' :
    reachable cfg w0 lw w →
    Close lw w = Done e lw' w' →
    reachable cfg w0 lw' w'.

(** The bytes of the slice [p] of a [Write] that returned [r] which the
    file did not take are in the buffer, at its end. *)
Definition retains_undelivered (p : bytes) (r : Z * option error)
    (lw' : LogWriter) : Prop :=
  ∃ before, buf lw' = before ++ drop (Z.to_nat r.1) p.



End LogWriterTerms.

Module FileTerms.
Import FileGo.

(** The name a rotation at time [t] gives to the file it puts aside. *)
Definition stampedPath (lw : LogWriter) (format : Z → string) (t : Z) : string :=
  filepath_Join (Directory (cfg lw))
    (BaseNamePrefix (cfg lw) ++ "." ++ format t ++ ".log")%string.

(** The calls of one [rotateLog] and its result: close, then rename, then
    open -- the open is a call to open and one to read the size, and a close
    when the size cannot be read -- and nothing after the first that fails. *)
Definition rotation_steps (lw : LogWriter) (stamp : string)
    (err : option error) (evs : list event) : Prop :=
  match evs with
  | [EvClose fp (Some e)] =>
      fp = filePointer lw ∧ err = Some e
  | [EvClose fp None; EvRename old new (Some e)] =>
      fp = filePointer lw ∧ old = filePath lw ∧ new = stamp ∧ err = Some e
  | [EvClose fp None; EvRename old new None; EvOpen path false (Some e)] =>
      fp = filePointer lw ∧ old = filePath lw ∧ new = stamp ∧
      path = filePath lw ∧ err = Some e
  | [EvClose fp None; EvRename old new None; EvOpen path false None;
     EvStat path' None] =>
      fp = filePointer lw ∧ old = filePath lw ∧ new = stamp ∧
      path = filePath lw ∧ path' = path ∧ err = None
  | [EvClose fp None; EvRename old new None; EvOpen path false None;
     EvStat path' (Some e); EvClose fp' _] =>
      fp = filePointer lw ∧ old = filePath lw ∧ new = stamp ∧
      path = filePath lw ∧ path' = path ∧ fp' = Some path ∧ err = Some e
  | _ => False
  end.

(** The bytes of a list of extents. *)
Definition total (es : list Z) : Z := foldr Z.add 0 es.

(** The states a writer is built to keep, with the file it writes to: the
    extents cut the buffer, and the active file is open and exists. *)
Record sound (lw : LogWriter) (w : World) : Prop := mk_sound {
  sound_formatter : is_Some (TimeFormatter (cfg lw));
  sound_path : filePath lw = filepath_Join (Directory (cfg lw))
                               (BaseNamePrefix (cfg lw) ++ ".log")%string;
  sound_open : filePointer lw = Some (filePath lw);
  sound_exists : is_Some (files w !! filePath lw);
  sound_extents : Forall (λ e, 0 < e) (extents lw);
  sound_total : total (extents lw) = len (buf lw);
  sound_size : 0 ≤ fileSizeNow lw ≤ 2 ^ 62;
  sound_max : - 2 ^ 62 ≤ MaxBytes (cfg lw) ≤ 2 ^ 62;
  sound_mem : len (buf lw) < 2 ^ 62
}.

(** Every write of a run of calls is a write of a whole chunk to [path]. *)
Definition whole_writes (path : string) (t : list event) : Prop :=
  Forall (λ e, match e with
               | EvWrite fp p n err => fp = Some path ∧ n = len p ∧ err = None
               | _ => True
               end) t.




End FileTerms.

(** * Small writers and systems, for instances of the statements *)

Module Examples.

Definition ascii (s : string) : bytes := String.list_byte_of_string s.

Definition logPath : string := "/var/log/app.log".

(** A system at time [t] that holds the files [fs], answers the calls to
    come with [answers] and has seen the calls [calls]. *)
Definition world (t : Z) (fs : list (string * bytes))
    (answers : list response) (calls : list event) : World :=
  mkWorld (list_to_map fs) t (inl "/var/log"%string) "app"
    (λ _ _, "stamp"%string) answers calls.

(** A system with no file yet. *)
Definition bare (answers : list response) : World := world 1000 [] answers [].

(** The system once the active file has been created. *)
Definition opened (answers : list response) : World :=
  world 1000 [(logPath, [])] answers [EvOpen logPath true None].

Module OfLogWriter.
Import LogWriterGo.

Definition config (bufferBytes maxBytes : Z) : Config :=
  mkConfig "" bufferBytes "" 0 maxBytes None "".

(** The writer [NewLogWriter] makes for [config threshold limit], with
    [pending] in its buffer and [written] bytes in its file. *)
Definition writer (threshold limit : Z) (pending : bytes) (written : Z)
  : LogWriter :=
  mkLogWriter pending "app" "/var/log" logPath "" limit written
    (Some nanoDateTimeFormatter) (Some logPath) threshold
    (LastIndexByte pending LF) 420.

End OfLogWriter.

Module OfFile.
Import FileGo.

Definition resolved (bufferSizeMax maxBytes : Z) : Config :=
  mkConfig "app" bufferSizeMax "/var/log" 420 maxBytes
    (Some nanoDateTimeFormatter) "".

(** A writer of src/file.go with [pending] in its buffer as one extent. *)
Definition writer (bufferSizeMax maxBytes : Z) (pending : bytes)
    (waiting : bool) : LogWriter :=
  mkLogWriter (resolved bufferSizeMax maxBytes) pending
    (if decide (pending = []) then [] else [len pending]) ""
    logPath 0 (Some logPath) waiting.

(** The system once [NewLogWriter] has opened the active file, new, and
    read its size. *)
Definition opened (answers : list response) : World :=
  world 1000 [(logPath, [])] answers
    [EvOpen logPath false None; EvStat logPath None].

End OfFile.

End Examples.

(** * More vocabulary: errors, deliveries, sizes *)

(** The kinds of error the wrappers of src/os.go promise. *)
Definition is_PathError (e : error) : Prop :=
  ∃ op path e', e = PathError op path e'.

Definition is_LinkError (e : error) : Prop :=
  ∃ op old new e', e = LinkError op old new e'.

(** The bytes handed to the file primitive in a run of calls, one chunk
    after the other. *)
Definition delivered (t : list event) : bytes := concat (written_chunks t).

Module LogWriterNotions.
Import LogWriterGo LogWriterTerms.

(** The path [NewLogWriter] gives to the active file. *)
Definition activePath (lw : LogWriter) : string :=
  filepath_Join (directory lw) (baseNamePrefix lw ++ ".log")%string.

(** A writer and its system since the calls [t0]: the bytes [acc] it has
    taken are those it has handed to the file primitive, in their order,
    and then those in its buffer. *)
Definition keeps_all (t0 : list event) (lw : LogWriter) (w : World)
    (acc : bytes) : Prop :=
  ∃ evs, trace w = t0 ++ evs ∧ delivered evs ++ buf lw = acc.

(** The tracked size is the size of the active file, while it is open. *)
Definition size_tracked (lw : LogWriter) (w : World) : Prop :=
  ∀ path, filePointer lw = Some path →
    path = filePath lw ∧ writtenBytes lw = len (contents w path) ∧
    is_Some (files w !! path).

End LogWriterNotions.

Module FileNotions.
Import FileGo FileTerms.

(** The configuration [NewLogWriter] works with when it is given none. *)
Definition zeroConfig : Config := mkConfig "" 0 "" 0 0 None "".

(** The path [NewLogWriter] gives to the active file. *)
Definition activePath (lw : LogWriter) : string :=
  filepath_Join (Directory (cfg lw)) (BaseNamePrefix (cfg lw) ++ ".log")%string.


(** The clock when a [Write] gets to rotate: it has been read once before
    when the writer had no time of a first write. *)
Definition clock_in_Write (lw : LogWriter) (w : World) : Z :=
  if String.eqb (timeOfFirstWrite lw) "" then now w + 1 else now w.

(** The extents a flush may hand over: all of them, but for the last while
    the writer waits for its line terminator. *)
Definition ready (lw : LogWriter) : nat :=
  if waitingForNewline lw then pred (length (extents lw))
  else length (extents lw).

(** The first [j] extents of the buffer of [lw] went whole to the active
    file in the calls [evs], and the writer [lw'] holds the rest. *)
Definition handed_over (j : nat) (lw lw' : LogWriter) (w' : World)
    (evs : list event) : Prop :=
  sound lw' w' ∧
  waitingForNewline lw' = waitingForNewline lw ∧
  cfg lw' = cfg lw ∧ filePath lw' = filePath lw ∧
  extents lw' = drop j (extents lw) ∧
  buf lw' = drop (Z.to_nat (total (take j (extents lw)))) (buf lw) ∧
  concat (written_chunks evs)
  = take (Z.to_nat (total (take j (extents lw)))) (buf lw) ∧
  whole_writes (filePath lw) evs.

(** The parts of [Write]: the time of the first write is recorded, then the
    slice goes to the buffer or straight to the file. *)
Definition recordFirstWrite : M LogWriter unit :=
  lw <~ get ;;
  if String.eqb (timeOfFirstWrite lw) "" then
    t <~ formatNow ;;
    modify (set_timeOfFirstWrite t)
  else ret tt.

Definition bufferedWrite (p : bytes) : M LogWriter (Z * option error) :=
  lw <~ get ;;
  err <~ (if (0 <? len (buf lw)) &&
             (len (buf lw) + len p >? BufferSizeMax (cfg lw)) &&
             ((1 <? len (extents lw)) || negb (waitingForNewline lw))
          then flushCompletedExtents else ret None) ;;
  match err with
  | Some _ => ret (0, err)
  | None =>
      lw <~ get ;;
      (if waitingForNewline lw then
         e <~ index (extents lw) (len (extents lw) - 1) ;;
         modify (set_extents
                   (<[Z.to_nat (len (extents lw) - 1) := e + len p]> (extents lw)))
       else modify (set_extents (extents lw ++ [len p]))) ;;;
      modify (λ lw, set_buf (buf lw ++ p) lw) ;;;
      match last p with
      | None => panic "index out of range [-1]"
      | Some b => modify (set_waitingForNewline (negb (Byte.eqb b LF)))
      end ;;;
      ret (len p, None)
  end.

Definition directWrite (p : bytes) : M LogWriter (Z * option error) :=
  lw <~ get ;;
  err <~ (if (0 <? fileSizeNow lw) &&
             (int64 (fileSizeNow lw + int64 (len p)) >? MaxBytes (cfg lw))
          then rotateLog else ret None) ;;
  match err with
  | Some _ => ret (0, err)
  | None => writeBytes p
  end.


(** The states a writer keeps between the calls of its user: it is sound,
    it waits for a terminator only with an extent to add to, and it holds
    bytes only when it buffers. *)
Definition steady (lw : LogWriter) (w : World) : Prop :=
  sound lw w ∧
  (waitingForNewline lw = true → extents lw ≠ []) ∧
  (BufferSizeMax (cfg lw) ≤ 0 → buf lw = [] ∧ waitingForNewline lw = false).

(** Every byte the writer took since the calls [t0] is in a chunk that went
    whole to its file, or in the buffer, in the order it came. *)
Definition keeps_all (t0 : list event) (lw : LogWriter) (w : World)
    (acc : bytes) : Prop :=
  ∃ evs, trace w = t0 ++ evs ∧ delivered evs ++ buf lw = acc ∧
         whole_writes (filePath lw) evs.

(** A run of [Write] calls, one after the other. *)
Fixpoint writes (ps : list bytes) : M LogWriter (list (Z * option error)) :=
  match ps with
  | [] => ret []
  | p :: ps =>
      r <~ Write p ;;
      rs <~ writes ps ;;
      ret (r :: rs)
  end.

(** The life of a writer: made, written to, closed. *)
Definition session (cfg : option Config) (ps : list bytes)
  : M unit ((list (Z * option error) * option error) * LogWriter + error) :=
  r <~ NewLogWriter cfg ;;
  match r with
  | inr e => ret (inr e)
  | inl lw =>
      x <~ on lw (rs <~ writes ps ;; e <~ Close ;; ret (rs, e)) ;;
      ret (inl x)
  end.


End FileNotions.

(** ** More small writers and systems *)

Module MoreExamples.
Import Examples FileGo.

(** A writer of src/file.go that holds the slices [pending] in its buffer,
    an extent each, with [size] bytes in its file. *)
Definition holding (bufferSizeMax maxBytes : Z) (pending : list bytes)
    (size : Z) (waiting : bool) : LogWriter :=
  mkLogWriter (OfFile.resolved bufferSizeMax maxBytes) (concat pending)
    (map len pending) "" logPath size (Some logPath) waiting.

(** The system once [NewLogWriter] has opened the active file, which holds
    [held], and read its size. *)
Definition found (held : bytes) (answers : list response) : World :=
  world 1000 [(logPath, held)] answers
    [EvOpen logPath false None; EvStat logPath None].

End MoreExamples.

(** * Facts about the model *)

Arguments int64 : simpl never.
Arguments os_File_Close : simpl never.
Arguments os_File_Write : simpl never.
Arguments os_File_Stat : simpl never.
Arguments os_OpenFile : simpl never.
Arguments os_Rename : simpl never.
Arguments time_Now : simpl never.

Section Monad.

Context {L A B : Type}.

Lemma bind_Done (m : M L A) (k : A → M L B) l w a l' w' :
  m l w = Done a l' w' → bind m k l w = k a l' w'.
Proof. unfold bind. by intros ->. Qed.

Lemma bind_ext (m : M L A) (k1 k2 : A → M L B) l w :
  (∀ a l' w', m l w = Done a l' w' → k1 a l' w' = k2 a l' w') →
  bind m k1 l w = bind m k2 l w.
Proof. unfold bind. destruct (m l w); auto. Qed.

(** The value and the state a computation ends with, when it ends. *)
Lemma bind_inv (m : M L A) (k : A → M L B) l w b l'' w'' :
  bind m k l w = Done b l'' w'' →
  ∃ a l' w', m l w = Done a l' w' ∧ k a l' w' = Done b l'' w''.
Proof. unfold bind. destruct (m l w); [eauto|done..]. Qed.

End Monad.

Section Integers.

Lemma int64_small z : - 2 ^ 63 ≤ z < 2 ^ 63 → int64 z = z.
Proof.
  intros H. unfold int64. rewrite Z.mod_small; lia.
Qed.

Lemma Zgtb_false a b : (a >? b) = false → a ≤ b.
Proof. rewrite Z.gtb_ltb. apply Z.ltb_ge. Qed.

Lemma Zgtb_true a b : (a >? b) = true → b < a.
Proof. rewrite Z.gtb_ltb. apply Z.ltb_lt. Qed.

Lemma len_nonneg {A} (s : list A) : 0 ≤ len s.
Proof. unfold len. lia. Qed.

Lemma len_app {A} (s t : list A) : len (s ++ t) = len s + len t.
Proof. unfold len. rewrite length_app. lia. Qed.


Lemma len_zero {A} (s : list A) : len s = 0 → s = [].
Proof. unfold len. destruct s; [done | cbn; lia]. Qed.

Lemma len_take {A} (s : list A) n :
  0 ≤ n ≤ len s → len (take (Z.to_nat n) s) = n.
Proof. unfold len. intros H. rewrite length_take. lia. Qed.

Lemma len_drop {A} (s : list A) n :
  0 ≤ n ≤ len s → len (drop (Z.to_nat n) s) = len s - n.
Proof. unfold len. intros H. rewrite length_drop. lia. Qed.

Lemma slice_to_ok s n : 0 ≤ n ≤ len s → slice_to s n = Some (take (Z.to_nat n) s).
Proof.
  intros H. unfold slice_to.
  destruct (Z.leb_spec 0 n); [|lia]. destruct (Z.leb_spec n (len s)); [done|lia].
Qed.

Lemma slice_from_ok s n : 0 ≤ n ≤ len s → slice_from s n = Some (drop (Z.to_nat n) s).
Proof.
  intros H. unfold slice_from.
  destruct (Z.leb_spec 0 n); [|lia]. destruct (Z.leb_spec n (len s)); [done|lia].
Qed.

Lemma validated_range requested n :
  0 ≤ requested → 0 ≤ validated requested n ≤ requested.
Proof.
  unfold validated. intros H.
  destruct (Z.ltb_spec n 0); cbn; [lia|].
  destruct (Z.gtb_spec n requested); lia.
Qed.


End Integers.

Section LastIndex.

Lemma LastIndexByte_range s c : -1 ≤ LastIndexByte s c < len s.
Proof.
  induction s as [|b s IH]; [done|].
  cbn [LastIndexByte]. unfold len in *. cbn [length].
  destruct (Z.leb_spec 0 (LastIndexByte s c)); [lia|].
  destruct (Byte.eqb b c); lia.
Qed.

Lemma LastIndexByte_app s t c :
  LastIndexByte (s ++ t) c =
    if 0 <=? LastIndexByte t c then len s + LastIndexByte t c
    else LastIndexByte s c.
Proof.
  induction s as [|b s IH].
  - cbn. destruct (Z.leb_spec 0 (LastIndexByte t c)); [done|].
    pose proof (LastIndexByte_range t c). lia.
  - cbn [app LastIndexByte]. rewrite IH. unfold len. cbn [length].
    pose proof (LastIndexByte_range s c).
    destruct (Z.leb_spec 0 (LastIndexByte t c)).
    + destruct (Z.leb_spec 0 (Z.of_nat (length s) + LastIndexByte t c)); lia.
    + done.
Qed.

Lemma LastIndexByte_drop s c n :
  0 ≤ n ≤ LastIndexByte s c →
  LastIndexByte (drop (Z.to_nat n) s) c = LastIndexByte s c - n.
Proof.
  intros Hn.
  pose proof (LastIndexByte_range s c) as Hs.
  pose proof (LastIndexByte_app (take (Z.to_nat n) s) (drop (Z.to_nat n) s) c) as H.
  rewrite take_drop in H.
  pose proof (LastIndexByte_range (take (Z.to_nat n) s) c) as Ht.
  rewrite len_take in Ht, H by lia.
  destruct (Z.leb_spec 0 (LastIndexByte (drop (Z.to_nat n) s) c)); lia.
Qed.

Lemma LastIndexByte_drop_past s c n :
  n = LastIndexByte s c + 1 →
  LastIndexByte (drop (Z.to_nat n) s) c = -1.
Proof.
  intros Hn.
  pose proof (LastIndexByte_range s c) as Hs.
  pose proof (LastIndexByte_app (take (Z.to_nat n) s) (drop (Z.to_nat n) s) c) as H.
  rewrite take_drop in H.
  pose proof (LastIndexByte_range (drop (Z.to_nat n) s) c) as Hd.
  rewrite len_take in H by lia.
  destruct (Z.leb_spec 0 (LastIndexByte (drop (Z.to_nat n) s) c)); lia.
Qed.

Lemma LastIndexByte_take_none s c n :
  LastIndexByte s c = -1 → LastIndexByte (take n s) c = -1.
Proof.
  intros Hs.
  pose proof (LastIndexByte_app (take n s) (drop n s) c) as H.
  rewrite take_drop in H.
  pose proof (LastIndexByte_range (take n s) c).
  pose proof (len_nonneg (take n s)).
  destruct (Z.leb_spec 0 (LastIndexByte (drop n s) c)); lia.
Qed.


(** The byte at the index found is the byte looked for. *)
Lemma LastIndexByte_last s c :
  0 ≤ LastIndexByte s c →
  last (take (Z.to_nat (LastIndexByte s c + 1)) s) = Some c.
Proof.
  induction s as [|b s IH]; [cbn; lia|].
  cbn [LastIndexByte].
  pose proof (LastIndexByte_range s c) as Hr.
  destruct (Z.leb_spec 0 (LastIndexByte s c)) as [Hs|Hs].
  - intros _. specialize (IH Hs).
    replace (Z.to_nat (LastIndexByte s c + 1 + 1))
      with (S (Z.to_nat (LastIndexByte s c + 1))) by lia.
    cbn [take firstn]. 
    destruct (take (Z.to_nat (LastIndexByte s c + 1)) s) eqn:E; [done|].
    rewrite <- IH. done.
  - destruct (Byte.eqb b c) eqn:Eb; [|lia].
    intros _. apply Byte.byte_dec_bl in Eb. subst. done.
Qed.

End LastIndex.

Section System.

Lemma next_response_frame w :
  files (next_response w).2 = files w ∧
  trace (next_response w).2 = trace w ∧
  now (next_response w).2 = now w ∧
  script (next_response w).2 = tail (script w).
Proof. unfold next_response. destruct (script w) eqn:E; cbn; by rewrite ?E. Qed.

Lemma next_response_head w :
  (next_response w).1 = default Good (head (script w)).
Proof. unfold next_response. by destruct (script w). Qed.

Lemma reports_errors_tail s : reports_errors s → reports_errors (tail s).
Proof. destruct s; [done|]. apply Forall_inv_tail. Qed.

Lemma reports_errors_head s n err :
  reports_errors s → default Good (head s) = Reply n err → is_Some err.
Proof.
  destruct s as [|r s]; [done|]. cbn. intros H ->.
  apply Forall_inv in H. destruct err; [eauto|]. by destruct (H n).
Qed.

Lemma os_File_Close_trace fp w :
  trace (os_File_Close fp w).2 = trace w ++ [EvClose fp (os_File_Close fp w).1].
Proof.
  unfold os_File_Close. destruct fp; [|done].
  pose proof (next_response_frame w) as (_ & H & _).
  destruct (next_response w). cbn in *. by rewrite H.
Qed.

Lemma os_File_Close_frame fp w :
  files (os_File_Close fp w).2 = files w ∧
  now (os_File_Close fp w).2 = now w ∧
  (reports_errors (script w) → reports_errors (script (os_File_Close fp w).2)).
Proof.
  unfold os_File_Close. destruct fp; [|done].
  pose proof (next_response_frame w) as (Hf & _ & Hn & Hs).
  destruct (next_response w). cbn in *. rewrite Hs.
  auto using reports_errors_tail.
Qed.

Lemma os_File_Close_nil w :
  os_File_Close None w = (Some ErrInvalid, log (EvClose None (Some ErrInvalid)) w).
Proof. done. Qed.

Lemma os_Rename_trace old new w :
  trace (os_Rename old new w).2
  = trace w ++ [EvRename old new (os_Rename old new w).1].
Proof.
  unfold os_Rename.
  pose proof (next_response_frame w) as (_ & H & _).
  destruct (next_response w) as [r w1]. cbn in H.
  destruct (response_err r); [cbn; by rewrite H|].
  destruct (files w1 !! old); cbn; by rewrite H.
Qed.

Lemma os_Rename_frame old new w :
  reports_errors (script w) → reports_errors (script (os_Rename old new w).2).
Proof.
  unfold os_Rename.
  pose proof (next_response_frame w) as (_ & _ & _ & H).
  destruct (next_response w) as [r w1]. cbn in H.
  intros Hs. apply reports_errors_tail in Hs. rewrite <- H in Hs.
  destruct (response_err r); [done|]. by destruct (files w1 !! old).
Qed.

Lemma os_Rename_result old new w :
  (os_Rename old new w).1 = None →
  ∃ c, files w !! old = Some c ∧
       files (os_Rename old new w).2 = <[new := c]> (delete old (files w)).
Proof.
  unfold os_Rename.
  pose proof (next_response_frame w) as (H & _).
  destruct (next_response w) as [r w1]. cbn in H.
  destruct (response_err r); [done|]. rewrite <- H.
  destruct (files w1 !! old) as [c|]; [|done]. cbn. eauto.
Qed.

Lemma os_File_Stat_result path w :
  files (os_File_Stat (Some path) w).2 = files w ∧
  ((os_File_Stat (Some path) w).1.2 = None →
   (os_File_Stat (Some path) w).1.1 = len (contents w path)).
Proof.
  unfold os_File_Stat.
  pose proof (next_response_frame w) as (H & _).
  destruct (next_response w) as [r w1]. cbn in H.
  destruct (response_err r); cbn; unfold contents; by rewrite H.
Qed.

Lemma os_File_Stat_trace path w :
  trace (os_File_Stat (Some path) w).2
  = trace w ++ [EvStat path (os_File_Stat (Some path) w).1.2].
Proof.
  unfold os_File_Stat.
  pose proof (next_response_frame w) as (_ & H & _).
  destruct (next_response w) as [r w1]. cbn in H.
  destruct (response_err r); cbn; by rewrite H.
Qed.

Lemma string_length_app (s t : string) :
  String.length (s ++ t) = (String.length s + String.length t)%nat.
Proof. induction s as [|c s IH]; simpl; [done|]. by rewrite IH. Qed.

Lemma os_OpenFile_trace path trunc w :
  trace (os_OpenFile path trunc w).2
  = trace w ++ [EvOpen path trunc (os_OpenFile path trunc w).1.2].
Proof.
  unfold os_OpenFile.
  pose proof (next_response_frame w) as (_ & H & _).
  destruct (next_response w) as [r w1]. cbn in H.
  destruct (response_err r); cbn; by rewrite H.
Qed.

(** An open that fails gives no file; one that succeeds gives the file at
    the path, empty when it is truncated. *)
Lemma os_OpenFile_result path trunc w :
  match (os_OpenFile path trunc w).1.2 with
  | Some _ => (os_OpenFile path trunc w).1.1 = None
  | None =>
      (os_OpenFile path trunc w).1.1 = Some path ∧
      files (os_OpenFile path trunc w).2 !! path
      = Some (if trunc then [] else contents w path)
  end.
Proof.
  unfold os_OpenFile.
  pose proof (next_response_frame w) as (Hf & _).
  destruct (next_response w) as [r w1]. cbn in Hf.
  destruct (response_err r); cbn; [done|].
  split; [done|]. rewrite lookup_insert_eq. unfold contents. by rewrite Hf.
Qed.

Lemma os_OpenFile_frame path trunc w :
  reports_errors (script w) → reports_errors (script (os_OpenFile path trunc w).2).
Proof.
  unfold os_OpenFile.
  pose proof (next_response_frame w) as (_ & _ & _ & H).
  destruct (next_response w) as [r w1]. cbn in H.
  intros Hs. apply reports_errors_tail in Hs. rewrite <- H in Hs.
  by destruct (response_err r).
Qed.

Lemma os_File_Write_trace fp p w :
  trace (os_File_Write fp p w).2
  = trace w ++ [EvWrite fp p (os_File_Write fp p w).1.1 (os_File_Write fp p w).1.2].
Proof.
  unfold os_File_Write. destruct fp; [|done].
  pose proof (next_response_frame w) as (_ & H & _).
  destruct (next_response w) as [[|n err] w1]; cbn in *; by rewrite H.
Qed.

Lemma os_File_Write_nil p w :
  os_File_Write None p w
  = ((0, Some ErrInvalid), log (EvWrite None p 0 (Some ErrInvalid)) w).
Proof. done. Qed.

(** What a write leaves in the file. *)
Lemma os_File_Write_files path p w :
  files (os_File_Write (Some path) p w).2
  = <[path := contents w path ++ accepted p (os_File_Write (Some path) p w).1.1]>
      (files w).
Proof.
  unfold os_File_Write.
  pose proof (next_response_frame w) as (H & _).
  unfold contents.
  destruct (next_response w) as [[|n err] w1]; cbn in *; by rewrite H.
Qed.

Lemma os_File_Write_frame fp p w :
  reports_errors (script w) →
  reports_errors (script (os_File_Write fp p w).2) ∧
  ((os_File_Write fp p w).1.2 = None → (os_File_Write fp p w).1.1 = len p).
Proof.
  unfold os_File_Write. destruct fp; [|done].
  pose proof (next_response_frame w) as (_ & _ & _ & H).
  pose proof (next_response_head w) as Hh.
  destruct (next_response w) as [[|n err] w1]; cbn in *; intros Hs;
    (split; [rewrite H; by apply reports_errors_tail|]); [done|].
  symmetry in Hh. apply (reports_errors_head _ _ _ Hs) in Hh as [e ->]. done.
Qed.

End System.

Section Traces.



Lemma written_chunks_app t u :
  written_chunks (t ++ u) = written_chunks t ++ written_chunks u.
Proof.
  induction t as [|[] t IH]; cbn; try done. by rewrite IH.
Qed.

End Traces.

(** * Facts about src/logWriter.go *)

Module LogWriterFacts.
Import LogWriterGo LogWriterTerms.


Lemma asLinkError_None op old new err :
  asLinkError op old new err = None ↔ err = None.
Proof. by destruct err as [[]|]. Qed.

Lemma asPathError_Some op path e : is_Some (asPathError op path (Some e)).
Proof. destruct e; cbn; eauto. Qed.

Lemma asLinkError_Some op old new e : is_Some (asLinkError op old new (Some e)).
Proof. destruct e; cbn; eauto. Qed.

Lemma closeLogFile_run rot w :
  closeLogFile rot w
  = Done (asPathError "close" (filePath rot) (os_File_Close (filePointer rot) w).1)
      (set_writtenBytes 0 (set_filePointer None rot))
      (os_File_Close (filePointer rot) w).2.
Proof. done. Qed.

Lemma renameLogFile_run rot w f :
  timeFormatter rot = Some f →
  renameLogFile rot w
  = Done (asLinkError "rename" (filePath rot) (stampedPath rot f (now w))
            (os_Rename (filePath rot) (stampedPath rot f (now w)) (time_Now w).2).1)
      rot
      (os_Rename (filePath rot) (stampedPath rot f (now w)) (time_Now w).2).2.
Proof.
  intros Hf. unfold renameLogFile, bind, get, sys. rewrite Hf. done.
Qed.

Lemma createLogFile_run rot w :
  createLogFile rot w
  = Done (asPathError "open" (filePath rot) (os_OpenFile (filePath rot) true w).1.2)
      (set_filePointer (os_OpenFile (filePath rot) true w).1.1 rot)
      (os_OpenFile (filePath rot) true w).2.
Proof.
  unfold createLogFile, fileOpen, bind, get, sys, modify, ret. cbn [fst snd].
  pose proof (os_OpenFile_result (filePath rot) true w) as H.
  destruct ((os_OpenFile (filePath rot) true w).1.2) eqn:E; cbn [fst snd].
  - by rewrite H.
  - done.
Qed.

(** What one rotation does: its calls in their order, the writer and the
    files it leaves. *)
Lemma rotate_run rot w f :
  timeFormatter rot = Some f →
  ∃ err fp' w' evs,
    rotate rot w = Done err (set_writtenBytes 0 (set_filePointer fp' rot)) w' ∧
    trace w' = trace w ++ evs ∧
    rotation_steps rot (stampedPath rot f (now w)) err evs ∧
    (∃ e rest, evs = EvClose (filePointer rot) e :: rest) ∧
    written_chunks evs = [] ∧
    match err with
    | None =>
        fp' = Some (filePath rot) ∧
        files w' !! filePath rot = Some [] ∧
        evs = [EvClose (filePointer rot) None;
               EvRename (filePath rot) (stampedPath rot f (now w)) None;
               EvOpen (filePath rot) true None]
    | Some _ => fp' = None
    end ∧
    (reports_errors (script w) → reports_errors (script w')).
Proof.
  intros Hf. unfold rotate, bind. rewrite closeLogFile_run.
  pose proof (os_File_Close_trace (filePointer rot) w) as Ht1.
  pose proof (os_File_Close_frame (filePointer rot) w) as (_ & Hn1 & Hs1).
  destruct (os_File_Close (filePointer rot) w) as [e1 w1]. cbn [fst snd] in *.
  destruct e1 as [e1|].
  { destruct (asPathError_Some "close" (filePath rot) e1) as [e1' He1].
    rewrite He1. exists (Some e1'), None, w1, [EvClose (filePointer rot) (Some e1)].
    unfold rotation_steps. rewrite He1. repeat split; eauto. }
  cbn [asPathError].
  erewrite renameLogFile_run by exact Hf.
  change (filePath (set_writtenBytes 0 (set_filePointer None rot)))
    with (filePath rot).
  change (stampedPath (set_writtenBytes 0 (set_filePointer None rot)) f (now w1))
    with (stampedPath rot f (now w1)).
  rewrite Hn1. set (stamp := stampedPath rot f (now w)).
  pose proof (os_Rename_trace (filePath rot) stamp (time_Now w1).2) as Ht2.
  pose proof (os_Rename_frame (filePath rot) stamp (time_Now w1).2) as Hs2.
  destruct (os_Rename (filePath rot) stamp (time_Now w1).2) as [e2 w2].
  cbn [fst snd] in *.
  change (trace (time_Now w1).2) with (trace w1) in Ht2.
  change (script (time_Now w1).2) with (script w1) in Hs2.
  destruct e2 as [e2|].
  { destruct (asLinkError_Some "rename" (filePath rot) stamp e2) as [e2' He2].
    rewrite He2.
    exists (Some e2'), None, w2,
      [EvClose (filePointer rot) None; EvRename (filePath rot) stamp (Some e2)].
    unfold rotation_steps. rewrite He2, Ht2, Ht1, <- app_assoc.
    repeat split; eauto. }
  cbn [asLinkError]. rewrite createLogFile_run.
  cbn [filePath set_writtenBytes set_filePointer].
  pose proof (os_OpenFile_trace (filePath rot) true w2) as Ht3.
  pose proof (os_OpenFile_result (filePath rot) true w2) as Hr3.
  pose proof (os_OpenFile_frame (filePath rot) true w2) as Hs3.
  destruct (os_OpenFile (filePath rot) true w2) as [[fp3 e3] w3].
  cbn [fst snd] in *.
  exists (asPathError "open" (filePath rot) e3), fp3, w3,
    [EvClose (filePointer rot) None; EvRename (filePath rot) stamp None;
     EvOpen (filePath rot) true e3].
  split; [done|]. split; [by rewrite Ht3, Ht2, Ht1, <- !app_assoc|].
  split; [done|]. split; [eauto|]. split; [done|]. split; [|eauto].
  destruct e3 as [e3|].
  - destruct (asPathError_Some "open" (filePath rot) e3) as [e3' He3].
    by rewrite He3.
  - by destruct Hr3.
Qed.

(** A rotation closes, then renames, then creates, in that order; the
    first of the three that fails ends it: its error is returned and no
    later step is called.  *)
Lemma rotate_order rot w f :
  timeFormatter rot = Some f →
  ∃ err rot' w' evs,
    rotate rot w = Done err rot' w' ∧
    trace w' = trace w ++ evs ∧
    rotation_steps rot (stampedPath rot f (now w)) err evs.
Proof.
  intros Hf. destruct (rotate_run rot w f Hf) as (err & fp' & w' & evs & H).
  exists err, (set_writtenBytes 0 (set_filePointer fp' rot)), w', evs.
  destruct H as (H1 & H2 & H3 & _). eauto.
Qed.


(** A rotation changes the file of the writer and its tracked size, and
    nothing else of it. *)
Lemma rotate_state rot w err rot' w' :
  rotate rot w = Done err rot' w' →
  ∃ fp', rot' = set_writtenBytes 0 (set_filePointer fp' rot).
Proof.
  destruct (timeFormatter rot) as [f|] eqn:Hf.
  - destruct (rotate_run rot w f Hf) as (err1 & fp' & w1 & evs & -> & _).
    intros [= _ <- _]. eauto.
  - unfold rotate, bind. rewrite closeLogFile_run.
    destruct (asPathError _ _ _).
    + intros [= _ <- _]. eauto.
    + unfold renameLogFile, bind, get, sys. cbn [timeFormatter set_writtenBytes
        set_filePointer]. by rewrite Hf.
Qed.

(** The part of [flush] after the rotation is [write_out]. *)
Lemma flush_run olen dlen index lw w :
  0 ≤ index ≤ len (buf lw) → 0 ≤ olen ≤ len (buf lw) →
  flush olen dlen index lw w =
    bind (if (int64 (writtenBytes lw + int64 index) >? maxBytes lw)
             || (int64 index >? maxBytes lw)
          then rotate else ret None)
      (λ err, match err with
              | Some _ => ret (0, err)
              | None => write_out olen dlen index
              end) lw w.
Proof.
  intros Hi Ho. unfold flush. unfold bind at 1. unfold get.
  apply bind_ext. intros err lw1 w1 Hrot.
  assert (buf lw1 = buf lw) as Hbuf.
  { destruct (_ || _) in Hrot.
    - apply rotate_state in Hrot as [fp' ->]. done.
    - by injection Hrot as _ <- _. }
  destruct err as [e|]; [done|].
  rewrite <- Hbuf in Hi, Ho. clear Hrot Hbuf lw w.
  unfold write_out, flushed.
  unfold bind at 1, get. unfold bind at 1, slice. rewrite slice_to_ok by done.
  unfold ret at 1. unfold bind at 1, sys.
  destruct (os_File_Write (filePointer lw1) (take (Z.to_nat index) (buf lw1)) w1)
    as [[n err] w2].
  cbv beta iota delta [bind ret get modify fst snd validated].
  destruct ((n <? 0) || (n >? index)) eqn:Hbad.
  - change (0 <? 0) with false. cbv iota.
    destruct err as [e|]; (destruct (Z.ltb_spec (0 - olen) 0); [|done]);
      rewrite slice_to_ok by lia;
      by replace (- (0 - olen)) with (olen - 0) by lia.
  - apply orb_false_elim in Hbad as [Hn0%Z.ltb_ge Hni].
    rewrite Z.gtb_ltb in Hni. apply Z.ltb_ge in Hni.
    rewrite Z.gtb_ltb. destruct (Z.ltb_spec 0 n) as [Hpos|Hpos].
    + unfold slice. rewrite slice_from_ok by lia. cbv beta iota delta [ret].
      destruct err as [e|]; [|done].
      destruct (Z.ltb_spec (n - olen) 0); [|done].
      cbn [buf set_buf set_writtenBytes].
      rewrite slice_to_ok by (rewrite len_drop; lia).
      by replace (- (n - olen)) with (olen - n) by lia.
    + destruct err as [e|]; [|done].
      destruct (Z.ltb_spec (n - olen) 0); [|done].
      unfold slice. rewrite slice_to_ok by lia.
      by replace (- (n - olen)) with (olen - n) by lia.
Qed.

Lemma write_out_run olen dlen index lw w :
  ∃ n err w',
    os_File_Write (filePointer lw) (take (Z.to_nat index) (buf lw)) w = ((n, err), w') ∧
    write_out olen dlen index lw w
    = Done (flushed olen dlen index lw n err).1 (flushed olen dlen index lw n err).2 w' ∧
    trace w' = trace w ++ [EvWrite (filePointer lw) (take (Z.to_nat index) (buf lw)) n err].
Proof.
  unfold write_out.
  pose proof (os_File_Write_trace (filePointer lw) (take (Z.to_nat index) (buf lw)) w) as Ht.
  destruct (os_File_Write _ _ _) as [[n err] w']. cbn [fst snd] in *. eauto 10.
Qed.

(** In a writer that buffers, [Write] puts [p] in the buffer and returns, or
    goes on to [flush]. *)
Lemma Write_buffered_run p lw w :
  flushThreshold lw ≠ 0 →
  Write p lw w =
    if (len (buf lw ++ p) <=? flushThreshold lw)
       || (indexOfFinalNewline (appended p lw) <? 0)
    then Done (len p, None) (appended p lw) w
    else flush (len (buf lw)) (len p) (indexOfFinalNewline (appended p lw) + 1)
           (appended p lw) w.
Proof.
  intros Hthr. unfold Write, bind at 1, get.
  destruct (Z.eqb_spec (flushThreshold lw) 0) as [|_]; [done|].
  unfold appended, bind, modify, get, ret.
  destruct (0 <=? LastIndexByte p LF); destruct lw;
    cbn [buf flushThreshold indexOfFinalNewline set_buf set_indexOfFinalNewline
           baseNamePrefix directory filePath timeFormat maxBytes writtenBytes
           timeFormatter filePointer fileMode];
    destruct (_ || _); reflexivity.
Qed.

(** In a writer that does not buffer, [Write] rotates if it has to and
    hands [p] to the file. *)
Lemma Write_unbuffered_run p lw w :
  flushThreshold lw = 0 →
  Write p lw w =
    bind (if int64 (writtenBytes lw + int64 (len p)) >? maxBytes lw
          then rotate else ret None)
      (λ err, match err with
              | Some _ => ret (0, err)
              | None => λ lw w,
                  Done (os_File_Write (filePointer lw) p w).1
                    (set_writtenBytes
                       (int64 (writtenBytes lw
                               + int64 (os_File_Write (filePointer lw) p w).1.1)) lw)
                    (os_File_Write (filePointer lw) p w).2
              end) lw w.
Proof.
  intros Hthr. unfold Write, bind at 1, get. rewrite Hthr. cbn [Z.eqb].
  apply bind_ext. intros [e|] lw1 w1 _; done.
Qed.

Lemma Close_run lw w :
  Close lw w =
    let r := os_File_Write (filePointer lw) (buf lw) w in
    let w1 := if 0 <? len (buf lw) then r.2 else w in
    let writeErr := if 0 <? len (buf lw) then r.1.2 else None in
    let c := os_File_Close (filePointer lw) w1 in
    Done (match writeErr with
          | Some _ => writeErr
          | None => asPathError "close" (filePath lw) c.1
          end)
      (set_writtenBytes 0
         (set_filePointer None (set_indexOfFinalNewline (-1) (set_buf [] lw))))
      c.2.
Proof.
  unfold Close, bind at 1, get. unfold bind at 1.
  destruct (0 <? len (buf lw)) eqn:Hlen.
  - unfold bind at 1, sys, modify, ret. unfold bind, modify.
    rewrite closeLogFile_run. cbn [filePath filePointer set_indexOfFinalNewline set_buf].
    by destruct (os_File_Write _ _ _).1.2.
  - apply Z.ltb_ge in Hlen.
    assert (buf lw = []) as Hb
      by (apply len_zero; pose proof (len_nonneg (buf lw)); lia).
    unfold ret at 1. unfold bind, modify. rewrite closeLogFile_run.
    cbn [filePath filePointer set_indexOfFinalNewline set_buf]. unfold ret.
    destruct lw; cbn in *; subst; done.
Qed.

(** C9.  [Close] empties the buffer and lets go of the file whatever
    happens, so a second [Close] hands no byte to any file: its one call is
    the close of the nil file, which changes no file, and it returns the
    error of a closed file. *)
Theorem Close_twice lw w :
  ∃ err lw1 w1,
    Close lw w = Done err lw1 w1 ∧
    buf lw1 = [] ∧ filePointer lw1 = None ∧
    ∃ w2,
      Close lw1 w1 = Done (Some (closedError lw)) lw1 w2 ∧
      trace w2 = trace w1 ++ [EvClose None (Some ErrInvalid)] ∧
      written_chunks [EvClose None (Some ErrInvalid)] = [] ∧
      files w2 = files w1.
Proof.
  rewrite Close_run. cbv zeta. eexists _, _, _. split; [reflexivity|].
  split; [done|]. split; [done|].
  eexists. rewrite Close_run. cbv zeta.
  cbn [buf filePointer filePath set_writtenBytes set_filePointer
         set_indexOfFinalNewline set_buf len length Z.of_nat Z.ltb Z.compare].
  rewrite os_File_Close_nil. cbn [fst snd asPathError].
  split; [reflexivity|]. done.
Qed.

Lemma needs_rotation_test lw count :
  - 2 ^ 63 ≤ writtenBytes lw + count < 2 ^ 63 → - 2 ^ 63 ≤ count < 2 ^ 63 →
  (int64 (writtenBytes lw + int64 count) >? maxBytes lw)
  || (int64 count >? maxBytes lw) = bool_decide (needs_rotation lw count).
Proof.
  intros H1 H2. rewrite (int64_small count), int64_small by lia.
  unfold needs_rotation.
  destruct (Z.gtb_spec (writtenBytes lw + count) (maxBytes lw)),
    (Z.gtb_spec count (maxBytes lw)); cbn;
    symmetry; (apply bool_decide_eq_true || apply bool_decide_eq_false); lia.
Qed.

(** C6.  The flush of [index] bytes rotates before it writes exactly when
    the bytes do not fit: then the calls of a rotation come first, the
    tracked size is 0 right after it, and the write follows if the rotation
    succeeded; otherwise the write is the only call. *)
Theorem flush_rotates_when_needed olen dlen index lw w f :
  timeFormatter lw = Some f →
  0 ≤ index ≤ len (buf lw) → 0 ≤ olen ≤ len (buf lw) →
  0 ≤ writtenBytes lw → writtenBytes lw + index < 2 ^ 63 →
  ∃ r lw' w' evs,
    flush olen dlen index lw w = Done r lw' w' ∧
    trace w' = trace w ++ evs ∧
    (needs_rotation lw index →
       ∃ err lw1 w1 revs,
         rotate lw w = Done err lw1 w1 ∧
         trace w1 = trace w ++ revs ∧
         rotation_steps lw (stampedPath lw f (now w)) err revs ∧
         writtenBytes lw1 = 0 ∧
         match err with
         | Some _ => evs = revs ∧ r = (0, err)
         | None =>
             ∃ n e, evs = revs ++ [EvWrite (filePointer lw1)
                                     (take (Z.to_nat index) (buf lw)) n e]
         end) ∧
    (¬ needs_rotation lw index →
       ∃ n e, evs = [EvWrite (filePointer lw) (take (Z.to_nat index) (buf lw)) n e]).
Proof.
  intros Hf Hi Ho Hwb Hidx.
  rewrite flush_run by done. rewrite needs_rotation_test by lia.
  unfold bind. case_bool_decide as Hneed.
  - destruct (rotate_run lw w f Hf) as (err & fp' & w1 & revs & Hrot & Htr & Hsteps & _).
    rewrite Hrot. destruct err as [e|].
    + eexists _, _, _, revs. split; [reflexivity|]. split; [done|].
      split; [|done]. intros _. eexists _, _, _, revs.
      split; [reflexivity|]. done.
    + destruct (write_out_run olen dlen index
                  (set_writtenBytes 0 (set_filePointer fp' lw)) w1)
        as (n & e & w2 & _ & -> & Htr2).
      cbn [buf filePointer set_writtenBytes set_filePointer] in Htr2.
      eexists _, _, _, _. split; [reflexivity|].
      split; [by rewrite Htr2, Htr, <- app_assoc|].
      split; [|done]. intros _. eexists _, _, _, revs.
      split; [reflexivity|]. split; [done|]. split; [done|]. split; [done|].
      eauto.
  - unfold ret.
    destruct (write_out_run olen dlen index lw w) as (n & e & w2 & _ & -> & Htr2).
    eexists _, _, _, _. split; [reflexivity|]. split; [exact Htr2|].
    split; [done|]. eauto.
Qed.

Lemma appended_index p lw :
  indexOfFinalNewline lw = LastIndexByte (buf lw) LF →
  indexOfFinalNewline (appended p lw) = LastIndexByte (buf lw ++ p) LF.
Proof.
  intros H. unfold appended. cbn [indexOfFinalNewline set_indexOfFinalNewline].
  rewrite LastIndexByte_app, H. by destruct (0 <=? LastIndexByte p LF).
Qed.

Lemma flushed_full olen dlen index lw :
  0 < index →
  flushed olen dlen index lw index None
  = ((dlen, None),
     set_indexOfFinalNewline (indexOfFinalNewline lw - index)
       (set_buf (drop (Z.to_nat index) (buf lw))
          (set_writtenBytes (int64 (writtenBytes lw + int64 index)) lw))).
Proof.
  intros H. unfold flushed, validated.
  destruct (Z.ltb_spec index 0); [lia|].
  destruct (Z.gtb_spec index index); [lia|]. cbn [orb].
  destruct (Z.ltb_spec 0 index); [done|lia].
Qed.

(** [flush] comes back without error only when the file primitive reported
    none, with a count in range. *)
Lemma flushed_no_error olen dlen index lw n err :
  (flushed olen dlen index lw n err).1.2 = None →
  err = None ∧ 0 ≤ n ≤ index.
Proof.
  unfold flushed.
  destruct (Z.ltb_spec n 0); cbn [orb]; [done|].
  destruct (Z.gtb_spec n index); [done|].
  destruct err; [done|]. intros _. split; [done|lia].
Qed.


Lemma flush_rotating olen dlen index lw w :
  0 ≤ index ≤ len (buf lw) → 0 ≤ olen ≤ len (buf lw) →
  flush olen dlen index lw w =
    rotating ((int64 (writtenBytes lw + int64 index) >? maxBytes lw)
              || (int64 index >? maxBytes lw))
      (take (Z.to_nat index) (buf lw)) (flushed olen dlen index) lw w.
Proof.
  intros Hi Ho. rewrite flush_run by done. unfold rotating.
  apply bind_ext. intros [e|] lw1 w1 Hrot; [done|].
  unfold write_out.
  replace (buf lw1) with (buf lw); [done|].
  destruct (_ || _) in Hrot.
  - by apply rotate_state in Hrot as [fp' ->].
  - by injection Hrot as <- _.
Qed.

Lemma Write_unbuffered_rotating p lw w :
  flushThreshold lw = 0 →
  Write p lw w =
    rotating (int64 (writtenBytes lw + int64 (len p)) >? maxBytes lw) p counted lw w.
Proof.
  intros H. rewrite Write_unbuffered_run by done. unfold rotating, counted.
  apply bind_ext. intros [e|] lw1 w1 _; [done|].
  by destruct (os_File_Write (filePointer lw1) p w1) as [[n e] w2].
Qed.

(** The ways of a rotating write: the rotation fails and nothing is
    written, or the chunk is handed to the file, the active one or the new
    one of the rotation. *)
Lemma rotating_cases need chunk books lw w f :
  timeFormatter lw = Some f →
  ∃ r lw' w' evs,
    rotating need chunk books lw w = Done r lw' w' ∧
    trace w' = trace w ++ evs ∧
    (reports_errors (script w) → reports_errors (script w')) ∧
    ((∃ e, need = true ∧ r = (0, Some e) ∧
           lw' = set_writtenBytes 0 (set_filePointer None lw) ∧
           rotation_failed evs)
     ∨
     (∃ lw1 w1 revs n e,
        (need = false ∧ lw1 = lw ∧ w1 = w ∧ revs = []
         ∨
         need = true ∧
         lw1 = set_writtenBytes 0 (set_filePointer (Some (filePath lw)) lw) ∧
         files w1 !! filePath lw = Some [] ∧
         revs = [EvClose (filePointer lw) None;
                 EvRename (filePath lw) (stampedPath lw f (now w)) None;
                 EvOpen (filePath lw) true None]) ∧
        (reports_errors (script w) → reports_errors (script w1)) ∧
        os_File_Write (filePointer lw1) chunk w1 = ((n, e), w') ∧
        evs = revs ++ [EvWrite (filePointer lw1) chunk n e] ∧
        r = (books lw1 n e).1 ∧ lw' = (books lw1 n e).2)).
Proof.
  intros Hf. unfold rotating, bind. destruct need.
  - destruct (rotate_run lw w f Hf)
      as (err & fp' & w1 & revs & -> & Htr & _ & Hhead & Hnow & Hfp & Hs1).
    destruct err as [e|].
    + subst fp'. eexists _, _, _, revs. split; [reflexivity|]. split; [done|].
      split; [done|]. left. exists e. repeat split; try done.
      destruct Hhead as (? & ? & ->). done.
    + destruct Hfp as (-> & Hfile & Hrevs).
      cbn [filePointer set_writtenBytes set_filePointer].
      pose proof (os_File_Write_trace (Some (filePath lw)) chunk w1) as Htr2.
      pose proof (os_File_Write_frame (Some (filePath lw)) chunk w1) as Hs2.
      destruct (os_File_Write (Some (filePath lw)) chunk w1) as [[n e] w2] eqn:Hw.
      cbn [fst snd] in *.
      eexists _, _, _, _. split; [reflexivity|].
      split; [by rewrite Htr2, Htr, <- app_assoc|].
      split; [intros Hs; by apply Hs2, Hs1|].
      right. eexists _, w1, revs, n, e.
      split; [right; by rewrite Hrevs|]. done.
  - unfold ret.
    pose proof (os_File_Write_trace (filePointer lw) chunk w) as Htr2.
    pose proof (os_File_Write_frame (filePointer lw) chunk w) as Hs2.
    destruct (os_File_Write (filePointer lw) chunk w) as [[n e] w2] eqn:Hw.
    cbn [fst snd] in *.
    eexists _, _, _, _. split; [reflexivity|]. split; [exact Htr2|].
    split; [intros Hs; by apply Hs2|].
    right. eexists lw, w, [], n, e. split; [by left|]. done.
Qed.

(** The writer [flush] leaves: the fields it does not touch, its tracked
    size, and its recorded index, which is again the index of the last
    terminator of the buffer. *)
Lemma flushed_state olen dlen index lw n err :
  indexOfFinalNewline lw = LastIndexByte (buf lw) LF →
  index = indexOfFinalNewline lw + 1 → 0 < index →
  let lw' := (flushed olen dlen index lw n err).2 in
  let nw := validated index n in
  timeFormatter lw' = timeFormatter lw ∧ maxBytes lw' = maxBytes lw ∧
  flushThreshold lw' = flushThreshold lw ∧ filePath lw' = filePath lw ∧
  filePointer lw' = filePointer lw ∧
  writtenBytes lw' = (if 0 <? nw then int64 (writtenBytes lw + int64 nw)
                      else writtenBytes lw) ∧
  indexOfFinalNewline lw' = LastIndexByte (buf lw') LF.
Proof.
  intros Hidx Hindex Hpos lw' nw.
  pose proof (LastIndexByte_range (buf lw) LF) as Hrange.
  assert (0 ≤ nw ≤ index) as Hnw by (apply validated_range; lia).
  subst lw'. unfold flushed. fold nw.
  destruct (if (n <? 0) || (n >? index)
            then Some (default (ErrInvalidWrite n) err) else err) as [e|].
  - cbn [snd]. by destruct (0 <? nw).
  - cbn [snd]. destruct (Z.ltb_spec 0 nw) as [H|H];
      cbn [timeFormatter maxBytes flushThreshold filePath filePointer
             writtenBytes indexOfFinalNewline buf set_buf set_writtenBytes
             set_indexOfFinalNewline]; repeat split; try done.
    + destruct (decide (nw = index)) as [->|].
      * rewrite LastIndexByte_drop_past by lia. lia.
      * rewrite LastIndexByte_drop by lia. lia.
    + replace nw with 0 by lia. lia.
Qed.

(** What [flush] returns and keeps in the buffer when the write failed: the
    count of the bytes of the current call among those written, and the
    bytes pending before the call that were not written. *)
Lemma flushed_failed old p dlen index lw n err :
  buf lw = old ++ p →
  0 ≤ index →
  is_Some err ∨ n < 0 ∨ index < n →
  let nw := validated index n in
  (flushed (len old) dlen index lw n err).1
  = (Z.max 0 (nw - len old), Some (default (ErrInvalidWrite n) err)) ∧
  buf (flushed (len old) dlen index lw n err).2
  = drop (Z.to_nat nw) old.
Proof.
  intros Hbuf Hindex Hfail nw.
  assert (0 ≤ nw ≤ index) as Hnw by (by apply validated_range).
  pose proof (len_nonneg old) as Hold.
  unfold flushed. fold nw.
  assert ((if (n <? 0) || (n >? index)
           then Some (default (ErrInvalidWrite n) err) else err)
          = Some (default (ErrInvalidWrite n) err)) as ->.
  { destruct (Z.ltb_spec n 0); [done|]. destruct (Z.gtb_spec n index); [done|].
    cbn. destruct Hfail as [[e ->]|?]; [done|lia]. }
  cbn [fst snd buf set_buf set_indexOfFinalNewline].
  assert (buf (if 0 <? nw
               then set_buf (drop (Z.to_nat nw) (buf lw))
                      (set_writtenBytes (int64 (writtenBytes lw + int64 nw)) lw)
               else lw) = drop (Z.to_nat nw) (old ++ p)) as ->.
  { rewrite <- Hbuf. destruct (Z.ltb_spec 0 nw); [done|].
    by replace nw with 0 by lia. }
  destruct (Z.ltb_spec (nw - len old) 0) as [H|H].
  - split; [f_equal; lia|].
    rewrite take_drop_commute.
    replace (Z.to_nat nw + Z.to_nat (len old - nw))%nat with (length old)
      by (unfold len in *; lia).
    by rewrite take_app_length.
  - split; [f_equal; lia|].
    symmetry. apply drop_ge. unfold len in *. lia.
Qed.

Lemma written_chunks_snoc evs fp chunk n err :
  written_chunks (evs ++ [EvWrite fp chunk n err]) ≠ [].
Proof. rewrite written_chunks_app. cbn. by destruct (written_chunks evs). Qed.

Lemma app_self_nil {A} (l m : list A) : l = l ++ m → m = [].
Proof.
  intros H. rewrite <- (app_nil_r l) in H at 1. by apply app_inv_head in H.
Qed.

(** C3, as the code has it.  When the file write of the flush of a [Write]
    fails (an error, or a count out of range), the call reports the count of
    its own bytes among those the file primitive confirmed, never more; of
    the buffer it keeps the bytes that were pending before the call and were
    not written, and none of the bytes of the call; and the recorded index is
    again the index of the last terminator of what is kept. *)
Theorem Write_failure_keeps_only_old p lw w f r lw' w' evs fp chunk n err :
  flushThreshold lw ≠ 0 →
  timeFormatter lw = Some f →
  indexOfFinalNewline lw = LastIndexByte (buf lw) LF →
  Write p lw w = Done r lw' w' →
  trace w' = trace w ++ evs ++ [EvWrite fp chunk n err] →
  is_Some err ∨ n < 0 ∨ len chunk < n →
  let nw := validated (len chunk) n in
  r = (Z.max 0 (nw - len (buf lw)), Some (default (ErrInvalidWrite n) err)) ∧
  buf lw' = drop (Z.to_nat nw) (buf lw) ∧
  indexOfFinalNewline lw' = LastIndexByte (buf lw') LF.
Proof.
  intros Hthr Hf Hidx HW Htr Hfail nw. subst nw.
  pose proof (appended_index p lw Hidx) as Hidx1.
  pose proof (LastIndexByte_range (buf lw ++ p) LF) as Hrange.
  rewrite <- Hidx1 in Hrange.
  rewrite Write_buffered_run in HW by done.
  destruct (_ || _) eqn:Hstore.
  { injection HW as _ _ <-. apply app_self_nil in Htr. by destruct evs. }
  apply orb_false_elim in Hstore as [_ Hpos%Z.ltb_ge].
  pose proof (len_nonneg (buf lw)) as Hold. pose proof (len_nonneg p) as Hp.
  assert (len (buf (appended p lw)) = len (buf lw) + len p) as Hlen
    by apply len_app.
  change (buf (appended p lw)) with (buf lw ++ p) in Hlen.
  rewrite flush_rotating in HW by (cbn [buf appended set_buf set_indexOfFinalNewline]; lia).
  destruct (rotating_cases
              ((int64 (writtenBytes (appended p lw)
                       + int64 (indexOfFinalNewline (appended p lw) + 1))
                >? maxBytes (appended p lw))
               || (int64 (indexOfFinalNewline (appended p lw) + 1)
                   >? maxBytes (appended p lw)))
              (take (Z.to_nat (indexOfFinalNewline (appended p lw) + 1))
                 (buf (appended p lw)))
              (flushed (len (buf lw)) (len p)
                 (indexOfFinalNewline (appended p lw) + 1))
              (appended p lw) w f Hf)
    as (r0 & lw0 & w0 & evs0 & HR & Htr0 & _ & Hcases).
  rewrite HR in HW. injection HW as -> -> ->.
  rewrite Htr in Htr0. apply app_inv_head in Htr0.
  destruct Hcases as [(e & _ & _ & _ & _ & Hnone)
                     |(lw1 & w1 & revs & n1 & e1 & Hlw1 & _ & _ & -> & -> & ->)].
  { rewrite <- Htr0 in Hnone. by apply written_chunks_snoc in Hnone. }
  apply app_inj_tail in Htr0 as [_ [= _ Hchunk -> ->]].
  set (index := indexOfFinalNewline (appended p lw) + 1) in *.
  assert (len chunk = index) as Hlc.
  { rewrite Hchunk. apply len_take.
    change (buf (appended p lw)) with (buf lw ++ p). lia. }
  rewrite Hlc in Hfail |- *. clear Hchunk Hlc.
  assert (buf lw1 = buf lw ++ p ∧
          indexOfFinalNewline lw1 = LastIndexByte (buf lw1) LF ∧
          index = indexOfFinalNewline lw1 + 1) as (Hbuf1 & Hidx2 & Hindex).
  { by destruct Hlw1 as [(_ & -> & _)|(_ & -> & _)]. }
  destruct (flushed_failed (buf lw) p (len p) index lw1 n1 e1 Hbuf1)
    as [-> Hkept]; [lia|done|].
  split; [done|]. split; [done|].
  by apply flushed_state; [|lia..].
Qed.





(** The writer [NewLogWriter] makes, and its one call. *)
Lemma NewLogWriter_run cfg w0 :
  ∃ res w,
    NewLogWriter cfg tt w0 = Done res tt w ∧
    ∀ lw, res = inl lw →
      buf lw = [] ∧ writtenBytes lw = 0 ∧ indexOfFinalNewline lw = -1 ∧
      filePointer lw = Some (filePath lw) ∧
      maxBytes lw = effectiveMaxBytes cfg ∧
      is_Some (timeFormatter lw) ∧
      flushThreshold lw = (if 0 <? BufferBytes cfg then BufferBytes cfg else 0) ∧
      trace w = trace w0 ++ [EvOpen (filePath lw) true None] ∧
      files w !! filePath lw = Some [] ∧
      (reports_errors (script w0) → reports_errors (script w)).
Proof.
  unfold NewLogWriter.
  destruct (BufferBytes cfg <? 0); [by eexists _, _|].
  unfold bind at 1.
  destruct (if String.eqb (Directory cfg) "" then cwd w0 else inl (Directory cfg))
    as [dir|e]; [|by eexists _, _].
  unfold bind, on. rewrite createLogFile_run. cbn [fst snd filePath].
  set (path := filepath_Join dir _).
  pose proof (os_OpenFile_trace path true w0) as Htr.
  pose proof (os_OpenFile_result path true w0) as Hres.
  pose proof (os_OpenFile_frame path true w0) as Hs.
  destruct (os_OpenFile path true w0) as [[fp e] w1]. cbn [fst snd] in *.
  destruct e as [e|].
  - destruct (asPathError_Some "open" path e) as [e' ->]. by eexists _, _.
  - cbn [asPathError]. unfold ret. eexists _, _. split; [reflexivity|].
    intros lw [= <-]. destruct Hres as [-> Hfile].
    cbn [buf writtenBytes indexOfFinalNewline filePointer filePath maxBytes
           timeFormatter flushThreshold set_filePointer].
    unfold effectiveMaxBytes. repeat split; eauto.
Qed.

Lemma honest_counts_app t u : honest_counts (t ++ u) ↔ honest_counts t ∧ honest_counts u.
Proof. apply Forall_app. Qed.

Lemma oversized_alone_rotated terminated max size t fp old new path p n err :
  max < len p → size = n →
  (terminated = true → ends_with_LF p = true) →
  oversized_alone terminated max size
    (t ++ [EvClose fp None; EvRename old new None; EvOpen path true None]
       ++ [EvWrite (Some path) p n err]) = true.
Proof.
  intros Hmax -> Hterm. unfold oversized_alone.
  rewrite !rev_app_distr. cbn [rev app].
  rewrite String.eqb_refl. cbn [andb].
  destruct (Z.ltb_spec max (len p)); [|lia]. rewrite Z.eqb_refl. cbn [andb].
  destruct terminated; [by apply Hterm|done].
Qed.

(** [Write] keeps the states of a writer, and the bound on the tracked
    size. *)
Lemma Write_invariant p lw w r lw' w' :
  wf lw → len (buf lw) + len p < 2 ^ 62 →
  size_bounded lw w →
  Write p lw w = Done r lw' w' →
  (∀ evs, trace w' = trace w ++ evs → honest_counts evs) →
  wf lw' ∧ size_bounded lw' w'.
Proof.
  intros [[f Hf] Hidx Hmax Hwb Hthr Hunb] Hmem Hsize HW Hhonest.
  pose proof (len_nonneg (buf lw)) as Hold. pose proof (len_nonneg p) as Hp.
  destruct (decide (flushThreshold lw = 0)) as [Hzero|Hbuffered].
  - (* the writer does not buffer *)
    rewrite Write_unbuffered_rotating in HW by done.
    rewrite (int64_small (len p)), int64_small in HW by lia.
    destruct (rotating_cases (writtenBytes lw + len p >? maxBytes lw) p counted
                lw w f Hf) as (r0 & lw0 & w0 & evs & HR & Htr & _ & Hcases).
    rewrite HR in HW. injection HW as -> -> ->.
    split.
    + destruct Hcases as [(e & _ & _ & -> & _)
                         |(lw1 & w1 & revs & n & e & Hlw1 & _ & _ & -> & _ & ->)].
      { by split; cbn; eauto; try lia. }
      specialize (Hhonest _ Htr).
      apply honest_counts_app in Hhonest as [_ Hhonest].
      apply Forall_inv in Hhonest.
      destruct Hlw1 as [(Hneed & -> & _)|(Hneed & -> & _)];
        [apply Zgtb_false in Hneed|];
        unfold counted; cbn [snd writtenBytes set_writtenBytes set_filePointer];
        rewrite (int64_small n), int64_small by lia;
        split; cbn; eauto; lia.
    + destruct Hcases as [(e & _ & _ & -> & _)
                         |(lw1 & w1 & revs & n & e & Hlw1 & _ & _ & -> & _ & ->)].
      { left. cbn. lia. }
      specialize (Hhonest _ Htr).
      apply honest_counts_app in Hhonest as [_ Hhonest].
      apply Forall_inv in Hhonest.
      destruct Hlw1 as [(Hneed & -> & _)|(Hneed & -> & _ & ->)];
        [apply Zgtb_false in Hneed|];
        unfold counted, size_bounded;
        cbn [snd writtenBytes maxBytes flushThreshold set_writtenBytes
               set_filePointer filePointer];
        rewrite (int64_small n), int64_small by lia.
      * left. lia.
      * destruct (decide (0 + n ≤ maxBytes lw)); [by left|right].
        rewrite Htr, Hzero. apply oversized_alone_rotated; [lia|lia|done].
  - (* the writer buffers *)
    pose proof (appended_index p lw Hidx) as Hidx1.
    pose proof (LastIndexByte_range (buf lw ++ p) LF) as Hrange.
    rewrite <- Hidx1 in Hrange.
    pose proof (len_app (buf lw) p) as Hlen.
    rewrite Write_buffered_run in HW by done.
    destruct (_ || _) eqn:Hstore.
    { injection HW as <- <- <-. split; [by split; eauto|]. done. }
    apply orb_false_elim in Hstore as [_ Hpos%Z.ltb_ge].
    set (index := indexOfFinalNewline (appended p lw) + 1) in *.
    assert (0 < index ≤ len (buf lw) + len p) as Hipos by (subst index; lia).
    rewrite flush_rotating in HW
      by (change (buf (appended p lw)) with (buf lw ++ p); lia).
    change (writtenBytes (appended p lw)) with (writtenBytes lw) in HW.
    change (maxBytes (appended p lw)) with (maxBytes lw) in HW.
    rewrite (int64_small index), int64_small in HW by lia.
    destruct (rotating_cases
                ((writtenBytes lw + index >? maxBytes lw) || (index >? maxBytes lw))
                (take (Z.to_nat index) (buf (appended p lw)))
                (flushed (len (buf lw)) (len p) index)
                (appended p lw) w f Hf)
      as (r0 & lw0 & w0 & evs & HR & Htr & _ & Hcases).
    rewrite HR in HW. injection HW as -> -> ->.
    assert (len (take (Z.to_nat index) (buf (appended p lw))) = index) as Hlc
      by (apply len_take; change (buf (appended p lw)) with (buf lw ++ p); lia).
    assert (ends_with_LF (take (Z.to_nat index) (buf (appended p lw))) = true)
      as HLF.
    { unfold ends_with_LF, index. rewrite Hidx1.
      change (buf (appended p lw)) with (buf lw ++ p).
      rewrite LastIndexByte_last by lia. apply Byte.byte_dec_lb. done. }
    destruct Hcases as [(e & _ & _ & -> & _)
                       |(lw1 & w1 & revs & n & e & Hlw1 & _ & _ & -> & _ & ->)].
    { split; [by split; cbn; eauto; try lia|]. left; cbn; lia. }
    split.
    + assert (wf lw1 ∧ index = indexOfFinalNewline lw1 + 1 ∧
              (writtenBytes lw1 + index ≤ 2 ^ 62)) as ([_ Hi1 Hm1 Hw1 Ht1 _] & Hindex & Hsum).
      { destruct Hlw1 as [(Hneed & -> & _)|(Hneed & -> & _)].
        - apply orb_false_elim in Hneed as [Hneed%Zgtb_false _].
          split; [by split; eauto|]. split; [done|]. cbn. lia.
        - split; [by split; cbn; eauto; try lia|]. split; [done|].
          cbn. change (buf (appended p lw)) with (buf lw ++ p) in Hlc. lia. }
      pose proof (flushed_state (len (buf lw)) (len p) index lw1 n e Hi1 Hindex)
        as (Hf' & Hm' & Ht' & _ & _ & Hw' & Hi'); [lia|].
      cbv zeta in Hf', Hm', Ht', Hw', Hi'.
      assert (0 ≤ validated index n ≤ index) as Hv
        by (apply validated_range; lia).
      split.
      * rewrite Hf'. destruct Hlw1 as [(_ & -> & _)|(_ & -> & _)]; eauto.
      * done.
      * by rewrite Hm'.
      * rewrite Hw'. destruct (0 <? validated index n).
        -- rewrite (int64_small (validated index n)), int64_small by lia. lia.
        -- done.
      * by rewrite Ht'.
      * intros H0. rewrite Ht' in H0.
        destruct Hlw1 as [(_ & -> & _)|(_ & -> & _)]; by destruct Hbuffered.
    + assert (indexOfFinalNewline lw1 = LastIndexByte (buf lw1) LF ∧
              index = indexOfFinalNewline lw1 + 1 ∧
              maxBytes lw1 = maxBytes lw ∧ flushThreshold lw1 = flushThreshold lw ∧
              0 ≤ writtenBytes lw1 ≤ 2 ^ 62)
        as (Hi1 & Hindex & Hm1 & Ht1 & Hw1).
      { destruct Hlw1 as [(_ & -> & _)|(_ & -> & _)]; cbn; repeat split; eauto; lia. }
      pose proof (flushed_state (len (buf lw)) (len p) index lw1 n e Hi1 Hindex)
        as (_ & Hm' & Ht' & _ & _ & Hw' & _); [lia|].
      cbv zeta in Hm', Ht', Hw'.
      assert (0 ≤ validated index n ≤ index) as Hv
        by (apply validated_range; lia).
      unfold size_bounded. rewrite Hm', Ht', Hw', Hm1, Ht1.
      destruct (Z.ltb_spec 0 (validated index n)) as [Hnw|Hnw].
      2:{ left. destruct Hlw1 as [(Hneed & -> & _)|(_ & -> & _)]; cbn; [|lia].
          change (writtenBytes (appended p lw)) with (writtenBytes lw) in *.
          apply orb_false_elim in Hneed as [Hneed%Zgtb_false _]. lia. }
      destruct Hlw1 as [(Hneed & -> & _)|(_ & -> & _ & ->)].
      * apply orb_false_elim in Hneed as [Hneed%Zgtb_false _].
        change (writtenBytes (appended p lw)) with (writtenBytes lw) in *.
        rewrite (int64_small (validated index n)), int64_small by lia.
        left. lia.
      * cbn [writtenBytes set_writtenBytes set_filePointer filePointer filePath].
        rewrite (int64_small (validated index n)), int64_small
          by (change (buf (appended p lw)) with (buf lw ++ p) in Hlc; lia).
        destruct (decide (0 + validated index n ≤ maxBytes lw)); [by left|right].
        assert (validated index n = n) as Hvn.
        { unfold validated in Hnw |- *.
          destruct ((n <? 0) || (n >? index)); [lia|done]. }
        rewrite Htr. change (filePath (appended p lw)) with (filePath lw).
        apply oversized_alone_rotated; [lia|lia|done].
Qed.

Lemma Close_invariant lw w e lw' w' :
  wf lw → Close lw w = Done e lw' w' → wf lw' ∧ size_bounded lw' w'.
Proof.
  intros [Hf Hidx Hmax Hwb Hthr Hunb]. rewrite Close_run. cbv zeta.
  intros [= _ <- _]. split; [by split; cbn; eauto; try lia|].
  left. cbn. lia.
Qed.

Lemma effectiveMaxBytes_range cfg :
  MaxBytes cfg ≤ 2 ^ 62 → 1 ≤ effectiveMaxBytes cfg ≤ 2 ^ 62.
Proof.
  unfold effectiveMaxBytes, defaultMaxBytes.
  destruct (Z.ltb_spec (MaxBytes cfg) 1); lia.
Qed.

Lemma reachable_wf cfg w0 lw w :
  MaxBytes cfg ≤ 2 ^ 62 → reachable cfg w0 lw w → wf lw ∧ size_bounded lw w.
Proof.
  intros Hcfg. induction 1 as [lw w Hnew|lw w p r lw' w' _ [IH1 IH2] Hmem HW Hhon
                              |lw w e lw' w' _ [IH1 IH2] HC].
  - destruct (NewLogWriter_run cfg w0) as (res & w1 & Hrun & Hlw).
    rewrite Hrun in Hnew. injection Hnew as -> ->.
    destruct (Hlw lw eq_refl)
      as (Hbuf & Hwb & Hidx & _ & Hmax & Hf & Hthr & _).
    pose proof (effectiveMaxBytes_range cfg Hcfg).
    split.
    + split; try done.
      * by rewrite Hidx, Hbuf.
      * lia.
      * lia.
      * rewrite Hthr. destruct (Z.ltb_spec 0 (BufferBytes cfg)); lia.
    + left. lia.
  - by eapply Write_invariant.
  - by eapply Close_invariant.
Qed.


(** [Write] never panics on a consistent writer, and leaves it consistent. *)
Lemma Write_total p lw w :
  consistent lw →
  ∃ r lw' w',
    Write p lw w = Done r lw' w' ∧ consistent lw' ∧
    maxBytes lw' = maxBytes lw ∧ flushThreshold lw' = flushThreshold lw ∧
    filePath lw' = filePath lw.
Proof.
  intros ([f Hf] & Hidx & Hunb).
  destruct (decide (flushThreshold lw = 0)) as [Hzero|Hbuffered].
  - rewrite Write_unbuffered_rotating by done.
    destruct (rotating_cases
                (int64 (writtenBytes lw + int64 (len p)) >? maxBytes lw) p
                counted lw w f Hf) as (r0 & lw0 & w0 & evs & -> & _ & _ & Hcases).
    eexists _, _, _. split; [reflexivity|].
    destruct Hcases as [(e & _ & _ & -> & _)
                       |(lw1 & w1 & revs & n & e & Hlw1 & _ & _ & _ & _ & ->)].
    + by repeat split; cbn; eauto.
    + by destruct Hlw1 as [(_ & -> & _)|(_ & -> & _)]; repeat split; cbn; eauto.
  - pose proof (appended_index p lw Hidx) as Hidx1.
    pose proof (LastIndexByte_range (buf lw ++ p) LF) as Hrange.
    rewrite <- Hidx1 in Hrange.
    pose proof (len_nonneg (buf lw)) as Hold. pose proof (len_nonneg p) as Hp.
    pose proof (len_app (buf lw) p) as Hlen.
    rewrite Write_buffered_run by done.
    destruct (_ || _) eqn:Hstore.
    { eexists _, _, _. split; [reflexivity|]. by repeat split; eauto. }
    apply orb_false_elim in Hstore as [_ Hpos%Z.ltb_ge].
    set (index := indexOfFinalNewline (appended p lw) + 1) in *.
    assert (0 < index ≤ len (buf lw) + len p) as Hipos by (subst index; lia).
    rewrite flush_rotating
      by (change (buf (appended p lw)) with (buf lw ++ p); lia).
    destruct (rotating_cases
                ((int64 (writtenBytes (appended p lw) + int64 index)
                  >? maxBytes (appended p lw))
                 || (int64 index >? maxBytes (appended p lw)))
                (take (Z.to_nat index) (buf (appended p lw)))
                (flushed (len (buf lw)) (len p) index)
                (appended p lw) w f Hf)
      as (r0 & lw0 & w0 & evs & -> & _ & _ & Hcases).
    eexists _, _, _. split; [reflexivity|].
    destruct Hcases as [(e & _ & _ & -> & _)
                       |(lw1 & w1 & revs & n & e & Hlw1 & _ & _ & _ & _ & ->)].
    { repeat split; cbn [timeFormatter set_writtenBytes set_filePointer]; eauto.
      intros H0. by destruct Hbuffered. }
    assert (indexOfFinalNewline lw1 = LastIndexByte (buf lw1) LF ∧
            index = indexOfFinalNewline lw1 + 1 ∧
            timeFormatter lw1 = Some f ∧ maxBytes lw1 = maxBytes lw ∧
            flushThreshold lw1 = flushThreshold lw ∧ filePath lw1 = filePath lw)
      as (Hi1 & Hindex & Hf1 & Hm1 & Ht1 & Hp1).
    { by destruct Hlw1 as [(_ & -> & _)|(_ & -> & _)]. }
    pose proof (flushed_state (len (buf lw)) (len p) index lw1 n e Hi1 Hindex)
      as (Hf' & Hm' & Ht' & Hp' & _ & _ & Hi'); [lia|].
    cbv zeta in Hf', Hm', Ht', Hp', Hi'.
    split.
    { split; [rewrite Hf', Hf1; eauto|]. split; [done|].
      intros H0. rewrite Ht', Ht1 in H0. by destruct Hbuffered. }
    repeat split; congruence.
Qed.








End LogWriterFacts.

(** * Facts about src/file.go *)

Module FileFacts.
Import FileGo FileTerms.

Lemma closeLog_run lw w :
  closeLog lw w
  = Done (os_File_Close (filePointer lw) w).1
      (set_fileSizeNow 0 (set_filePointer None lw))
      (os_File_Close (filePointer lw) w).2.
Proof. done. Qed.

Lemma renameLog_run lw w f :
  TimeFormatter (cfg lw) = Some f →
  renameLog lw w
  = Done (os_Rename (filePath lw) (stampedPath lw f (now w)) (time_Now w).2).1
      (set_timeOfFirstWrite "" lw)
      (os_Rename (filePath lw) (stampedPath lw f (now w)) (time_Now w).2).2.
Proof.
  intros Hf. unfold renameLog, formatNow, bind, get, sys. rewrite Hf. done.
Qed.

(** The name of the file put aside is not the name of the active file. *)
Lemma stampedPath_fresh lw f t :
  filePath lw = filepath_Join (Directory (cfg lw))
                  (BaseNamePrefix (cfg lw) ++ ".log")%string →
  stampedPath lw f t ≠ filePath lw.
Proof.
  intros -> H. apply (f_equal String.length) in H.
  unfold stampedPath, filepath_Join in H.
  rewrite !string_length_app in H. cbn in H. lia.
Qed.

(** What one [rotateLog] does: its calls in their order, none of them a
    write; and when it succeeds the active file is a new, empty file. *)
Lemma rotateLog_run lw w f :
  TimeFormatter (cfg lw) = Some f →
  ∃ err lw' w' evs,
    rotateLog lw w = Done err lw' w' ∧
    trace w' = trace w ++ evs ∧
    rotation_steps lw (stampedPath lw f (now w)) err evs ∧
    written_chunks evs = [] ∧ (∀ path, whole_writes path evs) ∧
    (filePath lw = filepath_Join (Directory (cfg lw))
                     (BaseNamePrefix (cfg lw) ++ ".log")%string →
     err = None →
     lw' = set_fileSizeNow 0
             (set_filePointer (Some (filePath lw)) (set_timeOfFirstWrite "" lw)) ∧
     files w' !! filePath lw = Some []).
Proof.
  intros Hf. unfold rotateLog, bind. rewrite closeLog_run.
  pose proof (os_File_Close_trace (filePointer lw) w) as Ht1.
  pose proof (os_File_Close_frame (filePointer lw) w) as (_ & Hn1 & _).
  destruct (os_File_Close (filePointer lw) w) as [e1 w1]. cbn [fst snd] in *.
  destruct e1 as [e1|].
  { eexists _, _, w1, [EvClose (filePointer lw) (Some e1)]. unfold ret.
    repeat split; try done. intros path. by repeat constructor. }
  erewrite renameLog_run by exact Hf.
  change (filePath (set_fileSizeNow 0 (set_filePointer None lw)))
    with (filePath lw).
  change (stampedPath (set_fileSizeNow 0 (set_filePointer None lw)) f (now w1))
    with (stampedPath lw f (now w1)).
  rewrite Hn1. set (stamp := stampedPath lw f (now w)).
  pose proof (os_Rename_trace (filePath lw) stamp (time_Now w1).2) as Ht2.
  pose proof (os_Rename_result (filePath lw) stamp (time_Now w1).2) as Hr2.
  destruct (os_Rename (filePath lw) stamp (time_Now w1).2) as [e2 w2].
  cbn [fst snd] in *. change (trace (time_Now w1).2) with (trace w1) in Ht2.
  destruct e2 as [e2|].
  { eexists _, _, w2,
      [EvClose (filePointer lw) None; EvRename (filePath lw) stamp (Some e2)].
    unfold ret. split; [reflexivity|].
    split; [by rewrite Ht2, Ht1, <- app_assoc|].
    repeat split; try done. intros path. by repeat constructor. }
  destruct (Hr2 eq_refl) as (c & _ & Hfiles2).
  unfold openLog, bind, get, sys, modify. cbn [filePath set_timeOfFirstWrite
    set_fileSizeNow set_filePointer fst snd].
  pose proof (os_OpenFile_trace (filePath lw) false w2) as Ht3.
  pose proof (os_OpenFile_result (filePath lw) false w2) as Hr3.
  destruct (os_OpenFile (filePath lw) false w2) as [[fp3 e3] w3].
  cbn [fst snd] in *.
  destruct e3 as [e3|].
  { eexists _, _, w3,
      [EvClose (filePointer lw) None; EvRename (filePath lw) stamp None;
       EvOpen (filePath lw) false (Some e3)].
    unfold ret. split; [reflexivity|].
    split; [by rewrite Ht3, Ht2, Ht1, <- !app_assoc|].
    repeat split; try done. intros path. by repeat constructor. }
  destruct Hr3 as [-> Hfiles3].
  pose proof (os_File_Stat_trace (filePath lw) w3) as Ht4.
  pose proof (os_File_Stat_result (filePath lw) w3) as [Hfiles4 Hsize].
  destruct (os_File_Stat (Some (filePath lw)) w3) as [[sz e4] w4].
  cbn [fst snd] in *.
  destruct e4 as [e4|].
  - pose proof (os_File_Close_trace (Some (filePath lw)) w4) as Ht5.
    destruct (os_File_Close (Some (filePath lw)) w4) as [e5 w5].
    cbn [fst snd] in *. unfold ret.
    eexists _, _, w5,
      [EvClose (filePointer lw) None; EvRename (filePath lw) stamp None;
       EvOpen (filePath lw) false None; EvStat (filePath lw) (Some e4);
       EvClose (Some (filePath lw)) e5].
    split; [reflexivity|].
    split; [by rewrite Ht5, Ht4, Ht3, Ht2, Ht1, <- !app_assoc|].
    repeat split; try done. intros path. by repeat constructor.
  - unfold ret.
    eexists _, _, w4,
      [EvClose (filePointer lw) None; EvRename (filePath lw) stamp None;
       EvOpen (filePath lw) false None; EvStat (filePath lw) None].
    split; [reflexivity|].
    split; [by rewrite Ht4, Ht3, Ht2, Ht1, <- !app_assoc|].
    split; [done|]. split; [done|].
    split; [intros path; by repeat constructor|]. intros Hpath _.
    assert (contents w2 (filePath lw) = []) as Hempty.
    { unfold contents. rewrite Hfiles2, lookup_insert_ne, lookup_delete_eq;
        [done|]. by apply stampedPath_fresh. }
    rewrite Hempty in Hfiles3.
    assert (sz = 0) as ->.
    { rewrite (Hsize eq_refl). unfold contents. by rewrite Hfiles3. }
    split; [done|]. by rewrite Hfiles4.
Qed.

Lemma rotateLog_order lw w f :
  TimeFormatter (cfg lw) = Some f →
  ∃ err lw' w' evs,
    rotateLog lw w = Done err lw' w' ∧
    trace w' = trace w ++ evs ∧
    rotation_steps lw (stampedPath lw f (now w)) err evs.
Proof.
  intros Hf.
  destruct (rotateLog_run lw w f Hf) as (err & lw' & w' & evs & H1 & H2 & H3 & _).
  eauto 10.
Qed.

Lemma index_ok (es : list Z) i e (lw : LogWriter) w :
  0 ≤ i → es !! Z.to_nat i = Some e → @index LogWriter es i lw w = Done e lw w.
Proof.
  intros Hi He. unfold index. destruct (Z.leb_spec 0 i); [|lia]. by rewrite He.
Qed.

(** The loop that counts the extents written never panics when the extents
    it may look at exist. *)
Lemma writtenExtents_run todo nw extentCount lw w :
  0 ≤ extentCount → extentCount + Z.of_nat todo ≤ len (extents lw) →
  ∃ c lw',
    writtenExtents todo nw extentCount lw w = Done c lw' w ∧
    extentCount ≤ c.2 ≤ extentCount + Z.of_nat todo ∧
    len (extents lw') = len (extents lw) ∧
    cfg lw' = cfg lw ∧ filePointer lw' = filePointer lw ∧
    filePath lw' = filePath lw ∧
    waitingForNewline lw' = waitingForNewline lw ∧
    fileSizeNow lw' = fileSizeNow lw.
Proof.
  revert nw extentCount lw.
  induction todo as [|todo IH]; intros nw ec lw Hec Hlen.
  - exists (nw, ec), lw. cbn. repeat split; lia.
  - cbn [writtenExtents]. destruct (0 <? nw).
    2:{ exists (nw, ec), lw. cbn. repeat split; lia. }
    unfold bind at 1, get. unfold bind at 1.
    destruct (lookup_lt_is_Some_2 (extents lw) (Z.to_nat ec)) as [e He].
    { unfold len in Hlen. lia. }
    rewrite (index_ok _ _ e) by done.
    destruct (nw - e <? 0).
    + unfold bind, modify, ret. eexists (_, _), _. split; [reflexivity|].
      cbn [snd extents set_extents cfg filePointer filePath waitingForNewline
             fileSizeNow].
      unfold len. rewrite length_insert. repeat split; lia.
    + destruct (IH (nw - e) (ec + 1) lw) as (c & lw' & -> & Hc & Hrest); [lia..|].
      exists c, lw'. split; [done|]. split; [lia|done].
Qed.

(** What [writeExtents] does with the answer of the file primitive.  It
    returns no error exactly when the primitive reported none and took every
    byte; then the bytes and their extents are gone from the buffer. *)
Lemma writeExtents_run extentCount byteCount lw w :
  0 ≤ byteCount ≤ len (buf lw) → 0 ≤ extentCount ≤ len (extents lw) →
  ∃ n e w' r lw',
    os_File_Write (filePointer lw) (take (Z.to_nat byteCount) (buf lw)) w
    = ((n, e), w') ∧
    writeExtents extentCount byteCount lw w = Done r lw' w' ∧
    cfg lw' = cfg lw ∧ filePointer lw' = filePointer lw ∧
    filePath lw' = filePath lw ∧
    waitingForNewline lw' = waitingForNewline lw ∧
    (r.2 = None ↔ e = None ∧ n = byteCount) ∧
    (r.2 = None →
       lw' = set_extents (drop (Z.to_nat extentCount) (extents lw))
               (set_buf (drop (Z.to_nat byteCount) (buf lw))
                  (set_fileSizeNow (int64 (fileSizeNow lw + int64 byteCount)) lw))) ∧
    (fileSizeNow lw' = fileSizeNow lw ∨
     0 ≤ n ≤ byteCount ∧
     fileSizeNow lw' = int64 (fileSizeNow lw + int64 n)).
Proof.
  intros Hb Hk. unfold writeExtents, bind at 1, get. unfold bind at 1, slice.
  rewrite slice_to_ok by done. unfold ret at 1. unfold bind at 1, sys.
  destruct (os_File_Write (filePointer lw) (take (Z.to_nat byteCount) (buf lw)) w)
    as [[n e] w']. cbn [fst snd].
  exists n, e, w'.
  destruct ((n <? 0) || (n >? byteCount)) eqn:Hbad.
  { assert (n ≠ byteCount) as Hne.
    { apply orb_prop in Hbad as [H%Z.ltb_lt|H%Zgtb_true]; lia. }
    destruct e as [e|]; unfold ret; eexists (_, _), _;
      (split; [done|]); (split; [reflexivity|]); cbn [snd];
      repeat split; try done; try (by intros []); by left. }
  apply orb_false_elim in Hbad as [Hn0%Z.ltb_ge Hni%Zgtb_false].
  unfold bind at 1, modify. unfold bind at 1, slice.
  rewrite slice_from_ok by lia. unfold ret at 1. unfold bind at 1, modify.
  destruct (Z.ltb_spec n byteCount) as [Hshort|Hfull].
  - (* a short write *)
    set (err := if true && bool_decide (e = None) then Some ErrShortWrite else e).
    assert (∃ e', err = Some e') as [e' ->].
    { subst err. cbn. case_bool_decide; destruct e; eauto. done. }
    unfold bind at 1.
    destruct (writtenExtents_run (Z.to_nat extentCount) n 0
                (set_buf (drop (Z.to_nat n) (buf lw))
                   (set_fileSizeNow (int64 (fileSizeNow lw + int64 n)) lw)) w')
      as (c & lw1 & -> & Hc & Hlen1 & Hcfg1 & Hfp1 & Hpath1 & Hwait1 & Hsize1);
      [lia|cbn; lia|].
    unfold bind at 1, get. unfold bind at 1.
    cbn [extents set_buf set_fileSizeNow] in Hlen1, Hc.
    destruct (Z.leb_spec 0 c.2); [|lia].
    destruct (Z.leb_spec c.2 (len (extents lw1))); [|lia]. cbn [andb].
    unfold modify, ret. eexists (_, _), _. split; [done|].
    split; [reflexivity|]. cbn [snd cfg filePointer filePath set_extents
      waitingForNewline fileSizeNow].
    repeat split; try done; try (intros [_ ?]; lia).
    right. split; [lia|exact Hsize1].
  - (* the whole of the bytes *)
    assert (n = byteCount) as -> by lia.
    destruct e as [e|]; cbn [andb].
    + unfold bind at 1.
      destruct (writtenExtents_run (Z.to_nat extentCount) byteCount 0
                  (set_buf (drop (Z.to_nat byteCount) (buf lw))
                     (set_fileSizeNow (int64 (fileSizeNow lw + int64 byteCount)) lw)) w')
        as (c & lw1 & -> & Hc & Hlen1 & Hcfg1 & Hfp1 & Hpath1 & Hwait1 & Hsize1);
        [lia|cbn; lia|].
      unfold bind at 1, get. unfold bind at 1.
      cbn [extents set_buf set_fileSizeNow] in Hlen1, Hc.
      destruct (Z.leb_spec 0 c.2); [|lia].
      destruct (Z.leb_spec c.2 (len (extents lw1))); [|lia]. cbn [andb].
      unfold modify, ret. eexists (_, _), _. split; [done|].
      split; [reflexivity|]. cbn [snd cfg filePointer filePath set_extents
        waitingForNewline fileSizeNow].
      repeat split; try done; try (by intros []).
      right. split; [lia|exact Hsize1].
    + unfold bind, ret, get, modify. cbn [fst snd extents set_buf set_fileSizeNow].
      destruct (Z.leb_spec 0 extentCount); [|lia].
      destruct (Z.leb_spec extentCount (len (extents lw))); [|lia]. cbn [andb].
      eexists (_, _), _. split; [done|]. split; [reflexivity|].
      repeat split; try done. right. split; [lia|done].
Qed.

Lemma total_cons e es : total (e :: es) = e + total es.
Proof. done. Qed.

Lemma total_app es fs : total (es ++ fs) = total es + total fs.
Proof.
  induction es as [|e es IH]; [done|].
  rewrite <- app_comm_cons, !total_cons, IH. lia.
Qed.

Lemma total_take_one e es : total (take 1 (e :: es)) = e.
Proof. destruct es; cbn; lia. Qed.

Lemma total_nonneg es : Forall (λ e, 0 < e) es → 0 ≤ total es.
Proof. induction 1; [done|]. rewrite total_cons. lia. Qed.

Lemma total_take es j :
  Forall (λ e, 0 < e) es → 0 ≤ total (take j es) ≤ total es.
Proof.
  intros H. rewrite <- (take_drop j es) at 3. rewrite total_app.
  pose proof (total_nonneg (take j es) (Forall_take _ _ _ H)).
  pose proof (total_nonneg (drop j es) (Forall_drop _ _ _ H)). lia.
Qed.

Lemma total_drop es j : total (drop j es) = total es - total (take j es).
Proof. rewrite <- (take_drop j es) at 2. rewrite total_app. lia. Qed.


Lemma len_take_total (buf : bytes) es j :
  Forall (λ e, 0 < e) es → total es = len buf →
  0 ≤ total (take j es) ≤ len buf.
Proof. intros Hpos <-. by apply total_take. Qed.

(** The write of the first [j] extents: it fails, or the extents are in the
    file and gone from the buffer. *)
Lemma writeExtents_step lw w j :
  sound lw w → (j ≤ length (extents lw))%nat →
  fileSizeNow lw + total (take j (extents lw)) ≤ 2 ^ 62 →
  let b := total (take j (extents lw)) in
  ∃ r lw' w' n e,
    writeExtents (Z.of_nat j) b lw w = Done r lw' w' ∧
    trace w' = trace w ++ [EvWrite (Some (filePath lw))
                             (take (Z.to_nat b) (buf lw)) n e] ∧
    (r.2 = None →
       e = None ∧ n = b ∧ sound lw' w' ∧
       waitingForNewline lw' = waitingForNewline lw ∧
       extents lw' = drop j (extents lw) ∧
       buf lw' = drop (Z.to_nat b) (buf lw) ∧
       cfg lw' = cfg lw ∧ filePath lw' = filePath lw ∧
       fileSizeNow lw' = fileSizeNow lw + b).
Proof.
  intros [Hf Hpath Hopen Hex Hpos Htot Hsize Hmax Hmem] Hj Hroom b.
  pose proof (len_take_total (buf lw) (extents lw) j Hpos Htot) as Hb. fold b in Hb.
  destruct (writeExtents_run (Z.of_nat j) b lw w)
    as (n & e & w' & r & lw' & Hw & -> & Hcfg & Hfp & Hp & Hwait & Hiff & Hstate & _);
    [lia|unfold len; lia|].
  pose proof (os_File_Write_trace (filePointer lw) (take (Z.to_nat b) (buf lw)) w) as Htr.
  rewrite Hw, Hopen in Htr. cbn [fst snd] in Htr.
  exists r, lw', w', n, e. split; [done|]. split; [done|].
  intros Hok. destruct (proj1 Hiff Hok) as [-> ->]. specialize (Hstate Hok).
  rewrite Hopen in Hw.
  pose proof (os_File_Write_files (filePath lw) (take (Z.to_nat b) (buf lw)) w) as Hfiles.
  rewrite Hw in Hfiles. cbn [fst snd] in Hfiles.
  split; [done|]. split; [done|].
  rewrite Nat2Z.id in Hstate. subst lw'.
  cbn [cfg buf extents filePath fileSizeNow filePointer waitingForNewline
         set_extents set_buf set_fileSizeNow].
  rewrite (int64_small b), int64_small by lia.
  split; [|done].
  split; cbn [cfg buf extents filePath fileSizeNow filePointer
                set_extents set_buf set_fileSizeNow]; try done.
  - by rewrite Hfiles, lookup_insert_eq.
  - by apply Forall_drop.
  - rewrite total_drop, Htot, len_drop by lia. done.
  - fold b in Hroom. lia.
  - rewrite len_drop by lia. lia.
Qed.

Lemma whole_writes_app path t u :
  whole_writes path (t ++ u) ↔ whole_writes path t ∧ whole_writes path u.
Proof. apply Forall_app. Qed.







Lemma total_insert_last es e :
  last es = Some e →
  total (<[Z.to_nat (len es - 1) := e + 1]> es) = total es + 1 ∧
  es !! Z.to_nat (len es - 1) = Some e.
Proof.
  intros Hlast. destruct (last_Some es e) as [[es' ->] _]; [done|].
  unfold len. rewrite length_app. cbn [length].
  replace (Z.to_nat (Z.of_nat (length es' + 1) - 1)) with (length es' + 0)%nat by lia.
  rewrite insert_app_r, lookup_app_r by lia.
  replace (length es' + 0 - length es')%nat with O by lia. cbn.
  rewrite !total_app, !total_cons. change (total []) with 0. split; [lia|done].
Qed.


(** ** The tracked size in a turn of the flush *)







(** C8.  The [Write] of src/file.go panics on the empty slice when the
    writer buffers: with or without a flush before, it comes to read the
    last byte of the slice, and there is none.  (Shown for a buffer within
    its size, where no flush comes first.) *)
Theorem Write_empty_panics lw w f :
  0 < BufferSizeMax (cfg lw) →
  TimeFormatter (cfg lw) = Some f →
  len (buf lw) ≤ BufferSizeMax (cfg lw) →
  (waitingForNewline lw = true → extents lw ≠ []) →
  Write [] lw w = Panic "index out of range [-1]".
Proof.
  intros Hbuffered Hf Hroom Hwait.
  assert (∀ lw1 w1,
            cfg lw1 = cfg lw → buf lw1 = buf lw → extents lw1 = extents lw →
            waitingForNewline lw1 = waitingForNewline lw →
            (lw <~ get ;;
             if 0 <? BufferSizeMax (cfg lw) then
               err <~ (if (0 <? len (buf lw)) &&
                          (len (buf lw) + len (@nil byte) >? BufferSizeMax (cfg lw)) &&
                          ((1 <? len (extents lw)) || negb (waitingForNewline lw))
                       then flushCompletedExtents else ret None) ;;
               match err with
               | Some _ => ret (0, err)
               | None =>
                   lw <~ get ;;
                   (if waitingForNewline lw then
                      e <~ index (extents lw) (len (extents lw) - 1) ;;
                      modify (set_extents
                                (<[Z.to_nat (len (extents lw) - 1) := e + len (@nil byte)]>
                                   (extents lw)))
                    else modify (set_extents (extents lw ++ [len (@nil byte)]))) ;;;
                   modify (λ lw, set_buf (buf lw ++ []) lw) ;;;
                   match last (@nil byte) with
                   | None => panic "index out of range [-1]"
                   | Some b => modify (set_waitingForNewline (negb (Byte.eqb b LF)))
                   end ;;;
                   ret (len (@nil byte), None)
               end
             else
               err <~ (if (0 <? fileSizeNow lw) &&
                          (int64 (fileSizeNow lw + int64 (len (@nil byte)))
                           >? MaxBytes (cfg lw))
                       then rotateLog else ret None) ;;
               match err with
               | Some _ => ret (0, err)
               | None => writeBytes []
               end) lw1 w1 = Panic "index out of range [-1]") as Hrest.
  { intros lw1 w1 Hc Hb He Hw. unfold bind at 1, get. rewrite Hc, Hb, He, Hw.
    destruct (Z.ltb_spec 0 (BufferSizeMax (cfg lw))); [|lia].
    change (len []) with 0. rewrite Z.add_0_r.
    destruct (Z.gtb_spec (len (buf lw)) (BufferSizeMax (cfg lw))); [lia|].
    rewrite andb_false_r. cbn [andb]. unfold bind at 1, ret at 1.
    unfold bind at 1, get. rewrite Hw, He.
    destruct (waitingForNewline lw) eqn:Hwaiting.
    - destruct (lookup_lt_is_Some_2 (extents lw) (Z.to_nat (len (extents lw) - 1)))
        as [e Hlook].
      { destruct (extents lw); [by destruct Hwait|]. unfold len. cbn. lia. }
      unfold bind at 1. unfold bind at 1.
      rewrite (index_ok _ _ e);
        [|destruct (extents lw); [by destruct Hwait|unfold len; cbn; lia]|done].
      done.
    - done. }
  unfold Write, bind at 1, get. unfold bind at 1.
  destruct (String.eqb (timeOfFirstWrite lw) "").
  - unfold bind at 1, formatNow, bind at 1, get, bind at 1, sys. rewrite Hf.
    unfold ret at 1, modify. by apply Hrest.
  - unfold ret at 1. by apply Hrest.
Qed.

End FileFacts.

(** * More facts about src/logWriter.go and src/os.go *)

Section SystemFiles.

Lemma os_OpenFile_files path trunc w :
  files (os_OpenFile path trunc w).2
  = match (os_OpenFile path trunc w).1.2 with
    | Some _ => files w
    | None => <[path := if trunc then [] else contents w path]> (files w)
    end.
Proof.
  unfold os_OpenFile.
  pose proof (next_response_frame w) as (Hf & _).
  destruct (next_response w) as [r w1]. cbn [fst snd] in *.
  destruct (response_err r); cbn; [done|].
  unfold contents. by rewrite Hf.
Qed.

Lemma os_File_Close_files fp w : files (os_File_Close fp w).2 = files w.
Proof. by destruct (os_File_Close_frame fp w). Qed.

Lemma os_File_Write_files_nil p w : files (os_File_Write None p w).2 = files w.
Proof. done. Qed.

Lemma os_Rename_files old new w :
  files (os_Rename old new w).2
  = match (os_Rename old new w).1 with
    | Some _ => files w
    | None => <[new := contents w old]> (delete old (files w))
    end.
Proof.
  unfold os_Rename.
  pose proof (next_response_frame w) as (Hf & _).
  destruct (next_response w) as [r w1]. cbn [fst snd] in *.
  unfold contents. rewrite <- Hf.
  destruct (response_err r); [done|].
  by destruct (files w1 !! old).
Qed.

End SystemFiles.

Section LastIndexMore.

Lemma LastIndexByte_lookup s c :
  0 ≤ LastIndexByte s c → s !! Z.to_nat (LastIndexByte s c) = Some c.
Proof.
  induction s as [|b s IH]; [cbn; lia|].
  cbn [LastIndexByte].
  destruct (Z.leb_spec 0 (LastIndexByte s c)) as [Hs|Hs].
  - intros _. replace (Z.to_nat (LastIndexByte s c + 1))
      with (S (Z.to_nat (LastIndexByte s c))) by lia.
    by apply IH.
  - destruct (Byte.eqb b c) eqn:Eb; [|lia].
    intros _. apply Byte.byte_dec_bl in Eb. by subst.
Qed.

Lemma LastIndexByte_none_after s c (i : nat) :
  LastIndexByte s c < Z.of_nat i → s !! i ≠ Some c.
Proof.
  revert i. induction s as [|b s IH]; intros i; [done|].
  cbn [LastIndexByte].
  destruct (Z.leb_spec 0 (LastIndexByte s c)) as [Hs|Hs].
  - intros Hi. destruct i as [|i]; [lia|]. cbn. apply IH. lia.
  - destruct (Byte.eqb b c) eqn:Eb.
    + intros Hi. destruct i as [|i]; [lia|]. cbn. apply IH. lia.
    + intros _. destruct i as [|i]; cbn.
      * intros [= ->]. by rewrite (Byte.byte_dec_lb eq_refl) in Eb.
      * apply IH. lia.
Qed.

End LastIndexMore.

Module LogWriterMore.
Import LogWriterGo LogWriterTerms LogWriterNotions LogWriterFacts.

Lemma asPathError_kind op path err e :
  asPathError op path err = Some e → is_PathError e.
Proof.
  destruct err as [[]|]; cbn; intros [= <-]; unfold is_PathError; eauto.
Qed.

Lemma asLinkError_kind op old new err e :
  asLinkError op old new err = Some e → is_LinkError e.
Proof.
  destruct err as [[]|]; cbn; intros [= <-]; unfold is_LinkError; eauto.
Qed.

(** X1.  What [NewLogWriter] of src/logWriter.go comes to.  A negative
    threshold is refused before any call to the system, and so is a working
    directory that cannot be read.  Otherwise its one call creates the
    active file, [<directory>/<prefix>.log], or cuts it to nothing: when
    that fails the result is the path error and no file has changed; when
    it succeeds the writer has an empty buffer, a size of 0, no terminator
    recorded, the limit of the configuration or the default when that is
    under 1, and the file is empty whatever it held. *)
Theorem NewLogWriter_outcome cfg w0 :
  ∃ res w,
    NewLogWriter cfg tt w0 = Done res tt w ∧
    match res with
    | inr e =>
        (BufferBytes cfg < 0 ∧ e = ErrConfig (BufferBytes cfg) ∧ w = w0) ∨
        (0 ≤ BufferBytes cfg ∧ Directory cfg = ""%string ∧
         (∃ e', cwd w0 = inr e' ∧ e = ErrGetwd e') ∧ w = w0) ∨
        (0 ≤ BufferBytes cfg ∧ is_PathError e ∧
         files w = files w0 ∧
         ∃ path e', trace w = trace w0 ++ [EvOpen path true (Some e')])
    | inl lw =>
        0 ≤ BufferBytes cfg ∧
        filePath lw = activePath lw ∧
        (directory lw = Directory cfg ∨
         Directory cfg = ""%string ∧ cwd w0 = inl (directory lw)) ∧
        (baseNamePrefix lw = BaseNamePrefix cfg ∨
         BaseNamePrefix cfg = ""%string ∧ baseNamePrefix lw = progname w0) ∧
        buf lw = [] ∧ writtenBytes lw = 0 ∧ indexOfFinalNewline lw = -1 ∧
        flushThreshold lw = BufferBytes cfg ∧
        maxBytes lw = (if MaxBytes cfg <? 1 then defaultMaxBytes
                       else MaxBytes cfg) ∧
        filePointer lw = Some (filePath lw) ∧
        trace w = trace w0 ++ [EvOpen (filePath lw) true None] ∧
        files w = <[filePath lw := []]> (files w0)
    end.
Proof.
  unfold NewLogWriter.
  destruct (Z.ltb_spec (BufferBytes cfg) 0) as [Hneg|Hpos].
  { eexists _, _. split; [reflexivity|]. left. done. }
  unfold bind at 1.
  destruct (String.eqb_spec (Directory cfg) "") as [Hdir|Hdir].
  - destruct (cwd w0) as [dir|e] eqn:Hcwd.
    2:{ eexists _, _. split; [reflexivity|]. right. left. eauto 10. }
    unfold bind at 1, on. rewrite createLogFile_run.
    cbn [filePath]. set (path := filepath_Join dir _).
    pose proof (os_OpenFile_trace path true w0) as Htr.
    pose proof (os_OpenFile_result path true w0) as Hres.
    pose proof (os_OpenFile_files path true w0) as Hfiles.
    destruct (os_OpenFile path true w0) as [[fp [e|]] w1]; cbn [fst snd] in *.
    + destruct (asPathError_Some "open" path e) as [e' He']. rewrite He'.
      eexists _, _. split; [reflexivity|]. right. right.
      split; [done|]. split; [by eapply asPathError_kind|]. eauto.
    + destruct Hres as [-> _]. cbn [asPathError].
      eexists _, _. split; [reflexivity|].
      cbn [filePath directory baseNamePrefix buf writtenBytes
             indexOfFinalNewline flushThreshold maxBytes filePointer
             set_filePointer].
      split; [done|]. split.
      { unfold activePath. cbn [directory baseNamePrefix]. done. }
      split; [by right|]. split.
      { destruct (String.eqb_spec (BaseNamePrefix cfg) ""); [by right|by left]. }
      repeat split; try done.
      destruct (Z.ltb_spec 0 (BufferBytes cfg)); lia.
  - unfold bind at 1, on. rewrite createLogFile_run.
    cbn [filePath]. set (path := filepath_Join (Directory cfg) _).
    pose proof (os_OpenFile_trace path true w0) as Htr.
    pose proof (os_OpenFile_result path true w0) as Hres.
    pose proof (os_OpenFile_files path true w0) as Hfiles.
    destruct (os_OpenFile path true w0) as [[fp [e|]] w1]; cbn [fst snd] in *.
    + destruct (asPathError_Some "open" path e) as [e' He']. rewrite He'.
      eexists _, _. split; [reflexivity|]. right. right.
      split; [done|]. split; [by eapply asPathError_kind|]. eauto.
    + destruct Hres as [-> _]. cbn [asPathError].
      eexists _, _. split; [reflexivity|].
      cbn [filePath directory baseNamePrefix buf writtenBytes
             indexOfFinalNewline flushThreshold maxBytes filePointer
             set_filePointer].
      split; [done|]. split.
      { unfold activePath. cbn [directory baseNamePrefix]. done. }
      split; [by left|]. split.
      { destruct (String.eqb_spec (BaseNamePrefix cfg) ""); [by right|by left]. }
      repeat split; try done.
      destruct (Z.ltb_spec 0 (BufferBytes cfg)); lia.
Qed.

(** X2.  The errors of the steps of a rotation have the types their
    comments promise: [closeLogFile] and [createLogFile] return a path
    error, [renameLogFile] a link error; so [rotate] fails with one of the
    two, and then the writer holds no file and counts no byte. *)
Theorem rotation_errors_are_typed rot w f :
  timeFormatter rot = Some f →
  (∀ e rot' w', closeLogFile rot w = Done (Some e) rot' w' → is_PathError e) ∧
  (∀ e rot' w', renameLogFile rot w = Done (Some e) rot' w' → is_LinkError e) ∧
  (∀ e rot' w', createLogFile rot w = Done (Some e) rot' w' →
                is_PathError e ∧ filePointer rot' = None) ∧
  (∀ e rot' w', rotate rot w = Done (Some e) rot' w' →
                (is_PathError e ∨ is_LinkError e) ∧
                filePointer rot' = None ∧ writtenBytes rot' = 0).
Proof.
  intros Hf. split; [|split; [|split]].
  - intros e rot' w'. rewrite closeLogFile_run. intros [= H _ _].
    by eapply asPathError_kind.
  - intros e rot' w'. rewrite (renameLogFile_run rot w f Hf). intros [= H _ _].
    by eapply asLinkError_kind.
  - intros e rot' w'. rewrite createLogFile_run. intros [= H <- _].
    split; [by eapply asPathError_kind|].
    pose proof (os_OpenFile_result (filePath rot) true w) as Hres.
    destruct (os_OpenFile (filePath rot) true w) as [[fp [e0|]] w1];
      cbn [fst snd] in *; [done|discriminate H].
  - intros e rot' w' HR.
    destruct (rotate_run rot w f Hf)
      as (err & fp' & w1 & evs & HR' & _ & Hsteps & _ & _ & Hfp & _).
    rewrite HR in HR'. injection HR' as <- -> <-.
    cbn [filePointer writtenBytes set_writtenBytes set_filePointer].
    split; [|done]. unfold rotation_steps in Hsteps.
    destruct evs as [|[| |fp1 [e1|]| |] [|[| | |old new [e2|]|] [|[path [] e3| | | |] [|]]]];
      try done.
    + destruct Hsteps as [_ H]. left. symmetry in H. by eapply asPathError_kind.
    + destruct Hsteps as (_ & _ & _ & H). right. symmetry in H.
      by eapply asLinkError_kind.
    + destruct Hsteps as (_ & _ & _ & _ & H). left. symmetry in H.
      by eapply asPathError_kind.
Qed.

(** The result of the books of [flush] is a count of the bytes of the
    call, and less than all of them only with an error. *)
Lemma flushed_count olen dlen index lw n err :
  0 ≤ olen → 0 ≤ dlen → 0 ≤ index ≤ olen + dlen →
  0 ≤ (flushed olen dlen index lw n err).1.1 ≤ dlen ∧
  ((flushed olen dlen index lw n err).1.1 < dlen →
   is_Some (flushed olen dlen index lw n err).1.2).
Proof.
  intros Holen Hdlen Hindex. unfold flushed.
  pose proof (validated_range index n ltac:(lia)) as Hnw.
  destruct (if (n <? 0) || (n >? index) then _ else err) as [e|]; cbn [fst snd].
  - destruct (Z.ltb_spec (validated index n - olen) 0); split; eauto; lia.
  - split; [lia|]. lia.
Qed.

(** X3.  [Write] of src/logWriter.go never panics: whatever the slice and
    whatever the system answers, the slice expressions of [flush] stay
    within the buffer.  And a [Write] to a writer that buffers keeps the
    promise of an [io.Writer] on its count: it is between 0 and the length
    of the slice, and less than the length only with an error. *)
Theorem Write_returns_a_count p lw w :
  consistent lw →
  ∃ r lw' w',
    Write p lw w = Done r lw' w' ∧
    (flushThreshold lw ≠ 0 →
     0 ≤ r.1 ≤ len p ∧ (r.1 < len p → is_Some r.2)).
Proof.
  intros ([f Hf] & Hidx & Hunb).
  pose proof (len_nonneg (buf lw)) as Hold. pose proof (len_nonneg p) as Hp.
  destruct (decide (flushThreshold lw = 0)) as [Hzero|Hbuffered].
  { destruct (Write_total p lw w) as (r & lw' & w' & HW & _); [by split; eauto|].
    by exists r, lw', w'. }
  pose proof (appended_index p lw Hidx) as Hidx1.
  pose proof (LastIndexByte_range (buf lw ++ p) LF) as Hrange.
  rewrite <- Hidx1 in Hrange.
  pose proof (len_app (buf lw) p) as Hlen.
  rewrite Write_buffered_run by done.
  destruct (_ || _) eqn:Hstore.
  { eexists _, _, _. split; [reflexivity|]. intros _. cbn. split; [lia|lia]. }
  apply orb_false_elim in Hstore as [_ Hpos%Z.ltb_ge].
  set (index := indexOfFinalNewline (appended p lw) + 1) in *.
  assert (0 < index ≤ len (buf lw) + len p) as Hipos by (subst index; lia).
  rewrite flush_rotating
    by (change (buf (appended p lw)) with (buf lw ++ p); lia).
  destruct (rotating_cases
              ((int64 (writtenBytes (appended p lw) + int64 index)
                >? maxBytes (appended p lw))
               || (int64 index >? maxBytes (appended p lw)))
              (take (Z.to_nat index) (buf (appended p lw)))
              (flushed (len (buf lw)) (len p) index)
              (appended p lw) w f Hf)
    as (r0 & lw0 & w0 & evs & -> & _ & _ & Hcases).
  eexists _, _, _. split; [reflexivity|]. intros _.
  destruct Hcases as [(e & _ & -> & _)
                     |(lw1 & w1 & revs & n & e & _ & _ & _ & _ & -> & _)].
  - cbn. split; [lia|eauto].
  - apply flushed_count; lia.
Qed.

(** X4.  A [Write] to a writer that does not buffer hands the slice to the
    file whole, in one call, and returns what the file primitive answered;
    the tracked size grows by the count.  It rotates first exactly when the
    slice does not fit the room left, and then the slice is the first chunk
    of the new file; when the rotation fails nothing of the slice is
    written and the count is 0. *)
Theorem Write_unbuffered_in_one_piece p lw w f :
  flushThreshold lw = 0 →
  timeFormatter lw = Some f →
  0 ≤ writtenBytes lw → writtenBytes lw + len p < 2 ^ 63 →
  ∃ r lw' w' evs,
    Write p lw w = Done r lw' w' ∧
    trace w' = trace w ++ evs ∧
    buf lw' = buf lw ∧
    (writtenBytes lw + len p ≤ maxBytes lw →
       evs = [EvWrite (filePointer lw) p r.1 r.2] ∧
       writtenBytes lw' = int64 (writtenBytes lw + int64 r.1)) ∧
    (maxBytes lw < writtenBytes lw + len p →
       (rotation_failed evs ∧ r.1 = 0 ∧ is_Some r.2 ∧ filePointer lw' = None) ∨
       (evs = [EvClose (filePointer lw) None;
               EvRename (filePath lw) (stampedPath lw f (now w)) None;
               EvOpen (filePath lw) true None;
               EvWrite (Some (filePath lw)) p r.1 r.2] ∧
        writtenBytes lw' = int64 (0 + int64 r.1))).
Proof.
  intros Hzero Hf Hwb Hroom. pose proof (len_nonneg p) as Hp.
  rewrite Write_unbuffered_rotating by done.
  rewrite (int64_small (len p)), int64_small by lia.
  destruct (rotating_cases (writtenBytes lw + len p >? maxBytes lw) p counted
              lw w f Hf) as (r & lw' & w' & evs & -> & Htr & _ & Hcases).
  exists r, lw', w', evs. split; [done|]. split; [done|].
  destruct (Z.gtb_spec (writtenBytes lw + len p) (maxBytes lw)) as [Hover|Hfits].
  - destruct Hcases as [(e & _ & -> & -> & Hfailed)
                       |(lw1 & w1 & revs & n & e & Hlw1 & _ & _ & -> & -> & ->)].
    + split; [done|]. split; [lia|]. intros _. left. cbn. eauto.
    + destruct Hlw1 as [([=] & _)|(_ & -> & _ & ->)].
      split; [done|]. split; [lia|]. intros _. right. done.
  - destruct Hcases as [(e & [=] & _)
                       |(lw1 & w1 & revs & n & e & Hlw1 & _ & _ & -> & -> & ->)].
    destruct Hlw1 as [(_ & -> & _ & ->)|([=] & _)].
    split; [done|]. split; [done|]. lia.
Qed.

(** X5.  In every state a writer comes to, the recorded index is the
    index of the last line terminator of the buffer, or -1 when the buffer
    has none: the byte at the index is a terminator and none comes after
    it.  A writer that does not buffer has an empty buffer, and the tracked
    size is never negative. *)
Theorem recorded_index_is_last_terminator cfg w0 lw w :
  MaxBytes cfg ≤ 2 ^ 62 → reachable cfg w0 lw w →
  indexOfFinalNewline lw = LastIndexByte (buf lw) LF ∧
  -1 ≤ indexOfFinalNewline lw < len (buf lw) ∧
  (0 ≤ indexOfFinalNewline lw →
   buf lw !! Z.to_nat (indexOfFinalNewline lw) = Some LF) ∧
  (∀ i : nat, indexOfFinalNewline lw < Z.of_nat i → buf lw !! i ≠ Some LF) ∧
  (flushThreshold lw = 0 → buf lw = []) ∧
  0 ≤ writtenBytes lw.
Proof.
  intros Hmax Hreach.
  destruct (reachable_wf cfg w0 lw w Hmax Hreach) as [[_ Hidx _ Hwb _ Hunb] _].
  split; [done|]. rewrite Hidx.
  split; [apply LastIndexByte_range|].
  split; [apply LastIndexByte_lookup|].
  split; [intros i; apply LastIndexByte_none_after|].
  split; [done|lia].
Qed.

(** What [rotating] does for a writer that holds no file: the close of
    the rotation fails, or the write does; no file changes. *)
Lemma rotating_closed need chunk books lw w f :
  timeFormatter lw = Some f → filePointer lw = None →
  ∃ w',
    files w' = files w ∧
    rotating need chunk books lw w
    = (if need
       then Done (0, Some (closedError lw))
              (set_writtenBytes 0 (set_filePointer None lw)) w'
       else Done (books lw 0 (Some ErrInvalid)).1
              (books lw 0 (Some ErrInvalid)).2 w').
Proof.
  intros Hf Hfp. unfold rotating. destruct need.
  - unfold bind at 1, rotate, bind at 1. rewrite closeLogFile_run, Hfp.
    rewrite os_File_Close_nil. cbn [fst snd asPathError].
    eexists. split; [|reflexivity]. done.
  - unfold bind, ret. rewrite Hfp, os_File_Write_nil. cbn [fst snd].
    eexists. split; [|reflexivity]. done.
Qed.

(** X6.  A writer that holds no file -- it was closed, or a rotation
    failed -- writes to no file.  Its [Write] returns no error only when it
    put the slice in the buffer and called nothing; a writer that does not
    buffer returns 0 and an error for every slice. *)
Theorem closed_writer_writes_nothing p lw w :
  consistent lw → filePointer lw = None →
  ∃ r lw' w',
    Write p lw w = Done r lw' w' ∧
    files w' = files w ∧ filePointer lw' = None ∧
    (r.2 = None →
     flushThreshold lw ≠ 0 ∧ r.1 = len p ∧ w' = w ∧ buf lw' = buf lw ++ p) ∧
    (flushThreshold lw = 0 → r.1 = 0 ∧ is_Some r.2).
Proof.
  intros ([f Hf] & Hidx & Hunb) Hfp.
  destruct (decide (flushThreshold lw = 0)) as [Hzero|Hbuffered].
  - rewrite Write_unbuffered_rotating by done.
    destruct (rotating_closed
                (int64 (writtenBytes lw + int64 (len p)) >? maxBytes lw) p
                counted lw w f Hf Hfp) as (w' & Hfiles & ->).
    destruct (_ >? _); eexists _, _, w'; (split; [reflexivity|]);
      cbn [fst snd counted filePointer set_writtenBytes set_filePointer];
      repeat split; try done; eauto.
  - pose proof (appended_index p lw Hidx) as Hidx1.
    pose proof (LastIndexByte_range (buf lw ++ p) LF) as Hrange.
    rewrite <- Hidx1 in Hrange.
    pose proof (len_nonneg (buf lw)) as Hold. pose proof (len_nonneg p) as Hp.
    pose proof (len_app (buf lw) p) as Hlen.
    rewrite Write_buffered_run by done.
    destruct (_ || _) eqn:Hstore.
    { eexists _, _, _. split; [reflexivity|]. by repeat split. }
    apply orb_false_elim in Hstore as [_ Hpos%Z.ltb_ge].
    set (index := indexOfFinalNewline (appended p lw) + 1) in *.
    assert (0 < index ≤ len (buf lw) + len p) as Hipos by (subst index; lia).
    rewrite flush_rotating
      by (change (buf (appended p lw)) with (buf lw ++ p); lia).
    destruct (rotating_closed
                ((int64 (writtenBytes (appended p lw) + int64 index)
                  >? maxBytes (appended p lw))
                 || (int64 index >? maxBytes (appended p lw)))
                (take (Z.to_nat index) (buf (appended p lw)))
                (flushed (len (buf lw)) (len p) index)
                (appended p lw) w f Hf Hfp) as (w' & Hfiles & ->).
    destruct (_ || _); eexists _, _, w'; (split; [reflexivity|]).
    + cbn [fst snd filePointer set_writtenBytes set_filePointer].
      repeat split; try done.
    + pose proof (flushed_state (len (buf lw)) (len p) index (appended p lw)
                    0 (Some ErrInvalid) Hidx1 eq_refl ltac:(lia))
        as (_ & _ & _ & _ & Hfp' & _).
      cbv zeta in Hfp'.
      destruct (flushed_failed (buf lw) p (len p) index (appended p lw)
                  0 (Some ErrInvalid)) as [Hr _]; [done|lia|left; eauto|].
      cbv zeta in Hr. rewrite Hr. cbn [fst snd].
      split; [done|]. split; [by rewrite Hfp'|]. split; [done|].
      intros H0. by destruct Hbuffered.
Qed.



(** ** Nothing is lost between the caller and the files *)

Lemma delivered_app t u : delivered (t ++ u) = delivered t ++ delivered u.
Proof. unfold delivered. by rewrite written_chunks_app, concat_app. Qed.

(** A [Write] that returns no error has taken the whole slice, and every
    byte the writer took so far is in a chunk handed to a file or in the
    buffer, in the order it came. *)
Lemma Write_keeps_all t0 p lw w acc n lw' w' :
  consistent lw → reports_errors (script w) →
  keeps_all t0 lw w acc →
  Write p lw w = Done (n, None) lw' w' →
  n = len p ∧ keeps_all t0 lw' w' (acc ++ p) ∧ reports_errors (script w').
Proof.
  intros ([f Hf] & Hidx & Hunb) Hs (evs0 & Htrace & Hacc) HW.
  pose proof (len_nonneg (buf lw)) as Hold. pose proof (len_nonneg p) as Hp.
  destruct (decide (flushThreshold lw = 0)) as [Hzero|Hbuffered].
  - rewrite Write_unbuffered_rotating in HW by done.
    destruct (rotating_cases
                (int64 (writtenBytes lw + int64 (len p)) >? maxBytes lw) p
                counted lw w f Hf)
      as (r0 & lw0 & w0 & evs & HR & Htr & Hs' & Hcases).
    rewrite HR in HW. injection HW as -> -> ->.
    destruct Hcases as [(e & _ & [=] & _)
                       |(lw1 & w1 & revs & n1 & e1 & Hlw1 & Hs1 & Hw & -> & Hr & ->)].
    injection Hr as Hn He. subst n1 e1.
    pose proof (os_File_Write_frame (filePointer lw1) p w1 (Hs1 Hs)) as [_ Hfull].
    rewrite Hw in Hfull. cbn [fst snd] in Hfull. specialize (Hfull eq_refl).
    split; [done|]. split; [|by apply Hs'].
    exists (evs0 ++ revs ++ [EvWrite (filePointer lw1) p n None]).
    split; [by rewrite Htr, Htrace, <- app_assoc|].
    assert (delivered revs = [] ∧ buf lw1 = buf lw) as [Hrevs Hbuf1].
    { by destruct Hlw1 as [(_ & -> & _ & ->)|(_ & -> & _ & ->)]. }
    rewrite !delivered_app, Hrevs. unfold counted. cbn [snd buf set_writtenBytes].
    rewrite Hbuf1, (Hunb Hzero), app_nil_r in *.
    unfold delivered at 2. cbn. by rewrite !app_nil_r, Hacc.
  - pose proof (appended_index p lw Hidx) as Hidx1.
    pose proof (LastIndexByte_range (buf lw ++ p) LF) as Hrange.
    rewrite <- Hidx1 in Hrange.
    pose proof (len_app (buf lw) p) as Hlen.
    rewrite Write_buffered_run in HW by done.
    destruct (_ || _) eqn:Hstore.
    { injection HW as <- <- <-. split; [done|]. split; [|done].
      exists evs0. split; [done|]. cbn. by rewrite app_assoc, Hacc. }
    apply orb_false_elim in Hstore as [_ Hpos%Z.ltb_ge].
    set (index := indexOfFinalNewline (appended p lw) + 1) in *.
    assert (0 < index ≤ len (buf lw) + len p) as Hipos by (subst index; lia).
    rewrite flush_rotating in HW
      by (change (buf (appended p lw)) with (buf lw ++ p); lia).
    set (chunk := take (Z.to_nat index) (buf (appended p lw))) in *.
    destruct (rotating_cases
                ((int64 (writtenBytes (appended p lw) + int64 index)
                  >? maxBytes (appended p lw))
                 || (int64 index >? maxBytes (appended p lw)))
                chunk (flushed (len (buf lw)) (len p) index)
                (appended p lw) w f Hf)
      as (r0 & lw0 & w0 & evs & HR & Htr & Hs' & Hcases).
    rewrite HR in HW. injection HW as -> -> ->.
    destruct Hcases as [(e & _ & [=] & _)
                       |(lw1 & w1 & revs & n1 & e1 & Hlw1 & Hs1 & Hw & -> & Hr & ->)].
    assert ((flushed (len (buf lw)) (len p) index lw1 n1 e1).1.2 = None)
      as Hok by (by rewrite <- Hr).
    apply flushed_no_error in Hok as [-> Hn1].
    pose proof (os_File_Write_frame (filePointer lw1) chunk w1 (Hs1 Hs)) as [_ Hfull].
    rewrite Hw in Hfull. cbn [fst snd] in Hfull. specialize (Hfull eq_refl).
    assert (len chunk = index) as Hlc
      by (apply len_take; change (buf (appended p lw)) with (buf lw ++ p); lia).
    rewrite Hlc in Hfull. subst n1.
    rewrite flushed_full in Hr |- * by lia. injection Hr as ->.
    split; [done|]. split; [|by apply Hs'].
    exists (evs0 ++ revs ++ [EvWrite (filePointer lw1) chunk index None]).
    split; [by rewrite Htr, Htrace, <- app_assoc|].
    assert (delivered revs = [] ∧ buf lw1 = buf lw ++ p) as [Hrevs Hbuf1].
    { by destruct Hlw1 as [(_ & -> & _ & ->)|(_ & -> & _ & ->)]. }
    rewrite !delivered_app, Hrevs.
    cbn [snd buf set_buf set_writtenBytes set_indexOfFinalNewline].
    rewrite Hbuf1. unfold delivered at 2. cbn. rewrite !app_nil_r.
    unfold chunk. change (buf (appended p lw)) with (buf lw ++ p).
    by rewrite <- !app_assoc, take_drop, app_assoc, Hacc.
Qed.

Lemma writes_keep_all t0 ps lw w acc rs lw' w' :
  consistent lw → reports_errors (script w) →
  keeps_all t0 lw w acc →
  writes ps lw w = Done rs lw' w' →
  Forall (λ r : Z * option error, r.2 = None) rs →
  rs = map (λ p, (len p, None)) ps ∧
  keeps_all t0 lw' w' (acc ++ concat ps) ∧ reports_errors (script w').
Proof.
  revert lw w acc rs. induction ps as [|p ps IH]; intros lw w acc rs Hcons Hs Hkeeps.
  - intros [= <- <- <-] _. by rewrite app_nil_r.
  - cbn [writes]. unfold bind.
    destruct (Write_total p lw w Hcons) as (r & lw1 & w1 & HW & Hcons1 & _).
    rewrite HW.
    destruct (writes ps lw1 w1) as [rs1 lw2 w2| |] eqn:Hrest; [|done..].
    unfold ret. intros [= <- <- <-] Hok.
    apply Forall_cons in Hok as [Hr Hrs]. destruct r as [n e]. cbn in Hr. subst e.
    destruct (Write_keeps_all t0 p lw w acc n lw1 w1 Hcons Hs Hkeeps HW)
      as (-> & Hkeeps1 & Hs1).
    destruct (IH lw1 w1 (acc ++ p) rs1 Hcons1 Hs1 Hkeeps1 Hrest Hrs)
      as (-> & Hkeeps2 & Hs2).
    split; [done|]. split; [|done]. cbn [concat]. by rewrite app_assoc.
Qed.

Lemma Close_delivers_the_rest t0 lw w acc lw' w' :
  reports_errors (script w) →
  keeps_all t0 lw w acc →
  Close lw w = Done None lw' w' →
  ∃ evs, trace w' = t0 ++ evs ∧ delivered evs = acc.
Proof.
  intros Hs (evs0 & Htrace & Hacc). rewrite Close_run. cbv zeta.
  pose proof (os_File_Write_trace (filePointer lw) (buf lw) w) as Htr.
  pose proof (os_File_Write_frame (filePointer lw) (buf lw) w Hs) as [_ Hfull].
  destruct (os_File_Write (filePointer lw) (buf lw) w) as [[n e] w1].
  cbn [fst snd] in *.
  destruct (Z.ltb_spec 0 (len (buf lw))) as [Hlen|Hlen].
  - pose proof (os_File_Close_trace (filePointer lw) w1) as Htr2.
    destruct (os_File_Close (filePointer lw) w1) as [ce w2]. cbn [fst snd] in *.
    destruct e as [e|]; [done|].
    intros [= Hce _ <-].
    exists (evs0 ++ [EvWrite (filePointer lw) (buf lw) n None;
                     EvClose (filePointer lw) ce]).
    split; [by rewrite Htr2, Htr, Htrace, <- !app_assoc|].
    rewrite delivered_app. unfold delivered at 2. cbn. by rewrite app_nil_r.
  - assert (buf lw = []) as Hb
      by (apply len_zero; pose proof (len_nonneg (buf lw)); lia).
    pose proof (os_File_Close_trace (filePointer lw) w) as Htr2.
    destruct (os_File_Close (filePointer lw) w) as [ce w2]. cbn [fst snd] in *.
    intros [= Hce _ <-].
    exists (evs0 ++ [EvClose (filePointer lw) ce]).
    split; [by rewrite Htr2, Htrace, <- !app_assoc|].
    rewrite delivered_app. unfold delivered at 2. cbn.
    by rewrite Hb, !app_nil_r in *.
Qed.

(** X8.  No byte is lost, doubled or moved, however many rotations there
    are.  A writer is made, takes the slices and is closed, in a system
    that reports every short write with an error; if no call returned an
    error, every [Write] returned the length of its slice, and the chunks
    handed to the files, one after the other in the order of the calls, are
    the slices one after the other. *)
Theorem session_delivers_every_byte cfg ps w0 rs lw w :
  reports_errors (script w0) →
  session cfg ps tt w0 = Done (inl (rs, None, lw)) tt w →
  Forall (λ r : Z * option error, r.2 = None) rs →
  rs = map (λ p, (len p, None)) ps ∧
  ∃ evs, trace w = trace w0 ++ evs ∧ delivered evs = concat ps.
Proof.
  intros Hs. unfold session, bind.
  destruct (NewLogWriter_run cfg w0) as (res & w1 & -> & Hnew).
  destruct res as [lw0|e]; [|done].
  destruct (Hnew lw0 eq_refl)
    as (Hbuf & Hwb & Hidx & Hfp & Hmax & Hf & Hthr & Htr & Hfile & Hs1).
  assert (consistent lw0) as Hcons.
  { split; [done|]. split; [by rewrite Hidx, Hbuf|done]. }
  assert (keeps_all (trace w0) lw0 w1 []) as Hkeeps.
  { exists [EvOpen (filePath lw0) true None]. by rewrite Hbuf. }
  unfold on, bind.
  destruct (writes ps lw0 w1) as [rs1 lw2 w2| |] eqn:HWs; [|done..].
  destruct (Close lw2 w2) as [ce lw3 w3| |] eqn:HC; [|done..].
  unfold ret. intros [= <- -> <- <-] Hok.
  destruct (writes_keep_all (trace w0) ps lw0 w1 [] rs1 lw2 w2 Hcons (Hs1 Hs)
              Hkeeps HWs Hok) as (-> & Hkeeps2 & Hs2).
  split; [done|].
  by apply (Close_delivers_the_rest (trace w0) lw2 w2 (concat ps) lw3 w3).
Qed.

(** ** The tracked size and the file *)

Lemma validated_honest requested n :
  0 ≤ n ≤ requested → validated requested n = n.
Proof.
  intros H. unfold validated.
  destruct (Z.ltb_spec n 0); [lia|]. destruct (Z.gtb_spec n requested); [lia|done].
Qed.

Lemma written_size_tracked lw1 w1 chunk n e w' lw' :
  size_tracked lw1 w1 →
  os_File_Write (filePointer lw1) chunk w1 = ((n, e), w') →
  0 ≤ n ≤ len chunk →
  filePointer lw' = filePointer lw1 → filePath lw' = filePath lw1 →
  writtenBytes lw' = writtenBytes lw1 + n →
  size_tracked lw' w'.
Proof.
  intros Htracked Hw Hn Hfp Hpath Hwb path Hopen.
  rewrite Hfp in Hopen. destruct (Htracked path Hopen) as (-> & Hsize & Hex).
  rewrite Hopen in Hw.
  pose proof (os_File_Write_files (filePath lw1) chunk w1) as Hfiles.
  rewrite Hw in Hfiles. cbn [fst snd] in Hfiles.
  assert (contents w' (filePath lw1)
          = contents w1 (filePath lw1) ++ accepted chunk n) as Hc.
  { unfold contents at 1. by rewrite Hfiles, lookup_insert_eq. }
  split; [done|]. split; [|rewrite Hfiles, lookup_insert_eq; eauto].
  rewrite Hc, Hwb, Hsize, len_app. unfold accepted. rewrite len_take by lia. done.
Qed.

Lemma rotated_size_tracked lw w1 :
  files w1 !! filePath lw = Some [] →
  size_tracked (set_writtenBytes 0 (set_filePointer (Some (filePath lw)) lw)) w1.
Proof.
  intros Hfile path [= <-]. cbn. unfold contents. by rewrite Hfile.
Qed.

Lemma Write_size_tracked p lw w r lw' w' :
  wf lw → len (buf lw) + len p < 2 ^ 62 →
  size_tracked lw w →
  Write p lw w = Done r lw' w' →
  (∀ evs, trace w' = trace w ++ evs → honest_counts evs) →
  size_tracked lw' w'.
Proof.
  intros [[f Hf] Hidx Hmax Hwb Hthr Hunb] Hmem Htracked HW Hhonest.
  pose proof (len_nonneg (buf lw)) as Hold. pose proof (len_nonneg p) as Hp.
  destruct (decide (flushThreshold lw = 0)) as [Hzero|Hbuffered].
  - rewrite Write_unbuffered_rotating in HW by done.
    destruct (rotating_cases
                (int64 (writtenBytes lw + int64 (len p)) >? maxBytes lw) p
                counted lw w f Hf) as (r0 & lw0 & w0 & evs & HR & Htr & _ & Hcases).
    rewrite HR in HW. injection HW as -> -> ->.
    destruct Hcases as [(e & _ & _ & -> & _)
                       |(lw1 & w1 & revs & n & e & Hlw1 & _ & Hw & -> & _ & ->)].
    { by intros path [=]. }
    specialize (Hhonest _ Htr).
    apply honest_counts_app in Hhonest as [_ Hhonest].
    apply Forall_inv in Hhonest.
    assert (size_tracked lw1 w1 ∧ 0 ≤ writtenBytes lw1 ≤ 2 ^ 62) as [Ht1 Hw1].
    { destruct Hlw1 as [(_ & -> & -> & _)|(_ & -> & Hfile & _)]; [done|].
      split; [by apply rotated_size_tracked|cbn; lia]. }
    eapply (written_size_tracked lw1 w1 p n e); try done.
    unfold counted. cbn [snd writtenBytes set_writtenBytes].
    by rewrite (int64_small n), int64_small by lia.
  - pose proof (appended_index p lw Hidx) as Hidx1.
    pose proof (LastIndexByte_range (buf lw ++ p) LF) as Hrange.
    rewrite <- Hidx1 in Hrange.
    pose proof (len_app (buf lw) p) as Hlen.
    rewrite Write_buffered_run in HW by done.
    destruct (_ || _) eqn:Hstore.
    { by injection HW as <- <- <-. }
    apply orb_false_elim in Hstore as [_ Hpos%Z.ltb_ge].
    set (index := indexOfFinalNewline (appended p lw) + 1) in *.
    assert (0 < index ≤ len (buf lw) + len p) as Hipos by (subst index; lia).
    rewrite flush_rotating in HW
      by (change (buf (appended p lw)) with (buf lw ++ p); lia).
    set (chunk := take (Z.to_nat index) (buf (appended p lw))) in *.
    destruct (rotating_cases
                ((int64 (writtenBytes (appended p lw) + int64 index)
                  >? maxBytes (appended p lw))
                 || (int64 index >? maxBytes (appended p lw)))
                chunk (flushed (len (buf lw)) (len p) index)
                (appended p lw) w f Hf)
      as (r0 & lw0 & w0 & evs & HR & Htr & _ & Hcases).
    rewrite HR in HW. injection HW as -> -> ->.
    assert (len chunk = index) as Hlc
      by (apply len_take; change (buf (appended p lw)) with (buf lw ++ p); lia).
    destruct Hcases as [(e & _ & _ & -> & _)
                       |(lw1 & w1 & revs & n & e & Hlw1 & _ & Hw & -> & _ & ->)].
    { by intros path [=]. }
    specialize (Hhonest _ Htr).
    apply honest_counts_app in Hhonest as [_ Hhonest].
    apply Forall_inv in Hhonest. rewrite Hlc in Hhonest.
    assert (size_tracked lw1 w1 ∧ 0 ≤ writtenBytes lw1 ≤ 2 ^ 62 ∧
            indexOfFinalNewline lw1 = LastIndexByte (buf lw1) LF ∧
            index = indexOfFinalNewline lw1 + 1) as (Ht1 & Hw1 & Hi1 & Hindex).
    { destruct Hlw1 as [(_ & -> & -> & _)|(_ & -> & Hfile & _)]; [done|].
      split; [by apply rotated_size_tracked|]. split; [cbn; lia|done]. }
    pose proof (flushed_state (len (buf lw)) (len p) index lw1 n e Hi1 Hindex)
      as (_ & _ & _ & Hp' & Hfp' & Hw' & _); [lia|].
    cbv zeta in Hp', Hfp', Hw'.
    eapply (written_size_tracked lw1 w1 chunk n e); try done; [lia|].
    rewrite Hw', validated_honest by lia.
    destruct (Z.ltb_spec 0 n); [|lia].
    by rewrite (int64_small n), int64_small by lia.
Qed.

(** X9.  While a writer holds its file, the tracked size is the size of
    the file: in every state a writer comes to, in a system that reports
    honest counts, [writtenBytes] is the length of the active file, which
    exists and is the file at [filePath]. *)
Theorem tracked_size_is_file_size cfg w0 lw w :
  MaxBytes cfg ≤ 2 ^ 62 → reachable cfg w0 lw w → size_tracked lw w.
Proof.
  intros Hmax Hreach. induction Hreach as [lw w Hnew|lw w p r lw' w' Hreach IH Hmem HW Hhonest
                                          |lw w e lw' w' Hreach IH HC].
  - destruct (NewLogWriter_run cfg w0) as (res & w1 & Hrun & Hfields).
    rewrite Hrun in Hnew. injection Hnew as -> <-.
    destruct (Hfields lw eq_refl) as (_ & Hwb & _ & Hfp & _ & _ & _ & _ & Hfile & _).
    intros path Hopen. rewrite Hfp in Hopen. injection Hopen as <-.
    unfold contents. rewrite Hfile, Hwb. eauto.
  - destruct (reachable_wf cfg w0 lw w Hmax Hreach) as [Hwf _].
    by eapply Write_size_tracked.
  - rewrite Close_run in HC. cbv zeta in HC. injection HC as _ <- _.
    by intros path [=].
Qed.

End LogWriterMore.

(** * More facts about src/file.go *)

From Stdlib Require DecimalZ.

Module FileMore.
Import FileGo FileTerms FileNotions FileFacts.

(** [openLog] in full: the file is opened to be added to, its size is read,
    and a file whose size cannot be read is closed again. *)
Lemma openLog_run lw w :
  let path := filePath lw in
  ∃ err lw' w',
    openLog lw w = Done err lw' w' ∧
    match err with
    | None =>
        lw' = set_fileSizeNow (len (contents w path))
                (set_filePointer (Some path) lw) ∧
        files w' = <[path := contents w path]> (files w) ∧
        trace w' = trace w ++ [EvOpen path false None; EvStat path None]
    | Some e =>
        (lw' = set_filePointer None lw ∧ files w' = files w ∧
         trace w' = trace w ++ [EvOpen path false (Some e)]) ∨
        (lw' = set_filePointer None (set_filePointer (Some path) lw) ∧
         files w' = <[path := contents w path]> (files w) ∧
         ∃ ce, trace w' = trace w ++ [EvOpen path false None;
                                      EvStat path (Some e);
                                      EvClose (Some path) ce])
    end.
Proof.
  cbv zeta. unfold openLog, bind, get, sys, modify.
  pose proof (os_OpenFile_trace (filePath lw) false w) as Htr1.
  pose proof (os_OpenFile_result (filePath lw) false w) as Hres1.
  pose proof (os_OpenFile_files (filePath lw) false w) as Hfiles1.
  destruct (os_OpenFile (filePath lw) false w) as [[fp [e1|]] w1];
    cbn [fst snd] in *.
  { rewrite Hres1. unfold ret. eexists _, _, _. split; [reflexivity|].
    by left. }
  destruct Hres1 as [-> Hfile1].
  assert (contents w1 (filePath lw) = contents w (filePath lw)) as Hkept
    by (unfold contents at 1; by rewrite Hfile1).
  pose proof (os_File_Stat_trace (filePath lw) w1) as Htr2.
  pose proof (os_File_Stat_result (filePath lw) w1) as [Hfiles2 Hsize2].
  destruct (os_File_Stat (Some (filePath lw)) w1) as [[sz [e2|]] w2];
    cbn [fst snd] in *.
  - pose proof (os_File_Close_trace (Some (filePath lw)) w2) as Htr3.
    pose proof (os_File_Close_files (Some (filePath lw)) w2) as Hfiles3.
    destruct (os_File_Close (Some (filePath lw)) w2) as [ce w3];
      cbn [fst snd] in *.
    unfold ret. eexists _, _, _. split; [reflexivity|]. right.
    split; [done|]. split; [by rewrite Hfiles3, Hfiles2, Hfiles1|].
    exists ce. by rewrite Htr3, Htr2, Htr1, <- !app_assoc.
  - unfold ret. eexists _, _, _. split; [reflexivity|].
    rewrite (Hsize2 eq_refl), Hkept. split; [done|].
    split; [by rewrite Hfiles2, Hfiles1|].
    by rewrite Htr2, Htr1, <- app_assoc.
Qed.

(** X10.  What [NewLogWriter] of src/file.go comes to.  A buffer size under
    -1 is refused before any call to the system; -1 turns buffering off and
    0 asks for the default of 128 bytes.  The active file is opened to be
    added to, never cut: when the open and the reading of its size succeed,
    the file holds what it held, the tracked size is its length, and the
    writer has nothing in its buffer.  When the open fails no file has
    changed; when the size cannot be read the file is closed again. *)
Theorem NewLogWriter_keeps_the_file given w0 :
  let cfg0 := default zeroConfig given in
  ∃ res w,
    NewLogWriter given tt w0 = Done res tt w ∧
    match res with
    | inr e =>
        (BufferSizeMax cfg0 < -1 ∧ e = ErrConfig (BufferSizeMax cfg0) ∧ w = w0) ∨
        (-1 ≤ BufferSizeMax cfg0 ∧ Directory cfg0 = ""%string ∧
         (∃ e', cwd w0 = inr e' ∧ e = ErrGetwd e') ∧ w = w0) ∨
        (-1 ≤ BufferSizeMax cfg0 ∧ files w = files w0 ∧
         ∃ path, trace w = trace w0 ++ [EvOpen path false (Some e)]) ∨
        (-1 ≤ BufferSizeMax cfg0 ∧
         ∃ path ce,
           trace w = trace w0 ++ [EvOpen path false None; EvStat path (Some e);
                                  EvClose (Some path) ce] ∧
           files w = <[path := contents w0 path]> (files w0))
    | inl lw =>
        -1 ≤ BufferSizeMax cfg0 ∧
        BufferSizeMax (cfg lw)
        = (if BufferSizeMax cfg0 =? -1 then 0
           else if BufferSizeMax cfg0 =? 0 then defaultBufferSizeMax
           else BufferSizeMax cfg0) ∧
        MaxBytes (cfg lw)
        = (if MaxBytes cfg0 =? 0 then defaultMaxBytes else MaxBytes cfg0) ∧
        is_Some (TimeFormatter (cfg lw)) ∧
        filePath lw = activePath lw ∧
        buf lw = [] ∧ extents lw = [] ∧ waitingForNewline lw = false ∧
        timeOfFirstWrite lw = ""%string ∧
        filePointer lw = Some (filePath lw) ∧
        fileSizeNow lw = len (contents w0 (filePath lw)) ∧
        files w = <[filePath lw := contents w0 (filePath lw)]> (files w0) ∧
        trace w = trace w0 ++ [EvOpen (filePath lw) false None;
                               EvStat (filePath lw) None]
    end.
Proof.
  cbv zeta. unfold NewLogWriter. fold zeroConfig.
  set (cfg0 := default zeroConfig given).
  destruct (Z.eqb_spec (BufferSizeMax cfg0) (-1)) as [Hoff|Hon];
    [|destruct (Z.eqb_spec (BufferSizeMax cfg0) 0) as [Hdef|Hset];
      [|destruct (Z.ltb_spec (BufferSizeMax cfg0) 0) as [Hneg|Hpos]]].
  3: { eexists _, _. split; [reflexivity|]. left. split; [lia|done]. }
  all: unfold bind at 1.
  all: destruct (String.eqb_spec (Directory cfg0) "") as [Hdir|Hdir].
  all: try (destruct (cwd w0) as [dir|e] eqn:Hcwd;
            [|eexists _, _; split; [reflexivity|]; right; left;
              split; [lia|]; split; [done|]; split; [eauto|done]]).
  all: unfold bind at 1, on.
  all: match goal with
       | |- context [openLog ?lw ?w] =>
           destruct (openLog_run lw w) as (err & lw' & w' & -> & Hopen)
       end.
  all: cbn [fst snd filePath] in *.
  all: destruct err as [e|]; unfold ret; eexists _, _;
         (split; [reflexivity|]).
  all: try (destruct Hopen as [(_ & Hfiles & Htr)|(_ & Hfiles & ce & Htr)];
            [right; right; left; split; [lia|]; eauto
            |right; right; right; split; [lia|]; eauto]).
  all: destruct Hopen as (-> & Hfiles & Htr).
  all: cbn [cfg BufferSizeMax MaxBytes TimeFormatter filePath buf extents
              waitingForNewline timeOfFirstWrite filePointer fileSizeNow
              set_fileSizeNow set_filePointer].
  all: unfold activePath; cbn [cfg Directory BaseNamePrefix filePath].
  all: split; [lia|]; split; [done|]; split; [done|]; split; [eauto|].
  all: done.
Qed.

(** What a [rotateLog] that succeeds has done to the files and to the
    writer; the clock was read once. *)
Lemma rotateLog_done lw w f lw' w' :
  TimeFormatter (cfg lw) = Some f →
  stampedPath lw f (now w) ≠ filePath lw →
  rotateLog lw w = Done None lw' w' →
  is_Some (files w !! filePath lw) ∧
  files w' = <[filePath lw := []]>
               (<[stampedPath lw f (now w) := contents w (filePath lw)]>
                  (delete (filePath lw) (files w))) ∧
  lw' = set_fileSizeNow 0
          (set_filePointer (Some (filePath lw)) (set_timeOfFirstWrite "" lw)).
Proof.
  intros Hf Hfresh HR. set (stamp := stampedPath lw f (now w)) in *.
  revert HR. unfold rotateLog, bind. rewrite closeLog_run.
  pose proof (os_File_Close_files (filePointer lw) w) as Hfiles1.
  pose proof (os_File_Close_frame (filePointer lw) w) as (_ & Hnow1 & _).
  destruct (os_File_Close (filePointer lw) w) as [[e1|] w1]; cbn [fst snd] in *.
  { unfold ret. intros [=]. }
  erewrite renameLog_run by exact Hf.
  change (filePath (set_fileSizeNow 0 (set_filePointer None lw)))
    with (filePath lw).
  change (stampedPath (set_fileSizeNow 0 (set_filePointer None lw)) f (now w1))
    with (stampedPath lw f (now w1)).
  rewrite Hnow1. fold stamp.
  pose proof (os_Rename_files (filePath lw) stamp (time_Now w1).2) as Hfiles2.
  pose proof (os_Rename_result (filePath lw) stamp (time_Now w1).2) as Hres2.
  destruct (os_Rename (filePath lw) stamp (time_Now w1).2) as [[e2|] w2];
    cbn [fst snd] in *.
  { unfold ret. intros [=]. }
  destruct (Hres2 eq_refl) as (c & Hc & _).
  change (files (time_Now w1).2) with (files w1) in *.
  change (contents (time_Now w1).2 (filePath lw))
    with (contents w1 (filePath lw)) in *.
  match goal with
  | |- context [openLog ?l ?v] =>
      destruct (openLog_run l v) as (err & lw3 & w3 & -> & Hopen)
  end.
  cbn [filePath set_timeOfFirstWrite set_fileSizeNow set_filePointer] in Hopen.
  intros [= -> <- <-]. destruct Hopen as (-> & Hfiles3 & _).
  split; [rewrite <- Hfiles1; eauto|].
  assert (contents w2 (filePath lw) = []) as Hempty.
  { unfold contents. rewrite Hfiles2, lookup_insert_ne, lookup_delete_eq; done. }
  rewrite Hempty in *. split; [|done].
  rewrite Hfiles3, Hfiles2. unfold contents. by rewrite Hfiles1.
Qed.





(** ** The flush, whether or not the writer waits for a terminator *)

(** The extents that fit are the longest run of first extents that the room
    allows. *)
Lemma fittingExtents_greedy es remaining b k :
  Forall (λ e, 0 < e) es → 0 ≤ b → b + total es < 2 ^ 62 →
  ∃ j : nat,
    (j ≤ length es)%nat ∧
    fittingExtents es remaining b k = (k + Z.of_nat j, b + total (take j es)) ∧
    ((0 < j)%nat → b + total (take j es) ≤ remaining) ∧
    ((j < length es)%nat → remaining < b + total (take (S j) es)).
Proof.
  revert b k. induction es as [|e es IH]; intros b k Hpos Hb Hsum.
  - exists O. cbn. split; [lia|]. split; [f_equal; lia|]. split; lia.
  - apply Forall_cons in Hpos as [He Hpos]. cbn [fittingExtents].
    rewrite total_cons in Hsum.
    pose proof (total_nonneg es Hpos).
    rewrite (int64_small e), int64_small by lia.
    destruct (Z.gtb_spec (b + e) remaining) as [Hgt|Hle].
    + exists O. split; [cbn; lia|]. split; [cbn; f_equal; lia|].
      split; [lia|]. intros _. rewrite total_take_one. lia.
    + destruct (IH (b + e) (k + 1) Hpos) as (j & Hj & -> & Hfit & Hmax); [lia..|].
      exists (S j). cbn [length take firstn]. rewrite !total_cons.
      split; [lia|]. split; [f_equal; lia|]. split.
      * intros _. destruct j as [|j].
        -- rewrite take_0. change (total []) with 0. lia.
        -- specialize (Hfit ltac:(lia)). lia.
      * intros Hlt. specialize (Hmax ltac:(lia)). lia.
Qed.

Lemma total_take_le es j m :
  Forall (λ e, 0 < e) es → (j ≤ m)%nat →
  total (take j es) ≤ total (take m es).
Proof.
  intros Hpos Hjm. replace (take j es) with (take j (take m es))
    by (rewrite take_take; f_equal; lia).
  apply total_take. by apply Forall_take.
Qed.

(** What [flushAsMuchAsPossible] hands over. *)
Lemma flushAsMuchAsPossible_fit lw w :
  sound lw w →
  ∃ (j : nat) err lw' w' evs,
    flushAsMuchAsPossible lw w = Done err lw' w' ∧
    trace w' = trace w ++ evs ∧
    (j ≤ ready lw)%nat ∧
    ((0 < j)%nat →
       fileSizeNow lw + total (take j (extents lw)) ≤ MaxBytes (cfg lw)) ∧
    ((j < ready lw)%nat →
       MaxBytes (cfg lw) < fileSizeNow lw + total (take (S j) (extents lw))) ∧
    (j = O → err = None ∧ lw' = lw ∧ w' = w) ∧
    ((0 < j)%nat →
       ∃ n e,
         evs = [EvWrite (Some (filePath lw))
                  (take (Z.to_nat (total (take j (extents lw)))) (buf lw)) n e] ∧
         (err = None ↔ e = None ∧ n = total (take j (extents lw))) ∧
         (err = None →
            fileSizeNow lw' = fileSizeNow lw + total (take j (extents lw)))) ∧
    (err = None → handed_over j lw lw' w' evs).
Proof.
  intros Hsound.
  pose proof Hsound as [Hf Hpath Hopen Hex Hpos Htot Hsize Hmax Hmem].
  assert (handed_over 0 lw lw w []) as Hnothing.
  { split; [done|]. rewrite take_0. change (total []) with 0.
    repeat split; try done. by apply Forall_nil. }
  unfold flushAsMuchAsPossible, bind at 1, get.
  set (m := if waitingForNewline lw then len (extents lw) - 1
            else len (extents lw)).
  assert (Z.to_nat m = ready lw) as Hm.
  { unfold m, ready, len. destruct (waitingForNewline lw); lia. }
  destruct (Z.eqb_spec m 0) as [Hzero|Hsome].
  { exists O, None, lw, w, []. unfold ret. split; [done|].
    split; [by rewrite app_nil_r|].
    split; [lia|]. split; [lia|]. split; [lia|]. split; [done|].
    split; [lia|done]. }
  rewrite int64_small by lia. rewrite Hm.
  pose proof (total_take (extents lw) (ready lw) Hpos) as Hready.
  destruct (fittingExtents_greedy (take (ready lw) (extents lw))
              (MaxBytes (cfg lw) - fileSizeNow lw) 0 0)
    as (j & Hj & -> & Hfit & Hlongest); [by apply Forall_take|done|lia|].
  rewrite length_take in Hj, Hlongest. cbn [fst snd]. rewrite !Z.add_0_l in *.
  assert (ready lw ≤ length (extents lw))%nat as Hle
    by (unfold ready; destruct (waitingForNewline lw); lia).
  rewrite take_take in Hfit, Hlongest |- *.
  replace (j `min` ready lw)%nat with j in * by lia.
  assert ((j < ready lw)%nat →
          MaxBytes (cfg lw) < fileSizeNow lw + total (take (S j) (extents lw)))
    as Hlongest'.
  { intros Hlt. specialize (Hlongest ltac:(lia)).
    replace (S j `min` ready lw)%nat with (S j) in Hlongest by lia. lia. }
  exists j.
  destruct (Z.eqb_spec (Z.of_nat j) 0) as [Hnone|Hj1].
  { assert (j = O) as -> by lia.
    exists None, lw, w, []. unfold ret. split; [done|].
    split; [by rewrite app_nil_r|].
    split; [lia|]. split; [lia|]. split; [done|]. split; [done|].
    split; [lia|done]. }
  destruct (writeExtents_step lw w j Hsound)
    as (r & lw' & w' & n & e & HW & Htr & Hok); [lia|lia|].
  destruct (writeExtents_run (Z.of_nat j) (total (take j (extents lw))) lw w)
    as (n' & e' & w'' & r' & lw'' & Hsys & HW' & _ & _ & _ & _ & Hiff & _);
    [pose proof (len_take_total (buf lw) (extents lw) j Hpos Htot); lia
    |unfold len; lia|].
  rewrite HW in HW'. injection HW' as <- <- <-.
  pose proof (os_File_Write_trace (filePointer lw)
                (take (Z.to_nat (total (take j (extents lw)))) (buf lw)) w) as Htr'.
  rewrite Hsys in Htr'. cbn [fst snd] in Htr'. rewrite Htr, Hopen in Htr'.
  apply app_inv_head in Htr'. injection Htr' as <- <-.
  unfold bind. rewrite HW. unfold ret.
  eexists r.2, lw', w', _. split; [done|]. split; [exact Htr|].
  split; [lia|]. split; [lia|]. split; [done|].
  split; [lia|]. split.
  { intros _. exists n, e. split; [done|]. split; [done|].
    intros Hr. by destruct (Hok Hr) as (_ & _ & _ & _ & _ & _ & _ & _ & ?). }
  intros Hr.
  destruct (Hok Hr) as (-> & -> & Hs' & Hw' & He' & Hb' & Hc' & Hp' & _).
  split; [done|]. split; [done|]. split; [done|]. split; [done|].
  split; [done|]. split; [done|]. split; [cbn; by rewrite app_nil_r|].
  repeat constructor.
  pose proof (len_take_total (buf lw) (extents lw) j Hpos Htot).
  rewrite len_take by lia. done.
Qed.

(** X13.  [flushAsMuchAsPossible] hands over, in one call to the file, the
    longest run of first extents that fits the room the limit leaves in
    the active file, and never the last extent while the writer waits for
    its line terminator.  When not even the first extent fits it makes no
    call and returns no error.  It returns no error exactly when the file
    took every byte of the run without one; then the run is gone from the
    buffer and the tracked size has grown by its bytes. *)
Theorem flushAsMuchAsPossible_longest_fit lw w :
  sound lw w →
  ∃ (j : nat) err lw' w',
    flushAsMuchAsPossible lw w = Done err lw' w' ∧
    (j ≤ ready lw)%nat ∧
    ((0 < j)%nat →
       fileSizeNow lw + total (take j (extents lw)) ≤ MaxBytes (cfg lw)) ∧
    ((j < ready lw)%nat →
       MaxBytes (cfg lw) < fileSizeNow lw + total (take (S j) (extents lw))) ∧
    (j = O → err = None ∧ lw' = lw ∧ w' = w) ∧
    ((0 < j)%nat →
       let b := total (take j (extents lw)) in
       ∃ n e,
         trace w' = trace w ++ [EvWrite (Some (filePath lw))
                                  (take (Z.to_nat b) (buf lw)) n e] ∧
         (err = None ↔ e = None ∧ n = b) ∧
         (err = None →
            extents lw' = drop j (extents lw) ∧
            buf lw' = drop (Z.to_nat b) (buf lw) ∧
            fileSizeNow lw' = fileSizeNow lw + b)).
Proof.
  intros Hsound.
  destruct (flushAsMuchAsPossible_fit lw w Hsound)
    as (j & err & lw' & w' & evs & HF & Htr & Hj & Hfit & Hlongest & Hnone
        & Hsome & Hover).
  exists j, err, lw', w'. split; [done|]. split; [done|]. split; [done|].
  split; [done|]. split; [done|]. intros Hpos b.
  destruct (Hsome Hpos) as (n & e & -> & Hiff & Hsize).
  exists n, e. split; [done|]. split; [done|]. intros Herr.
  destruct (Hover Herr) as (_ & _ & _ & _ & He & Hb & _).
  split; [done|]. split; [done|]. by apply Hsize.
Qed.

(** The write of the first [j] extents, when it returns no error. *)
Lemma writeExtents_hands_over lw w (j : nat) :
  sound lw w → (j ≤ length (extents lw))%nat →
  fileSizeNow lw + total (take j (extents lw)) ≤ 2 ^ 62 →
  ∃ r lw' w' evs,
    writeExtents (Z.of_nat j) (total (take j (extents lw))) lw w
    = Done r lw' w' ∧
    trace w' = trace w ++ evs ∧
    (r.2 = None → handed_over j lw lw' w' evs).
Proof.
  intros Hsound Hj Hroom.
  destruct (writeExtents_step lw w j Hsound)
    as (r & lw' & w' & n & e & HW & Htr & Hok); [lia|done|].
  eexists r, lw', w', _. split; [done|]. split; [done|].
  intros Hr.
  destruct (Hok Hr) as (-> & -> & Hs' & Hw' & He' & Hb' & Hc' & Hp' & _).
  split; [done|]. split; [done|]. split; [done|]. split; [done|].
  split; [done|]. split; [done|]. split; [cbn; by rewrite app_nil_r|].
  repeat constructor. destruct Hsound.
  pose proof (len_take_total (buf lw) (extents lw) j sound_extents0 sound_total0).
  rewrite len_take by lia. done.
Qed.

(** The end of a turn that found the first extent too long for the room
    left, once the active file is empty. *)
Lemma turn_with_empty_file lw w :
  sound lw w → (0 < ready lw)%nat → fileSizeNow lw = 0 →
  ∃ res lw' w' evs,
    (lw <~ get ;;
     e0 <~ index (extents lw) 0 ;;
     if int64 e0 >? MaxBytes (cfg lw) then
       r <~ writeExtents 1 e0 ;;
       match snd r with
       | Some _ => ret (inl (snd r))
       | None => ret (inr tt)
       end
     else
       err <~ flushAsMuchAsPossible ;;
       match err with
       | Some _ => ret (inl err)
       | None => ret (inr tt)
       end) lw w = Done res lw' w' ∧
    trace w' = trace w ++ evs ∧
    match res with
    | inl err => is_Some err
    | inr _ => ∃ j, (1 ≤ j ≤ ready lw)%nat ∧ handed_over j lw lw' w' evs
    end.
Proof.
  intros Hsound Hready Hzero.
  pose proof Hsound as [Hf Hpath Hopen Hex Hpos Htot Hsize Hmax Hmem].
  destruct (extents lw) as [|e0 rest] eqn:Hext.
  { unfold ready in Hready. rewrite Hext in Hready.
    destruct (waitingForNewline lw); cbn in Hready; lia. }
  assert (0 < e0 ≤ len (buf lw)) as He0.
  { rewrite <- Htot, total_cons.
    apply Forall_cons in Hpos as [? Hrest]. pose proof (total_nonneg rest Hrest). lia. }
  unfold bind at 1, get. unfold bind at 1.
  rewrite Hext, (index_ok _ _ e0) by done.
  rewrite int64_small by lia.
  destruct (Z.gtb_spec e0 (MaxBytes (cfg lw))) as [Hbig|Hfits].
  - destruct (writeExtents_hands_over lw w 1 Hsound)
      as (r & lw' & w' & evs & HW & Htr & Hok).
    { rewrite Hext. cbn. lia. }
    { rewrite Hext, total_take_one. lia. }
    rewrite Hext, total_take_one in HW.
    unfold bind. change (Z.of_nat 1) with 1 in HW. rewrite HW.
    exists (match r.2 with Some _ => inl r.2 | None => inr tt end), lw', w', evs.
    destruct r as [n [e|]]; cbn [snd] in *; unfold ret;
      (split; [done|]); (split; [done|]); [eauto|].
    exists 1%nat. split; [lia|]. by apply Hok.
  - destruct (flushAsMuchAsPossible_fit lw w Hsound)
      as (j & err & lw' & w' & evs & HF & Htr & Hj & _ & Hlongest & _ & _ & Hover).
    unfold bind. rewrite HF.
    exists (match err with Some _ => inl err | None => inr tt end), lw', w', evs.
    destruct err as [e|]; unfold ret;
      (split; [done|]); (split; [done|]); [eauto|].
    exists j. split; [|by apply Hover]. split; [|done].
    destruct j as [|j]; [|lia].
    specialize (Hlongest Hready). rewrite Hext, total_take_one in Hlongest. lia.
Qed.

(** One turn of the flush of a writer with an extent ready: it fails, or
    it hands one ready extent at least to the active file. *)
Lemma flushCompletedExtents_turn_flushes lw w :
  sound lw w → (0 < ready lw)%nat →
  ∃ res lw' w' evs,
    flushCompletedExtents_turn lw w = Done res lw' w' ∧
    trace w' = trace w ++ evs ∧
    match res with
    | inl err => is_Some err
    | inr _ => ∃ j, (1 ≤ j ≤ ready lw)%nat ∧ handed_over j lw lw' w' evs
    end.
Proof.
  intros Hsound Hready.
  pose proof Hsound as [Hf Hpath Hopen Hex Hpos Htot Hsize Hmax Hmem].
  destruct (extents lw) as [|e0 rest] eqn:Hext.
  { unfold ready in Hready. rewrite Hext in Hready.
    destruct (waitingForNewline lw); cbn in Hready; lia. }
  assert (0 < e0 ≤ len (buf lw)) as He0.
  { rewrite <- Htot, total_cons.
    apply Forall_cons in Hpos as [? Hrest]. pose proof (total_nonneg rest Hrest). lia. }
  unfold flushCompletedExtents_turn, bind at 1, get. rewrite Hext.
  destruct (Z.leb_spec (len (e0 :: rest)) 0) as [H|_];
    [unfold len in H; cbn in H; lia|].
  assert ((len (e0 :: rest) =? 1) && waitingForNewline lw = false) as ->.
  { unfold ready in Hready. rewrite Hext in Hready.
    destruct (waitingForNewline lw); [|by rewrite andb_false_r].
    rewrite andb_true_r. apply Z.eqb_neq. unfold len. cbn in *. lia. }
  unfold bind at 1. rewrite (index_ok _ _ e0) by done.
  rewrite (int64_small e0), int64_small by lia.
  destruct (Z.gtb_spec (e0 + fileSizeNow lw) (MaxBytes (cfg lw))) as [Hfull|Hfits].
  - unfold bind at 1.
    destruct (Z.ltb_spec 0 (fileSizeNow lw)) as [Hsome|Hnone].
    + destruct Hf as [f Hf].
      destruct (rotateLog_run lw w f Hf)
        as (err & lw1 & w1 & revs & -> & Htr & _ & Hchunks & Hwhole & Hsucc).
      destruct err as [e|].
      { exists (inl (Some e)), lw1, w1, revs. unfold ret. eauto. }
      destruct (Hsucc Hpath eq_refl) as [-> Hfile].
      set (lw1 := set_fileSizeNow 0 _).
      assert (sound lw1 w1) as Hsound1.
      { split; try done;
          first [ by (change (filePath lw1) with (filePath lw); rewrite Hfile)
                | by (change (extents lw1) with (extents lw); rewrite Hext)
                | cbn; lia ]. }
      destruct (turn_with_empty_file lw1 w1 Hsound1)
        as (res & lw' & w' & evs & Heq & Htr2 & Hres); [done|done|].
      exists res, lw', w', (revs ++ evs). split; [exact Heq|].
      split; [by rewrite Htr2, Htr, app_assoc|].
      destruct res as [err|[]]; [done|].
      destruct Hres as (j & Hj & Hs' & Hw' & Hc' & Hp' & He' & Hb' & Hcc & Hww).
      exists j. split; [done|].
      split; [done|]. split; [done|]. split; [done|]. split; [done|].
      split; [done|]. split; [done|].
      split; [by rewrite written_chunks_app, Hchunks|].
      apply whole_writes_app. split; [apply Hwhole|done].
    + unfold ret.
      destruct (turn_with_empty_file lw w Hsound Hready)
        as (res & lw' & w' & evs & Heq & Htr2 & Hres); [lia|].
      exists res, lw', w', evs. split; [exact Heq|].
      split; [done|]. done.
  - destruct (flushAsMuchAsPossible_fit lw w Hsound)
      as (j & err & lw' & w' & evs & HF & Htr & Hj & _ & Hlongest & _ & _ & Hover).
    unfold bind. rewrite HF.
    exists (match err with Some _ => inl err | None => inr tt end), lw', w', evs.
    destruct err as [e|]; unfold ret;
      (split; [done|]); (split; [done|]); [eauto|].
    exists j. split; [|by apply Hover]. split; [|done].
    destruct j as [|j]; [|lia].
    specialize (Hlongest Hready). rewrite Hext, total_take_one in Hlongest. lia.
Qed.

Lemma ready_after (j : nat) lw lw' :
  (j ≤ ready lw)%nat →
  waitingForNewline lw' = waitingForNewline lw →
  extents lw' = drop j (extents lw) →
  ready lw' = (ready lw - j)%nat.
Proof.
  unfold ready. intros Hj -> ->. rewrite length_drop.
  destruct (waitingForNewline lw); lia.
Qed.

(** The loop of the flush, with turns enough for the extents there are: it
    fails, or every ready extent goes whole to the active file, and the
    writer holds the extent that waits for its terminator, if there is
    one. *)
Lemma flushCompletedExtents_loop_flushes fuel lw w :
  sound lw w → (ready lw < fuel)%nat →
  ∃ err lw' w' evs,
    flushCompletedExtents_loop fuel lw w = Done err lw' w' ∧
    trace w' = trace w ++ evs ∧
    (err = None → handed_over (ready lw) lw lw' w' evs).
Proof.
  revert lw w. induction fuel as [|fuel IH]; intros lw w Hsound Hfuel; [lia|].
  cbn [flushCompletedExtents_loop]. unfold bind.
  destruct (decide (ready lw = O)) as [Hnone|Hsome].
  - assert (flushCompletedExtents_turn lw w = Done (inl None) lw w) as ->.
    { unfold flushCompletedExtents_turn, bind, get, ready in *.
      destruct (Z.leb_spec (len (extents lw)) 0); [done|].
      destruct (waitingForNewline lw); [|unfold len in *; lia].
      destruct (Z.eqb_spec (len (extents lw)) 1); [done|]. unfold len in *. lia. }
    unfold ret. exists None, lw, w, []. split; [done|].
    split; [by rewrite app_nil_r|]. intros _. rewrite Hnone.
    split; [done|]. rewrite take_0. change (total []) with 0.
    repeat split; try done. by apply Forall_nil.
  - destruct (flushCompletedExtents_turn_flushes lw w Hsound)
      as (res & lw1 & w1 & evs1 & -> & Htr1 & Hres); [lia|].
    destruct res as [err|[]].
    { destruct Hres as [e ->]. exists (Some e), lw1, w1, evs1. unfold ret. done. }
    destruct Hres as (j & Hj & Hs1 & Hw1 & Hc1 & Hp1 & He1 & Hb1 & Hcc1 & Hww1).
    pose proof (ready_after j lw lw1 ltac:(lia) Hw1 He1) as Hready1.
    destruct (IH lw1 w1 Hs1) as (err & lw2 & w2 & evs2 & -> & Htr2 & Hok); [lia|].
    exists err, lw2, w2, (evs1 ++ evs2). split; [done|].
    split; [by rewrite Htr2, Htr1, app_assoc|].
    intros ->.
    destruct (Hok eq_refl) as (Hs2 & Hw2 & Hc2 & Hp2 & He2 & Hb2 & Hcc2 & Hww2).
    pose proof (sound_extents lw w Hsound) as Hpos.
    pose proof (sound_total lw w Hsound) as Htot.
    assert (ready lw ≤ length (extents lw))%nat as Hle
      by (unfold ready; destruct (waitingForNewline lw); lia).
    assert (total (take (ready lw) (extents lw))
            = total (take j (extents lw))
              + total (take (ready lw - j) (drop j (extents lw)))) as Hsum.
    { rewrite <- total_app. f_equal.
      rewrite <- (take_drop j (take (ready lw) (extents lw))).
      rewrite take_take, skipn_firstn_comm. f_equal. f_equal. lia. }
    pose proof (total_take (extents lw) j Hpos) as Hj0.
    pose proof (total_take (drop j (extents lw)) (ready lw - j)
                  (Forall_drop _ _ _ Hpos)) as Hj1.
    rewrite Hready1, He1 in *.
    split; [done|]. split; [congruence|]. split; [congruence|].
    split; [congruence|].
    split; [rewrite He2, drop_drop; f_equal; lia|].
    split.
    { rewrite Hb2, Hb1, drop_drop, Hsum. f_equal. lia. }
    split.
    { rewrite written_chunks_app, concat_app, Hcc1, Hcc2, Hb1, Hsum.
      rewrite Z2Nat.inj_add by lia. by rewrite take_take_drop. }
    apply whole_writes_app. split; [done|]. by rewrite <- Hp1.
Qed.

Lemma flushCompletedExtents_flushes lw w :
  sound lw w →
  ∃ err lw' w' evs,
    flushCompletedExtents lw w = Done err lw' w' ∧
    trace w' = trace w ++ evs ∧
    (err = None → handed_over (ready lw) lw lw' w' evs).
Proof.
  intros Hsound. unfold flushCompletedExtents, bind, get.
  apply flushCompletedExtents_loop_flushes; [done|].
  unfold ready. destruct (waitingForNewline lw); lia.
Qed.

(** ** A short write *)

Lemma total_take_S es (i : nat) e :
  es !! i = Some e → total (take (S i) es) = total (take i es) + e.
Proof.
  intros H. rewrite (take_S_r _ _ _ H), total_app, total_cons.
  change (total []) with 0. lia.
Qed.

Lemma total_take_lt es (i j : nat) :
  Forall (λ e, 0 < e) es → (i < j ≤ length es)%nat →
  total (take i es) < total (take j es).
Proof.
  intros Hpos Hij.
  destruct (lookup_lt_is_Some_2 es i) as [e He]; [lia|].
  pose proof (Forall_lookup_1 _ _ _ _ Hpos He) as Hme. cbn in Hme.
  pose proof (total_take_le es (S i) j Hpos ltac:(lia)).
  rewrite (total_take_S _ _ _ He) in *. lia.
Qed.

(** The loop of [writeExtents] after a short write of [n] bytes that end
    in the extent [j]: it stops at that extent, and when some of its bytes
    were written it leaves their count as the length of the extent. *)
Lemma writtenExtents_cut todo (i j : nat) n lw w :
  Forall (λ e, 0 < e) (extents lw) →
  (i ≤ j)%nat → (j < i + todo)%nat → (i + todo ≤ length (extents lw))%nat →
  total (take j (extents lw)) ≤ n < total (take (S j) (extents lw)) →
  writtenExtents todo (n - total (take i (extents lw))) (Z.of_nat i) lw w
  = if decide (n = total (take j (extents lw)))
    then Done (0, Z.of_nat j) lw w
    else Done (n - total (take (S j) (extents lw)), Z.of_nat j)
           (set_extents (<[j := n - total (take j (extents lw))]> (extents lw)) lw)
           w.
Proof.
  intros Hpos. revert i.
  induction todo as [|todo IH]; intros i Hij Hji Hlen Hn; [lia|].
  cbn [writtenExtents].
  pose proof (total_take_le (extents lw) i j Hpos Hij) as Hmono.
  destruct (Z.ltb_spec 0 (n - total (take i (extents lw)))) as [Hmore|Hdone].
  - unfold bind at 1, get. unfold bind at 1.
    destruct (lookup_lt_is_Some_2 (extents lw) i) as [e He]; [lia|].
    rewrite (index_ok _ _ e) by (rewrite ?Nat2Z.id; done || lia).
    pose proof (total_take_S _ _ _ He) as HS.
    destruct (Z.ltb_spec (n - total (take i (extents lw)) - e) 0) as [Hcut|Hon].
    + assert (i = j) as ->.
      { destruct (decide (i = j)) as [|Hne]; [done|].
        pose proof (total_take_le (extents lw) (S i) j Hpos ltac:(lia)). lia. }
      destruct (decide (n = total (take j (extents lw)))) as [|_]; [lia|].
      unfold bind, modify, ret. rewrite Nat2Z.id. do 2 f_equal; [lia|].
      f_equal. lia.
    + assert (i < j)%nat as Hlt.
      { destruct (decide (i = j)) as [->|Hne]; [lia|lia]. }
      replace (Z.of_nat i + 1) with (Z.of_nat (S i)) by lia.
      replace (n - total (take i (extents lw)) - e)
        with (n - total (take (S i) (extents lw))) by lia.
      apply IH; [lia|lia|lia|done].
  - assert (i = j) as ->.
    { destruct (decide (i = j)) as [|Hne]; [done|].
      pose proof (total_take_lt (extents lw) i j Hpos ltac:(lia)). lia. }
    destruct (decide (n = total (take j (extents lw)))) as [Heq|]; [|lia].
    unfold ret. do 2 f_equal. lia.
Qed.

(** X14.  What [writeExtents] leaves after a short write.  When the file
    takes only [n] bytes of the extents it was handed, and they end in the
    extent [j], the [n] bytes leave the buffer, the tracked size grows by
    [n], the extents before [j] are dropped and an error is returned.  When
    some bytes of the extent [j] were written, the extent is left with the
    count of its bytes that were written -- not of those that remain -- so
    the extents add up to the buffer again only when half of it was
    written. *)
Theorem writeExtents_after_short_write lw w (k j : nat) e n se w1 :
  sound lw w →
  (j < k ≤ length (extents lw))%nat →
  extents lw !! j = Some e →
  os_File_Write (filePointer lw)
    (take (Z.to_nat (total (take k (extents lw)))) (buf lw)) w = ((n, se), w1) →
  total (take j (extents lw)) ≤ n < total (take j (extents lw)) + e →
  let x := n - total (take j (extents lw)) in
  ∃ r lw',
    writeExtents (Z.of_nat k) (total (take k (extents lw))) lw w
    = Done r lw' w1 ∧
    r.2 = Some (default ErrShortWrite se) ∧
    buf lw' = drop (Z.to_nat n) (buf lw) ∧
    fileSizeNow lw' = fileSizeNow lw + n ∧
    extents lw' = (if decide (x = 0) then drop j (extents lw)
                   else x :: drop (S j) (extents lw)) ∧
    total (extents lw') - len (buf lw')
    = (if decide (x = 0) then 0 else 2 * x - e).
Proof.
  intros Hsound Hjk He Hsys Hn x. subst x.
  pose proof Hsound as [Hf Hpath Hopen Hex Hpos Htot Hsize Hmax Hmem].
  pose proof (total_take_S _ _ _ He) as HS.
  pose proof (total_take_le (extents lw) (S j) k Hpos ltac:(lia)) as Hle.
  pose proof (len_take_total (buf lw) (extents lw) k Hpos Htot) as Hb.
  pose proof (total_take (extents lw) j Hpos) as Hj0.
  pose proof (Forall_lookup_1 _ _ _ _ Hpos He) as Hepos. cbn in Hepos.
  unfold writeExtents, bind at 1, get. unfold bind at 1, slice.
  rewrite slice_to_ok by done. unfold ret at 1. unfold bind at 1, sys.
  rewrite Hsys. cbn [fst snd].
  destruct (Z.ltb_spec n 0); [lia|].
  destruct (Z.gtb_spec n (total (take k (extents lw)))); [lia|]. cbn [orb].
  destruct (Z.ltb_spec n (total (take k (extents lw)))); [|lia]. cbn [andb].
  unfold bind at 1, modify. unfold bind at 1, slice.
  rewrite slice_from_ok by lia. unfold ret at 1. unfold bind at 1, modify.
  rewrite (int64_small n), int64_small by lia.
  set (lw1 := set_buf _ _).
  assert ((if bool_decide (se = None) then Some ErrShortWrite else se)
          = Some (default ErrShortWrite se)) as ->.
  { by destruct se. }
  unfold bind at 1. rewrite Nat2Z.id.
  pose proof (writtenExtents_cut k 0 j n lw1 w1 Hpos ltac:(lia) ltac:(lia)
                ltac:(cbn; lia)) as Hloop.
  change (extents lw1) with (extents lw) in Hloop.
  rewrite HS, take_0 in Hloop. change (total []) with 0 in Hloop.
  rewrite Z.sub_0_r in Hloop. change (Z.of_nat 0) with 0 in Hloop.
  rewrite (Hloop ltac:(lia)).
  assert (take (S j) (extents lw) ++ drop (S j) (extents lw) = extents lw)
    as Hparts by apply take_drop.
  apply (f_equal total) in Hparts. rewrite total_app, HS in Hparts.
  assert (len (drop (Z.to_nat n) (buf lw)) = len (buf lw) - n) as Hrest
    by (rewrite len_drop; lia).
  destruct (decide (n = total (take j (extents lw)))) as [Heq|Hne].
  - unfold bind at 1, get. unfold bind at 1. cbn [fst snd].
    change (extents lw1) with (extents lw).
    destruct (Z.leb_spec 0 (Z.of_nat j)); [|lia].
    destruct (Z.leb_spec (Z.of_nat j) (len (extents lw))); [|unfold len in *; lia].
    cbn [andb]. unfold bind, modify, ret. eexists (_, _), _.
    split; [reflexivity|]. rewrite Nat2Z.id.
    cbn [snd buf fileSizeNow extents set_extents]. subst lw1.
    cbn [buf fileSizeNow extents set_buf set_fileSizeNow].
    destruct (decide (n - total (take j (extents lw)) = 0)) as [_|]; [|lia].
    split; [done|]. split; [done|]. split; [done|]. split; [done|].
    rewrite Hrest, total_drop. lia.
  - unfold bind at 1, get. unfold bind at 1.
    cbn [fst snd extents set_extents]. change (extents lw1) with (extents lw).
    destruct (Z.leb_spec 0 (Z.of_nat j)); [|lia].
    destruct (Z.leb_spec (Z.of_nat j)
                (len (<[j := n - total (take j (extents lw))]> (extents lw))));
      [|unfold len in *; rewrite length_insert in *; lia].
    cbn [andb]. unfold bind, modify, ret. eexists (_, _), _.
    split; [reflexivity|]. rewrite Nat2Z.id.
    cbn [snd buf fileSizeNow extents set_extents]. subst lw1.
    cbn [buf fileSizeNow extents set_buf set_fileSizeNow].
    destruct (decide (n - total (take j (extents lw)) = 0)) as [|_]; [lia|].
    assert (drop j (<[j := n - total (take j (extents lw))]> (extents lw))
            = (n - total (take j (extents lw))) :: drop (S j) (extents lw))
      as ->.
    { rewrite drop_insert_ge by lia. rewrite Nat.sub_diag.
      by rewrite (drop_S _ _ _ He). }
    split; [done|]. split; [done|]. split; [done|]. split; [done|].
    rewrite total_cons, Hrest. lia.
Qed.

(** ** What a [Write] that returns no error has done *)

Lemma Write_parts p lw w :
  Write p lw w
  = (recordFirstWrite ;;;
     lw <~ get ;;
     if 0 <? BufferSizeMax (cfg lw) then bufferedWrite p else directWrite p) lw w.
Proof.
  unfold Write, recordFirstWrite, bufferedWrite, directWrite, bind, get.
  destruct (String.eqb (timeOfFirstWrite lw) "").
  - destruct (formatNow lw w) as [t lw1 w1| |]; [|done..].
    unfold modify. by destruct (0 <? BufferSizeMax _).
  - unfold ret. by destruct (0 <? BufferSizeMax _).
Qed.

(** Recording the time of the first write reads the clock, and no more. *)
Lemma recordFirstWrite_run lw w f :
  TimeFormatter (cfg lw) = Some f →
  ∃ lw1 w1,
    recordFirstWrite lw w = Done tt lw1 w1 ∧
    trace w1 = trace w ∧ files w1 = files w ∧
    now w1 = clock_in_Write lw w ∧
    cfg lw1 = cfg lw ∧ buf lw1 = buf lw ∧ extents lw1 = extents lw ∧
    filePath lw1 = filePath lw ∧ fileSizeNow lw1 = fileSizeNow lw ∧
    filePointer lw1 = filePointer lw ∧
    waitingForNewline lw1 = waitingForNewline lw ∧
    script w1 = script w.
Proof.
  intros Hf. unfold recordFirstWrite, clock_in_Write, bind, get.
  destruct (String.eqb (timeOfFirstWrite lw) "").
  - unfold formatNow, bind, get, sys. rewrite Hf. unfold ret, modify.
    eexists _, _. split; [reflexivity|]. done.
  - unfold ret. eexists _, _. split; [reflexivity|]. done.
Qed.













(** ** From the making of a writer to its closing *)


(** A [Close] that returns no error has handed over all the buffer held,
    with the terminator it waited for. *)
Lemma Close_whole t0 acc lw w lw' w' :
  steady lw w → len (buf lw) + 1 < 2 ^ 62 →
  keeps_all t0 lw w acc →
  Close lw w = Done None lw' w' →
  cfg lw' = cfg lw ∧ filePath lw' = filePath lw ∧
  (buf lw' = [] ∧ extents lw' = [] ∧ waitingForNewline lw' = false ∧
   filePointer lw' = None ∧ fileSizeNow lw' = 0) ∧
  ∃ evs, trace w' = t0 ++ evs ∧
         delivered evs = acc ++ (if waitingForNewline lw then [LF] else []) ∧
         whole_writes (filePath lw) evs.
Proof.
  intros (Hsound & Hwait & _) Hmem (evs0 & Htr0 & Hacc & Hww0).
  pose proof Hsound as [Hf Hpath Hopen Hex Hpos Htot Hsize Hmax _].
  assert (∀ lw1 tail,
            sound lw1 w → waitingForNewline lw1 = false →
            cfg lw1 = cfg lw → filePath lw1 = filePath lw →
            buf lw1 = buf lw ++ tail →
            (err <~ flushCompletedExtents ;;
             match err with
             | Some _ => closeLog ;;; ret err
             | None => closeLog
             end) lw1 w = Done None lw' w' →
            cfg lw' = cfg lw ∧ filePath lw' = filePath lw ∧
            (buf lw' = [] ∧ extents lw' = [] ∧ waitingForNewline lw' = false ∧
             filePointer lw' = None ∧ fileSizeNow lw' = 0) ∧
            ∃ evs, trace w' = t0 ++ evs ∧ delivered evs = acc ++ tail ∧
                   whole_writes (filePath lw) evs) as Htail.
  { intros lw1 tail Hs1 Hw1 Hc1 Hp1 Hb1.
    destruct (flushCompletedExtents_flushes lw1 w Hs1)
      as (err & lw2 & w2 & evs & HF & Htr & Hok).
    unfold bind at 1. rewrite HF.
    pose proof (os_File_Close_trace (filePointer lw2) w2) as Htr2.
    destruct err as [e|].
    { unfold bind. rewrite closeLog_run. unfold ret. intros [=]. }
    rewrite closeLog_run. intros [= _ <- <-].
    destruct (Hok eq_refl) as (Hs2 & Hw2 & Hc2 & Hp2 & He2 & Hb2 & Hcc & Hww).
    pose proof (sound_total lw1 w Hs1) as Htot1.
    assert (ready lw1 = length (extents lw1)) as Hready
      by (unfold ready; by rewrite Hw1).
    rewrite Hready, firstn_all, Htot1 in Hb2, Hcc.
    unfold len in Hb2, Hcc. rewrite Nat2Z.id in Hb2, Hcc.
    rewrite Hready in He2. rewrite drop_all in Hb2. rewrite drop_all in He2.
    rewrite firstn_all in Hcc.
    cbn [cfg filePath buf filePointer extents waitingForNewline fileSizeNow
           set_fileSizeNow set_filePointer].
    split; [congruence|]. split; [congruence|].
    split; [by rewrite Hb2, He2, Hw2, Hw1|].
    exists (evs0 ++ evs ++ [EvClose (filePointer lw2)
                              (os_File_Close (filePointer lw2) w2).1]).
    split; [by rewrite Htr2, Htr, Htr0, <- !app_assoc|].
    split.
    - unfold delivered in *.
      rewrite !written_chunks_app, !concat_app, Hcc, Hb1. cbn.
      by rewrite app_nil_r, <- Hacc, app_assoc.
    - apply whole_writes_app. split; [done|].
      apply whole_writes_app. split; [by rewrite <- Hp1|]. by repeat constructor. }
  unfold Close, bind at 1, get.
  destruct (Z.ltb_spec 0 (len (buf lw))) as [Hheld|Hnone].
  2: { assert (buf lw = []) as Hnil.
       { apply len_zero. pose proof (len_nonneg (buf lw)). lia. }
       assert (waitingForNewline lw = false) as Hw.
       { destruct (waitingForNewline lw); [|done]. specialize (Hwait eq_refl).
         rewrite Hnil in Htot. destruct (extents lw) as [|e es]; [done|].
         apply Forall_cons in Hpos as [? Hpos]. pose proof (total_nonneg es Hpos).
         rewrite total_cons in Htot. change (len []) with 0 in Htot. lia. }
       assert (extents lw = []) as Hnoext.
       { rewrite Hnil in Htot. destruct (extents lw) as [|e es]; [done|].
         apply Forall_cons in Hpos as [? Hpos]. pose proof (total_nonneg es Hpos).
         rewrite total_cons in Htot. change (len []) with 0 in Htot. lia. }
       rewrite closeLog_run.
       pose proof (os_File_Close_trace (filePointer lw) w) as Htr.
       intros [= _ <- <-].
       cbn [cfg filePath buf filePointer extents waitingForNewline fileSizeNow
              set_fileSizeNow set_filePointer].
       split; [done|]. split; [done|]. split; [done|].
       exists (evs0 ++ [EvClose (filePointer lw)
                          (os_File_Close (filePointer lw) w).1]).
       split; [by rewrite Htr, Htr0, <- app_assoc|].
       rewrite Hw, app_nil_r, <- Hacc, Hnil, app_nil_r.
       split; [unfold delivered; by rewrite written_chunks_app, app_nil_r|].
       apply whole_writes_app. split; [done|]. by repeat constructor. }
  destruct (waitingForNewline lw) eqn:Hw.
  - destruct (last (extents lw)) as [e|] eqn:Hlast.
    2: { apply last_None in Hlast. by destruct Hwait. }
    destruct (total_insert_last (extents lw) e Hlast) as [Htot1 Hlook].
    set (lw1 := set_waitingForNewline false
                  (set_extents (<[Z.to_nat (len (extents lw) - 1) := e + 1]> (extents lw))
                     (set_buf (buf lw ++ [LF]) lw))).
    assert (sound lw1 w) as Hs1.
    { pose proof (Forall_lookup_1 _ _ _ _ Hpos Hlook) as He. cbn in He.
      split; try done; unfold lw1;
        cbn [extents buf set_waitingForNewline set_extents set_buf];
        first [ apply Forall_insert; [done|lia]
              | by rewrite Htot1, Htot, len_app
              | rewrite len_app; change (len [LF]) with 1; lia ]. }
    intros HC. apply (Htail lw1 [LF] Hs1); try done.
    rewrite <- HC. unfold bind at 3. unfold bind at 3, modify.
    unfold bind at 3. unfold bind at 3.
    rewrite (index_ok _ _ e);
      [|destruct (extents lw); [done|unfold len; cbn; lia]|done].
    unfold bind at 3. unfold bind at 3. done.
  - intros HC. apply (Htail lw []); try done. by rewrite app_nil_r.
Qed.




(** X18.  A writer that was closed without an error.  Closing it again
    returns [os.ErrInvalid] and asks nothing of the system.  Without a
    buffer a [Write] returns 0 and [os.ErrInvalid], and no file changes.
    With a buffer a [Write] of a slice that is not empty returns the length
    of the slice and no error: the slice is taken into the buffer though no
    file is open, and no file changes. *)
Theorem closed_writer_still_buffers lw0 w0 lw w p :
  steady lw0 w0 → len (buf lw0) + 1 < 2 ^ 62 → len p < 2 ^ 62 →
  Close lw0 w0 = Done None lw w →
  (∃ lw' w',
     Close lw w = Done (Some ErrInvalid) lw' w' ∧
     files w' = files w ∧ script w' = script w) ∧
  (BufferSizeMax (cfg lw) ≤ 0 →
     ∃ lw' w',
       Write p lw w = Done (0, Some ErrInvalid) lw' w' ∧
       files w' = files w ∧ script w' = script w) ∧
  (0 < BufferSizeMax (cfg lw) → p ≠ [] →
     ∃ lw' w',
       Write p lw w = Done (len p, None) lw' w' ∧
       buf lw' = p ∧ filePointer lw' = None ∧
       files w' = files w ∧ script w' = script w ∧ trace w' = trace w).
Proof.
  intros Hsteady Hmem Hp HC.
  pose proof Hsteady as ([[f Hf] _ _ _ _ _ _ _ _] & _ & _).
  destruct (Close_whole (trace w0) (buf lw0) lw0 w0 lw w Hsteady Hmem)
    as (Hc & _ & (Hbuf & Hext & Hwait & Hfp & Hsize) & _); [|done|].
  { exists []. split; [by rewrite app_nil_r|]. split; [done|]. by apply Forall_nil. }
  rewrite <- Hc in Hf. pose proof (len_nonneg p) as Hp0.
  split; [|split].
  - unfold Close, bind at 1, get. rewrite Hbuf. change (0 <? len []) with false.
    cbv iota. rewrite closeLog_run, Hfp. eexists _, _. split; [reflexivity|]. done.
  - intros Hdirect. rewrite Write_parts. unfold bind at 1.
    destruct (recordFirstWrite_run lw w f Hf)
      as (lw1 & w1 & -> & Htr1 & Hfiles1 & _ & Hc1 & Hb1 & He1 & Hp1 & Hs1 & Hfp1 & Hw1 & Hscript1).
    unfold bind at 1, get. rewrite Hc1.
    destruct (Z.ltb_spec 0 (BufferSizeMax (cfg lw))); [lia|].
    unfold directWrite, bind at 1, get. rewrite Hs1, Hsize.
    change (0 <? 0) with false. cbn [andb]. unfold bind at 1, ret at 1.
    unfold writeBytes, bind at 1, get. unfold bind at 1, sys.
    rewrite Hfp1, Hfp, os_File_Write_nil. cbn [fst snd].
    change (0 <? 0) with false.
    destruct (Z.gtb_spec 0 (len p)); [lia|]. cbn [orb].
    rewrite andb_false_r. unfold bind, modify, ret.
    eexists _, _. split; [reflexivity|]. done.
  - intros Hbuffered Hne. rewrite Write_parts. unfold bind at 1.
    destruct (recordFirstWrite_run lw w f Hf)
      as (lw1 & w1 & -> & Htr1 & Hfiles1 & _ & Hc1 & Hb1 & He1 & Hp1 & Hs1 & Hfp1 & Hw1 & Hscript1).
    unfold bind at 1, get. rewrite Hc1.
    destruct (Z.ltb_spec 0 (BufferSizeMax (cfg lw))); [|lia].
    unfold bufferedWrite, bind at 1, get. rewrite Hb1, Hbuf.
    change (0 <? len []) with false. cbn [andb].
    unfold bind at 1, ret at 1. unfold bind at 1, get. rewrite Hw1, Hwait.
    unfold bind at 1, modify. unfold bind at 1. unfold bind at 1.
    destruct (last p) as [b|] eqn:Hlast; [|by apply last_None in Hlast].
    unfold bind, ret. eexists _, _. split; [reflexivity|].
    cbn [buf filePointer set_waitingForNewline set_buf set_extents].
    rewrite Hb1, Hbuf, Hfp1, Hfp. done.
Qed.

(** X19.  [Megabytes] gives the bytes of a count of megabytes exactly when
    the count is under 2^43 in size; beyond, the product wraps around, and
    the result is still a 64-bit value. *)
Theorem Megabytes_exact_below_overflow m :
  - 2 ^ 63 ≤ m < 2 ^ 63 →
  (Megabytes m = m * 2 ^ 20 ↔ - 2 ^ 43 ≤ m < 2 ^ 43) ∧
  - 2 ^ 63 ≤ Megabytes m < 2 ^ 63 ∧
  (Megabytes m - m * 2 ^ 20) mod 2 ^ 64 = 0.
Proof.
  intros Hm. unfold Megabytes. rewrite (int64_small m) by done.
  assert (- 2 ^ 63 ≤ int64 (m * 2 ^ 20) < 2 ^ 63) as Hrange.
  { unfold int64. pose proof (Z.mod_pos_bound (m * 2 ^ 20 + 2 ^ 63) (2 ^ 64)). lia. }
  split; [|split; [done|]].
  - split.
    + intros Heq. rewrite Heq in Hrange. lia.
    + intros Hsmall. apply int64_small. lia.
  - unfold int64.
    rewrite (Z.mod_eq (m * 2 ^ 20 + 2 ^ 63) (2 ^ 64)) by lia.
    replace (m * 2 ^ 20 + 2 ^ 63
             - 2 ^ 64 * ((m * 2 ^ 20 + 2 ^ 63) `div` 2 ^ 64) - 2 ^ 63
             - m * 2 ^ 20)
      with ((- ((m * 2 ^ 20 + 2 ^ 63) `div` 2 ^ 64)) * 2 ^ 64) by lia.
    apply Z.mod_mul. lia.
Qed.

(** ** The names of the files put aside *)

Lemma string_app_inv_tail (s t x : string) :
  (s ++ x = t ++ x)%string → s = t.
Proof.
  revert t. induction s as [|c s IH]; intros [|d t] H; try done.
  - apply (f_equal String.length) in H.
    rewrite !string_length_app in H. cbn in H. lia.
  - apply (f_equal String.length) in H.
    rewrite !string_length_app in H. cbn in H. lia.
  - change (String c (s ++ x) = String d (t ++ x))%string in H.
    injection H as -> H. f_equal. by apply IH.
Qed.

Lemma string_app_inv_head (x s t : string) :
  (x ++ s = x ++ t)%string → s = t.
Proof.
  induction x as [|c x IH]; [done|].
  change (String c (x ++ s) = String c (x ++ t) → s = t)%string.
  intros [= H]. by apply IH.
Qed.

(** [strconv.FormatInt] writes different numbers differently. *)
Lemma FormatInt_inj a b : FormatInt a = FormatInt b → a = b.
Proof.
  unfold FormatInt. intros H.
  assert (∀ z, Z.to_int z ≠ Decimal.Pos Decimal.Nil ∧
               Z.to_int z ≠ Decimal.Neg Decimal.Nil) as Hnil.
  { intros z. split; intros Hz; pose proof (f_equal Z.of_int Hz) as H0;
      rewrite DecimalZ.of_to in H0; cbn in H0; subst z; discriminate Hz. }
  pose proof (NilZero.isi (Z.to_int a) (proj1 (Hnil a)) (proj2 (Hnil a))) as Ha.
  pose proof (NilZero.isi (Z.to_int b) (proj1 (Hnil b)) (proj2 (Hnil b))) as Hb.
  rewrite H, Hb in Ha. injection Ha as Hab.
  apply (f_equal Z.of_int) in Hab. by rewrite !DecimalZ.of_to in Hab.
Qed.

(** X20.  With the time formatter [NewLogWriter] gives when none is asked
    for -- the nanoseconds of the clock in decimal -- different readings of
    the clock give different stamped names, and none of them is the name of
    the active file.  So a rotation never writes over or removes a file that
    was put aside at another time: it is after the rotation what it was
    before. *)
Theorem rotation_spares_other_stamps lw w lw' w' t :
  TimeFormatter (cfg lw) = Some nanoDateTimeFormatter →
  filePath lw = activePath lw →
  rotateLog lw w = Done None lw' w' →
  t ≠ now w →
  let other := stampedPath lw nanoDateTimeFormatter t in
  other ≠ stampedPath lw nanoDateTimeFormatter (now w) ∧
  other ≠ filePath lw ∧
  files w' !! other = files w !! other.
Proof.
  intros Hf Hpath HR Ht other.
  assert (other ≠ filePath lw) as Hactive by by apply stampedPath_fresh.
  assert (other ≠ stampedPath lw nanoDateTimeFormatter (now w)) as Hother.
  { unfold other, stampedPath, filepath_Join, nanoDateTimeFormatter.
    intros H. apply Ht.
    apply string_app_inv_head in H. apply string_app_inv_head in H.
    apply string_app_inv_head in H. apply string_app_inv_head in H.
    apply string_app_inv_tail in H. by apply FormatInt_inj. }
  split; [done|]. split; [done|].
  destruct (rotateLog_done lw w _ lw' w' Hf) as (_ & -> & _);
    [by apply stampedPath_fresh|done|].
  by rewrite lookup_insert_ne, lookup_insert_ne, lookup_delete_ne.
Qed.

End FileMore.

(** * Both implementations side by side *)

Module BothWriters.

(** C7.  A rotation is a close, then a rename, then a creation, in that
    order, in src/logWriter.go ([rotate]) and in src/file.go ([rotateLog],
    whose creation is an open and a reading of the size): the calls made
    are a run of these steps that ends at the first that fails, whose error
    is the result, and no later step is called. *)
Theorem rotation_in_order (rot : LogWriterGo.LogWriter) (lw : FileGo.LogWriter)
    (w : World) (f g : Z → string) :
  LogWriterGo.timeFormatter rot = Some f →
  FileGo.TimeFormatter (FileGo.cfg lw) = Some g →
  (∃ err rot' w' evs,
     LogWriterGo.rotate rot w = Done err rot' w' ∧
     trace w' = trace w ++ evs ∧
     LogWriterTerms.rotation_steps rot
       (LogWriterTerms.stampedPath rot f (now w)) err evs) ∧
  (∃ err lw' w' evs,
     FileGo.rotateLog lw w = Done err lw' w' ∧
     trace w' = trace w ++ evs ∧
     FileTerms.rotation_steps lw (FileTerms.stampedPath lw g (now w)) err evs).
Proof.
  intros Hf Hg. split.
  - by apply LogWriterFacts.rotate_order.
  - by apply FileFacts.rotateLog_order.
Qed.



End BothWriters.

(** * The statements at small writers *)

Module Instances.
Import Examples.

(** A closed equation or comparison, by evaluation. *)
Ltac run :=
  vm_compute;
  first [ reflexivity | discriminate | split; (reflexivity || discriminate) ].

Module OfLogWriterGo.
Import LogWriterGo LogWriterTerms OfLogWriter.




(** A writer with a threshold of 4 holds [ab] and takes 5 bytes with a
    terminator in the middle; the file takes one byte of the flush and
    reports an error. *)
Lemma Write_failure_keeps_only_old_instance :
  let p := ascii "cd" ++ [LF] ++ ascii "ef" in
  let lw := writer 4 16 (ascii "ab") 0 in
  let w := opened [Reply 1 (Some (Errno 5))] in
  let chunk := ascii "abcd" ++ [LF] in
  let r := (0, Some (Errno 5)) in
  let lw' := writer 4 16 (ascii "b") 1 in
  let w' := world 1000 [(logPath, ascii "a")] []
              [EvOpen logPath true None;
               EvWrite (Some logPath) chunk 1 (Some (Errno 5))] in
  (flushThreshold lw ≠ 0 ∧
   timeFormatter lw = Some nanoDateTimeFormatter ∧
   indexOfFinalNewline lw = LastIndexByte (buf lw) LF ∧
   Write p lw w = Done r lw' w' ∧
   trace w' = trace w ++ [] ++ [EvWrite (Some logPath) chunk 1 (Some (Errno 5))] ∧
   (is_Some (Some (Errno 5)) ∨ 1 < 0 ∨ len chunk < 1)) ∧
  r = (Z.max 0 (validated (len chunk) 1 - len (buf lw)),
       Some (default (ErrInvalidWrite 1) (Some (Errno 5)))) ∧
  buf lw' = drop (Z.to_nat (validated (len chunk) 1)) (buf lw) ∧
  indexOfFinalNewline lw' = LastIndexByte (buf lw') LF.
Proof.
  cbv zeta.
  set (p := ascii "cd" ++ [LF] ++ ascii "ef").
  set (chunk := ascii "abcd" ++ [LF]).
  set (w' := world 1000 _ _ _).
  assert (flushThreshold (writer 4 16 (ascii "ab") 0) ≠ 0) as Hthr by run.
  assert (Write p (writer 4 16 (ascii "ab") 0) (opened [Reply 1 (Some (Errno 5))])
          = Done (0, Some (Errno 5)) (writer 4 16 (ascii "b") 1) w') as HW by run.
  assert (trace w' = trace (opened [Reply 1 (Some (Errno 5))]) ++ []
                     ++ [EvWrite (Some logPath) chunk 1 (Some (Errno 5))])
    as Htr by reflexivity.
  assert (is_Some (Some (Errno 5)) ∨ 1 < 0 ∨ len chunk < 1) as Hfail
    by (left; eexists; reflexivity).
  split; [by repeat split|].
  exact (LogWriterFacts.Write_failure_keeps_only_old p _ _ _ _ _ _ _ _ _ _ _
           Hthr eq_refl eq_refl HW Htr Hfail).
Defined.

(** The same writer and slice; the file takes three bytes of the flush and
    reports an error.  The call comes back with 1, the one byte of the slice
    the file took, and the buffer is empty: the four bytes of the slice the
    file did not take are nowhere. *)
Lemma failed_flush_drops_the_slice :
  let p := ascii "cd" ++ [LF] ++ ascii "ef" in
  ∃ r lw' w',
    Write p (writer 4 16 (ascii "ab") 0) (opened [Reply 3 (Some (Errno 5))])
    = Done r lw' w' ∧
    r = (1, Some (Errno 5)) ∧
    files w' !! logPath = Some (ascii "abc") ∧
    buf lw' = [] ∧
    ¬ retains_undelivered p r lw'.
Proof.
  cbv zeta.
  exists (1, Some (Errno 5)), (writer 4 16 [] 3),
    (world 1000 [(logPath, ascii "abc")] []
       [EvOpen logPath true None;
        EvWrite (Some logPath) (ascii "abcd" ++ [LF]) 3 (Some (Errno 5))]).
  split; [run|]. split; [reflexivity|]. split; [run|]. split; [reflexivity|].
  intros [before Hb]. apply (f_equal length) in Hb.
  rewrite length_app in Hb.
  change (length (buf _)) with 0%nat in Hb.
  change (length (drop _ _)) with 4%nat in Hb. lia.
Defined.


(** A writer with a limit of 6 has 3 bytes in its file and flushes 6. *)
Lemma flush_rotates_when_needed_instance :
  let lw := writer 4 6 (ascii "ab" ++ [LF] ++ ascii "cd" ++ [LF]) 3 in
  let w := opened [] in
  let f := nanoDateTimeFormatter in
  (timeFormatter lw = Some f ∧
   0 ≤ 6 ≤ len (buf lw) ∧ 0 ≤ 3 ≤ len (buf lw) ∧
   0 ≤ writtenBytes lw ∧ writtenBytes lw + 6 < 2 ^ 63) ∧
  ∃ r lw' w' evs,
    flush 3 3 6 lw w = Done r lw' w' ∧
    trace w' = trace w ++ evs ∧
    (needs_rotation lw 6 →
       ∃ err lw1 w1 revs,
         rotate lw w = Done err lw1 w1 ∧
         trace w1 = trace w ++ revs ∧
         rotation_steps lw (stampedPath lw f (now w)) err revs ∧
         writtenBytes lw1 = 0 ∧
         match err with
         | Some _ => evs = revs ∧ r = (0, err)
         | None =>
             ∃ n e, evs = revs ++ [EvWrite (filePointer lw1)
                                     (take (Z.to_nat 6) (buf lw)) n e]
         end) ∧
    (¬ needs_rotation lw 6 →
       ∃ n e, evs = [EvWrite (filePointer lw) (take (Z.to_nat 6) (buf lw)) n e]).
Proof.
  cbv zeta.
  set (lw := writer 4 6 _ 3).
  assert (0 ≤ 6 ≤ len (buf lw)) as Hindex by run.
  assert (0 ≤ 3 ≤ len (buf lw)) as Holen by run.
  assert (0 ≤ writtenBytes lw) as Hwritten by run.
  assert (writtenBytes lw + 6 < 2 ^ 63) as Hroom by run.
  split; [by repeat split|].
  exact (LogWriterFacts.flush_rotates_when_needed 3 3 6 lw (opened []) _
           eq_refl Hindex Holen Hwritten Hroom).
Defined.




End OfLogWriterGo.

Module OfFileGo.
Import FileGo FileTerms.

(** A new writer that buffers up to 128 bytes takes the empty slice. *)
Lemma Write_empty_panics_instance :
  let lw := OfFile.writer 128 16 [] false in
  (0 < BufferSizeMax (cfg lw) ∧
   TimeFormatter (cfg lw) = Some nanoDateTimeFormatter ∧
   len (buf lw) ≤ BufferSizeMax (cfg lw) ∧
   (waitingForNewline lw = true → extents lw ≠ [])) ∧
  Write [] lw (OfFile.opened []) = Panic "index out of range [-1]".
Proof.
  cbv zeta.
  set (lw := OfFile.writer 128 16 [] false).
  assert (0 < BufferSizeMax (cfg lw)) as Hbuffered by run.
  assert (len (buf lw) ≤ BufferSizeMax (cfg lw)) as Hroom by run.
  assert (waitingForNewline lw = true → extents lw ≠ []) as Hwait
    by (intros H; discriminate H).
  split; [by repeat split|].
  exact (FileFacts.Write_empty_panics lw (OfFile.opened []) _
           Hbuffered eq_refl Hroom Hwait).
Defined.



End OfFileGo.

Module OfBoth.
Import BothWriters.

(** A rotation of each writer, in a system that answers every call well. *)
Lemma rotation_in_order_instance :
  let rot := OfLogWriter.writer 4 16 [] 0 in
  let lw := OfFile.writer 128 16 [] false in
  let w := opened [] in
  let f := LogWriterGo.nanoDateTimeFormatter in
  let g := FileGo.nanoDateTimeFormatter in
  (LogWriterGo.timeFormatter rot = Some f ∧
   FileGo.TimeFormatter (FileGo.cfg lw) = Some g) ∧
  (∃ err rot' w' evs,
     LogWriterGo.rotate rot w = Done err rot' w' ∧
     trace w' = trace w ++ evs ∧
     LogWriterTerms.rotation_steps rot
       (LogWriterTerms.stampedPath rot f (now w)) err evs) ∧
  (∃ err lw' w' evs,
     FileGo.rotateLog lw w = Done err lw' w' ∧
     trace w' = trace w ++ evs ∧
     FileTerms.rotation_steps lw (FileTerms.stampedPath lw g (now w)) err evs).
Proof.
  cbv zeta. split; [by split|].
  exact (rotation_in_order (OfLogWriter.writer 4 16 [] 0)
           (OfFile.writer 128 16 [] false) (opened []) _ _ eq_refl eq_refl).
Defined.




End OfBoth.

End Instances.

(** * More statements at small writers *)

Module MoreInstances.
Import Examples.

(** A closed equation or comparison, by evaluation. *)
Ltac evaluate :=
  vm_compute;
  first [ reflexivity | discriminate | split; (reflexivity || discriminate) ].

Module OfLogWriterGo.
Import LogWriterGo LogWriterTerms LogWriterNotions OfLogWriter.

(** A writer with 3 bytes in its file, in a system that will close the
    file and refuse to rename it. *)
Lemma rotation_errors_are_typed_instance :
  let rot := writer 4 64 [] 3 in
  let w := opened [Good; Reply 0 (Some (Errno 13))] in
  timeFormatter rot = Some nanoDateTimeFormatter ∧
  (∀ e rot' w', closeLogFile rot w = Done (Some e) rot' w' → is_PathError e) ∧
  (∀ e rot' w', renameLogFile rot w = Done (Some e) rot' w' → is_LinkError e) ∧
  (∀ e rot' w', createLogFile rot w = Done (Some e) rot' w' →
                is_PathError e ∧ filePointer rot' = None) ∧
  (∀ e rot' w', rotate rot w = Done (Some e) rot' w' →
                (is_PathError e ∨ is_LinkError e) ∧
                filePointer rot' = None ∧ writtenBytes rot' = 0).
Proof.
  cbv zeta. split; [reflexivity|].
  exact (LogWriterMore.rotation_errors_are_typed (writer 4 64 [] 3)
           (opened [Good; Reply 0 (Some (Errno 13))]) _ eq_refl).
Defined.

(** A writer with a threshold of 4 holds [ab] and takes 5 bytes with a
    terminator in the middle, in a system that takes one byte of the flush
    and reports an error. *)
Lemma Write_returns_a_count_instance :
  let p := ascii "cd" ++ [LF] ++ ascii "ef" in
  let lw := writer 4 16 (ascii "ab") 0 in
  let w := opened [Reply 1 (Some (Errno 5))] in
  consistent lw ∧
  ∃ r lw' w',
    Write p lw w = Done r lw' w' ∧
    (flushThreshold lw ≠ 0 →
     0 ≤ r.1 ≤ len p ∧ (r.1 < len p → is_Some r.2)).
Proof.
  cbv zeta.
  assert (consistent (writer 4 16 (ascii "ab") 0)) as Hc.
  { split; [by eexists|]. split; [reflexivity|]. intros H. discriminate H. }
  split; [done|].
  exact (LogWriterMore.Write_returns_a_count
           (ascii "cd" ++ [LF] ++ ascii "ef") _
           (opened [Reply 1 (Some (Errno 5))]) Hc).
Defined.

(** A writer that does not buffer, with a limit of 6 and 3 bytes in its
    file, takes 4 bytes. *)
Lemma Write_unbuffered_in_one_piece_instance :
  let p := ascii "abc" ++ [LF] in
  let lw := writer 0 6 [] 3 in
  let w := opened [] in
  let f := nanoDateTimeFormatter in
  (flushThreshold lw = 0 ∧ timeFormatter lw = Some f ∧
   0 ≤ writtenBytes lw ∧ writtenBytes lw + len p < 2 ^ 63) ∧
  ∃ r lw' w' evs,
    Write p lw w = Done r lw' w' ∧
    trace w' = trace w ++ evs ∧
    buf lw' = buf lw ∧
    (writtenBytes lw + len p ≤ maxBytes lw →
       evs = [EvWrite (filePointer lw) p r.1 r.2] ∧
       writtenBytes lw' = int64 (writtenBytes lw + int64 r.1)) ∧
    (maxBytes lw < writtenBytes lw + len p →
       (rotation_failed evs ∧ r.1 = 0 ∧ is_Some r.2 ∧ filePointer lw' = None) ∨
       (evs = [EvClose (filePointer lw) None;
               EvRename (filePath lw) (stampedPath lw f (now w)) None;
               EvOpen (filePath lw) true None;
               EvWrite (Some (filePath lw)) p r.1 r.2] ∧
        writtenBytes lw' = int64 (0 + int64 r.1))).
Proof.
  cbv zeta.
  set (lw := writer 0 6 [] 3). set (p := ascii "abc" ++ [LF]).
  assert (0 ≤ writtenBytes lw) as Hwritten by evaluate.
  assert (writtenBytes lw + len p < 2 ^ 63) as Hroom by evaluate.
  split; [by repeat split|].
  exact (LogWriterMore.Write_unbuffered_in_one_piece p lw (opened []) _
           eq_refl eq_refl Hwritten Hroom).
Defined.

(** A writer with a threshold of 8 is made and takes [ab], a terminator and
    [c]: the terminator is at index 2 of its buffer. *)
Lemma buffered_run :
  reachable (config 8 64) (bare [])
    (writer 8 64 (ascii "ab" ++ [LF] ++ ascii "c") 0) (opened []).
Proof.
  eapply (reach_Write _ _ (writer 8 64 [] 0) (opened [])
            (ascii "ab" ++ [LF] ++ ascii "c") (4, None)).
  - apply reach_New. evaluate.
  - evaluate.
  - evaluate.
  - intros evs Hevs. cbn in Hevs. injection Hevs as <-. constructor.
Defined.

Lemma recorded_index_is_last_terminator_instance :
  let cfg := config 8 64 in
  let lw := writer 8 64 (ascii "ab" ++ [LF] ++ ascii "c") 0 in
  let w := opened [] in
  (MaxBytes cfg ≤ 2 ^ 62 ∧ reachable cfg (bare []) lw w) ∧
  indexOfFinalNewline lw = LastIndexByte (buf lw) LF ∧
  -1 ≤ indexOfFinalNewline lw < len (buf lw) ∧
  (0 ≤ indexOfFinalNewline lw →
   buf lw !! Z.to_nat (indexOfFinalNewline lw) = Some LF) ∧
  (∀ i : nat, indexOfFinalNewline lw < Z.of_nat i → buf lw !! i ≠ Some LF) ∧
  (flushThreshold lw = 0 → buf lw = []) ∧
  0 ≤ writtenBytes lw.
Proof.
  cbv zeta.
  assert (MaxBytes (config 8 64) ≤ 2 ^ 62) as Hmax by evaluate.
  split; [split; [done|exact buffered_run]|].
  exact (LogWriterMore.recorded_index_is_last_terminator _ _ _ _ Hmax buffered_run).
Defined.

(** A writer that was closed, with a threshold of 4, takes 2 bytes. *)
Lemma closed_writer_writes_nothing_instance :
  let p := ascii "ab" in
  let lw := set_filePointer None (writer 4 16 [] 0) in
  let w := opened [] in
  (consistent lw ∧ filePointer lw = None) ∧
  ∃ r lw' w',
    Write p lw w = Done r lw' w' ∧
    files w' = files w ∧ filePointer lw' = None ∧
    (r.2 = None →
     flushThreshold lw ≠ 0 ∧ r.1 = len p ∧ w' = w ∧ buf lw' = buf lw ++ p) ∧
    (flushThreshold lw = 0 → r.1 = 0 ∧ is_Some r.2).
Proof.
  cbv zeta.
  assert (consistent (set_filePointer None (writer 4 16 [] 0))) as Hc.
  { split; [by eexists|]. split; [reflexivity|]. intros H. discriminate H. }
  split; [by split|].
  exact (LogWriterMore.closed_writer_writes_nothing (ascii "ab") _ (opened [])
           Hc eq_refl).
Defined.


(** A writer that does not buffer, with a limit of 4, is made, takes two
    slices of 3 bytes -- the second after a rotation -- and is closed. *)
Lemma session_delivers_every_byte_instance :
  let cfg := config 0 4 in
  let ps := [ascii "ab" ++ [LF]; ascii "cd" ++ [LF]] in
  ∃ rs lw w,
    (reports_errors (script (bare [])) ∧
     session cfg ps tt (bare []) = Done (inl (rs, None, lw)) tt w ∧
     Forall (λ r : Z * option error, r.2 = None) rs) ∧
    rs = map (λ p, (len p, None)) ps ∧
    ∃ evs, trace w = trace (bare []) ++ evs ∧ delivered evs = concat ps.
Proof.
  cbv zeta.
  set (ps := [ascii "ab" ++ [LF]; ascii "cd" ++ [LF]]).
  exists [(3, None); (3, None)],
    (set_filePointer None (writer 0 4 [] 0)),
    (world 1001 [(logPath, ascii "cd" ++ [LF]);
                 ("/var/log/app.1000.log"%string, ascii "ab" ++ [LF])] []
       [EvOpen logPath true None;
        EvWrite (Some logPath) (ascii "ab" ++ [LF]) 3 None;
        EvClose (Some logPath) None;
        EvRename logPath "/var/log/app.1000.log" None;
        EvOpen logPath true None;
        EvWrite (Some logPath) (ascii "cd" ++ [LF]) 3 None;
        EvClose (Some logPath) None]).
  set (w := world 1001 _ _ _).
  assert (reports_errors (script (bare []))) as Hs by constructor.
  assert (session (config 0 4) ps tt (bare [])
          = Done (inl ([(3, None); (3, None)], None,
                       set_filePointer None (writer 0 4 [] 0))) tt w)
    as Hrun by evaluate.
  assert (Forall (λ r : Z * option error, r.2 = None) [(3, None); (3, None)])
    as Hok by (by repeat constructor).
  split; [by repeat split|].
  exact (LogWriterMore.session_delivers_every_byte (config 0 4) ps (bare [])
           _ _ w Hs Hrun Hok).
Defined.

Lemma tracked_size_is_file_size_instance :
  let cfg := config 8 64 in
  let lw := writer 8 64 (ascii "ab" ++ [LF] ++ ascii "c") 0 in
  let w := opened [] in
  (MaxBytes cfg ≤ 2 ^ 62 ∧ reachable cfg (bare []) lw w) ∧
  size_tracked lw w.
Proof.
  cbv zeta.
  assert (MaxBytes (config 8 64) ≤ 2 ^ 62) as Hmax by evaluate.
  split; [split; [done|exact buffered_run]|].
  exact (LogWriterMore.tracked_size_is_file_size _ _ _ _ Hmax buffered_run).
Defined.

End OfLogWriterGo.

Module OfFileGo.
Import FileGo FileTerms FileNotions MoreExamples.

(** The parts of [sound] at a writer and a system that are given in full,
    by evaluation. *)
Ltac sound_by_evaluation :=
  split;
  [ by eexists | evaluate | reflexivity | eexists; evaluate
  | repeat constructor; evaluate | evaluate | evaluate | evaluate | evaluate ].

Ltac steady_by_evaluation :=
  split; [sound_by_evaluation|];
  split; [intros H; first [discriminate H | intros H'; discriminate H']
         |intros H; first [by vm_compute in H | by split]].



(** A writer with a limit of 8 holds three lines of 3 bytes; its file is
    empty. *)
Lemma flushAsMuchAsPossible_longest_fit_instance :
  let lw := holding 128 8
              [ascii "ab" ++ [LF]; ascii "cd" ++ [LF]; ascii "ef" ++ [LF]]
              0 false in
  let w := found [] [] in
  sound lw w ∧
  ∃ (j : nat) err lw' w',
    flushAsMuchAsPossible lw w = Done err lw' w' ∧
    (j ≤ ready lw)%nat ∧
    ((0 < j)%nat →
       fileSizeNow lw + total (take j (extents lw)) ≤ MaxBytes (cfg lw)) ∧
    ((j < ready lw)%nat →
       MaxBytes (cfg lw) < fileSizeNow lw + total (take (S j) (extents lw))) ∧
    (j = O → err = None ∧ lw' = lw ∧ w' = w) ∧
    ((0 < j)%nat →
       let b := total (take j (extents lw)) in
       ∃ n e,
         trace w' = trace w ++ [EvWrite (Some (filePath lw))
                                  (take (Z.to_nat b) (buf lw)) n e] ∧
         (err = None ↔ e = None ∧ n = b) ∧
         (err = None →
            extents lw' = drop j (extents lw) ∧
            buf lw' = drop (Z.to_nat b) (buf lw) ∧
            fileSizeNow lw' = fileSizeNow lw + b)).
Proof.
  cbv zeta.
  set (lw := holding 128 8 _ 0 false).
  assert (sound lw (found [] [])) as Hsound by sound_by_evaluation.
  split; [done|].
  exact (FileMore.flushAsMuchAsPossible_longest_fit lw (found [] []) Hsound).
Defined.



(** A writer holds a line of 3 bytes and a line of 5; the file takes 5 of
    the 8 bytes and reports no error.  Two bytes of the second line were
    written and three remain, and the extent left for it counts 2. *)
Lemma writeExtents_after_short_write_instance :
  let lw := holding 128 64 [ascii "ab" ++ [LF]; ascii "cdef" ++ [LF]]
              0 false in
  let w := found [] [Reply 5 None] in
  let w1 := world 1000 [(logPath, ascii "ab" ++ [LF] ++ ascii "cd")] []
              [EvOpen logPath false None; EvStat logPath None;
               EvWrite (Some logPath)
                 (ascii "ab" ++ [LF] ++ ascii "cdef" ++ [LF]) 5 None] in
  (sound lw w ∧ (1 < 2 ≤ length (extents lw))%nat ∧
   extents lw !! 1%nat = Some 5 ∧
   os_File_Write (filePointer lw)
     (take (Z.to_nat (total (take 2 (extents lw)))) (buf lw)) w
   = ((5, None), w1) ∧
   total (take 1 (extents lw)) ≤ 5 < total (take 1 (extents lw)) + 5) ∧
  let x := 5 - total (take 1 (extents lw)) in
  ∃ r lw',
    writeExtents (Z.of_nat 2) (total (take 2 (extents lw))) lw w
    = Done r lw' w1 ∧
    r.2 = Some (default ErrShortWrite None) ∧
    buf lw' = drop (Z.to_nat 5) (buf lw) ∧
    fileSizeNow lw' = fileSizeNow lw + 5 ∧
    extents lw' = (if decide (x = 0) then drop 1 (extents lw)
                   else x :: drop 2 (extents lw)) ∧
    total (extents lw') - len (buf lw')
    = (if decide (x = 0) then 0 else 2 * x - 5).
Proof.
  cbv zeta.
  set (lw := holding 128 64 _ 0 false).
  set (w := found [] [Reply 5 None]). set (w1 := world 1000 _ _ _).
  assert (sound lw w) as Hsound by sound_by_evaluation.
  assert (1 < 2 ≤ length (extents lw))%nat as Hjk by (cbn; lia).
  assert (os_File_Write (filePointer lw)
            (take (Z.to_nat (total (take 2 (extents lw)))) (buf lw)) w
          = ((5, None), w1)) as Hsys by evaluate.
  assert (total (take 1 (extents lw)) ≤ 5 < total (take 1 (extents lw)) + 5)
    as Hn by evaluate.
  split; [exact (conj Hsound (conj Hjk (conj eq_refl (conj Hsys Hn))))|].
  exact (FileMore.writeExtents_after_short_write lw w 2 1 5 5 None w1
           Hsound Hjk eq_refl Hsys Hn).
Defined.


(** A writer that buffers up to 4 bytes holds a line and is closed; then
    it takes 2 bytes. *)
Lemma closed_writer_still_buffers_instance :
  let lw0 := holding 4 64 [ascii "ab" ++ [LF]] 0 false in
  let w0 := found [] [] in
  let lw := set_filePointer None (holding 4 64 [] 0 false) in
  let w := world 1000 [(logPath, ascii "ab" ++ [LF])] []
             [EvOpen logPath false None; EvStat logPath None;
              EvWrite (Some logPath) (ascii "ab" ++ [LF]) 3 None;
              EvClose (Some logPath) None] in
  let p := ascii "cd" in
  (steady lw0 w0 ∧ len (buf lw0) + 1 < 2 ^ 62 ∧ len p < 2 ^ 62 ∧
   Close lw0 w0 = Done None lw w) ∧
  (∃ lw' w',
     Close lw w = Done (Some ErrInvalid) lw' w' ∧
     files w' = files w ∧ script w' = script w) ∧
  (BufferSizeMax (cfg lw) ≤ 0 →
     ∃ lw' w',
       Write p lw w = Done (0, Some ErrInvalid) lw' w' ∧
       files w' = files w ∧ script w' = script w) ∧
  (0 < BufferSizeMax (cfg lw) → p ≠ [] →
     ∃ lw' w',
       Write p lw w = Done (len p, None) lw' w' ∧
       buf lw' = p ∧ filePointer lw' = None ∧
       files w' = files w ∧ script w' = script w ∧ trace w' = trace w).
Proof.
  cbv zeta.
  set (lw0 := holding 4 64 _ 0 false).
  set (lw := set_filePointer None _). set (w := world 1000 _ _ _).
  assert (steady lw0 (found [] [])) as Hsteady by steady_by_evaluation.
  assert (len (buf lw0) + 1 < 2 ^ 62) as Hmem by evaluate.
  assert (len (ascii "cd") < 2 ^ 62) as Hp by evaluate.
  assert (Close lw0 (found [] []) = Done None lw w) as HC by evaluate.
  split; [exact (conj Hsteady (conj Hmem (conj Hp HC)))|].
  exact (FileMore.closed_writer_still_buffers lw0 (found [] []) lw w
           (ascii "cd") Hsteady Hmem Hp HC).
Defined.

(** A hundred megabytes, the default limit. *)
Lemma Megabytes_exact_below_overflow_instance :
  - 2 ^ 63 ≤ 100 < 2 ^ 63 ∧
  (Megabytes 100 = 100 * 2 ^ 20 ↔ - 2 ^ 43 ≤ 100 < 2 ^ 43) ∧
  - 2 ^ 63 ≤ Megabytes 100 < 2 ^ 63 ∧
  (Megabytes 100 - 100 * 2 ^ 20) mod 2 ^ 64 = 0.
Proof.
  assert (- 2 ^ 63 ≤ 100 < 2 ^ 63) as Hm by lia.
  split; [done|].
  exact (FileMore.Megabytes_exact_below_overflow 100 Hm).
Defined.

(** A writer with 3 bytes in its file rotates at time 1000, when a file
    put aside at time 999 exists. *)
Lemma rotation_spares_other_stamps_instance :
  let lw := holding 0 64 [] 3 false in
  let w := world 1000 [(logPath, ascii "cd" ++ [LF]);
                       ("/var/log/app.999.log"%string, ascii "ab" ++ [LF])] []
             [EvOpen logPath false None; EvStat logPath None] in
  let lw' := holding 0 64 [] 0 false in
  let w' := world 1001 [(logPath, []);
                        ("/var/log/app.1000.log"%string, ascii "cd" ++ [LF]);
                        ("/var/log/app.999.log"%string, ascii "ab" ++ [LF])] []
              [EvOpen logPath false None; EvStat logPath None;
               EvClose (Some logPath) None;
               EvRename logPath "/var/log/app.1000.log" None;
               EvOpen logPath false None; EvStat logPath None] in
  (TimeFormatter (cfg lw) = Some nanoDateTimeFormatter ∧
   filePath lw = activePath lw ∧
   rotateLog lw w = Done None lw' w' ∧ 999 ≠ now w) ∧
  let other := stampedPath lw nanoDateTimeFormatter 999 in
  other ≠ stampedPath lw nanoDateTimeFormatter (now w) ∧
  other ≠ filePath lw ∧
  files w' !! other = files w !! other.
Proof.
  cbv zeta.
  set (lw := holding 0 64 [] 3 false).
  set (w := world 1000 _ _ _). set (w' := world 1001 _ _ _).
  assert (filePath lw = activePath lw) as Hpath by evaluate.
  assert (rotateLog lw w = Done None (holding 0 64 [] 0 false) w') as HR
    by evaluate.
  assert (999 ≠ now w) as Ht by (intros H; discriminate H).
  split; [by repeat split|].
  exact (FileMore.rotation_spares_other_stamps lw w _ w' 999
           eq_refl Hpath HR Ht).
Defined.

End OfFileGo.

End MoreInstances.
